(** * split_train_valid: a shallow embedding of MINE/split_train_valid.py

    The script pairs every image of a directory with its label file,
    shuffles the pairs with a seeded generator, cuts the shuffled list
    into a training prefix and a validation suffix, and copies the files
    into [train/] and [valid/] trees next to the images directory.

    Paths are strings, the file system is a finite map from paths to
    nodes, Python floats are binary64 values of [SpecFloat], exceptions
    are an explicit result type and the console is a list of events. *)

From Stdlib Require Import ZArith Lia Ascii.
From Stdlib Require Import Floats.SpecFloat.
From stdpp Require Import base option list sorting strings gmap.

Local Open Scope Z_scope.

(** ** Exceptions *)

Inductive exn :=
| FileNotFoundError (msg : string)
| FileExistsError (path : string)
| NotADirectoryError (path : string)
| IsADirectoryError (path : string)
| SameFileError (src dst : string)
| OverflowError
| ValueError
| IndexError
| RecursionError.

Inductive result (A : Type) :=
| Ok (a : A)
| Raise (e : exn).
Arguments Ok {A} a.
Arguments Raise {A} e.

#[global] Instance result_ret : MRet result := fun _ a => Ok a.
#[global] Instance result_bind : MBind result := fun _ _ k r =>
  match r with
  | Ok a => k a
  | Raise e => Raise e
  end.

(** ** Python list slicing: [xs[:k]] and [xs[k:]] for any integer [k] *)

Definition clamp_index (len k : Z) : Z :=
  if k <? 0 then Z.max 0 (k + len) else Z.min k len.

Definition slice_to {A} (k : Z) (xs : list A) : list A :=
  take (Z.to_nat (clamp_index (Z.of_nat (length xs)) k)) xs.

Definition slice_from {A} (k : Z) (xs : list A) : list A :=
  drop (Z.to_nat (clamp_index (Z.of_nat (length xs)) k)) xs.

(** ** The random module

    [random.seed] and [random.shuffle] use the interpreter's generator;
    the generator itself is an interface: a state, the state a seed
    gives, and [_randbelow n], which draws a number below [n]. *)

Record RandomSource := {
  rs_state : Type;
  rs_seed : Z -> rs_state;
  rs_randbelow : rs_state -> nat -> nat * rs_state;
  rs_randbelow_lt : forall g n, (0 < n)%nat -> (fst (rs_randbelow g n) < n)%nat
}.

(** A small linear congruential generator, to run the script on
    concrete inputs. *)
Definition lcg : RandomSource.
Proof.
  refine {| rs_state := Z;
            rs_seed := fun s => s;
            rs_randbelow := fun g n =>
              (Z.to_nat (g mod Z.of_nat n), (g * 1103515245 + 12345) mod 2 ^ 31) |}.
  intros g n Hn. simpl.
  pose proof (Z.mod_pos_bound g (Z.of_nat n) ltac:(lia)). lia.
Defined.

(** [x[i], x[j] = x[j], x[i]]: both reads happen before both writes. *)
Definition swap {A} (x : list A) (i j : nat) : result (list A) :=
  match x !! j, x !! i with
  | Some xj, Some xi => Ok (<[j := xi]> (<[i := xj]> x))
  | _, _ => Raise IndexError
  end.

Section Shuffle.
Variable R : RandomSource.
Context {A : Type}.

(** [for i in reversed(range(1, len(x))): j = randbelow(i + 1); swap];
    the argument counts the indices still to visit, so the index in
    hand is [S i']. *)
Fixpoint shuffle_loop (i : nat) (g : rs_state R) (x : list A)
  : result (list A * rs_state R) :=
  match i with
  | O => Ok (x, g)
  | S i' =>
      let '(j, g') := rs_randbelow R g (S i') in
      x' ← swap x (S i') j;
      shuffle_loop i' g' x'
  end.

Definition shuffle (g : rs_state R) (x : list A) : result (list A * rs_state R) :=
  shuffle_loop (length x - 1) g x.
End Shuffle.

(** ** Floats: [int(total * train_ratio)] *)

Definition prec64 : Z := 53.
Definition emax64 : Z := 1024.

(** The int operand of [int * float] is converted to the nearest double
    (ties to even); an int beyond the double range raises. *)
Definition float_of_int (n : Z) : result spec_float :=
  match binary_normalize prec64 emax64 n 0 false with
  | S754_infinity _ => Raise OverflowError
  | f => Ok f
  end.

Definition float_mul (x y : spec_float) : spec_float := SFmul prec64 emax64 x y.

(** [int(f)]: truncation toward zero; infinities and NaN raise. *)
Definition int_of_float (f : spec_float) : result Z :=
  match f with
  | S754_zero _ => Ok 0
  | S754_infinity _ => Raise OverflowError
  | S754_nan => Raise ValueError
  | S754_finite s m e =>
      let q := if 0 <=? e then Z.pos m * 2 ^ e else Z.pos m / 2 ^ (- e) in
      Ok (if s then - q else q)
  end.

Definition is_finite (f : spec_float) : bool :=
  match f with
  | S754_zero _ | S754_finite _ _ _ => true
  | _ => false
  end.

(** [k] is the floor of the value of the non-negative double [f]. *)
Definition is_floor_of (k : Z) (f : spec_float) : Prop :=
  match f with
  | S754_zero _ => k = 0
  | S754_finite false m e =>
      if 0 <=? e then k = Z.pos m * 2 ^ e
      else k * 2 ^ (- e) <= Z.pos m < (k + 1) * 2 ^ (- e)
  | _ => False
  end.

(** The double [f] has the value of the natural number [n]. *)
Definition float_is_nat (n : Z) (f : spec_float) : Prop :=
  match f with
  | S754_zero _ => n = 0
  | S754_finite false m e => e <= 0 /\ Z.pos m = n * 2 ^ (- e)
  | _ => False
  end.

(** [0 < r <= 1] for a double [r] *)
Definition in_unit_interval (r : spec_float) : bool :=
  match r with
  | S754_finite false m e =>
      if 0 <=? e then Z.pos m * 2 ^ e <=? 1 else Z.pos m <=? 2 ^ (- e)
  | _ => false
  end.

(** [m * 2^e <= n], stated on integers *)
Definition dyadic_le (m e n : Z) : Prop :=
  if 0 <=? e then m * 2 ^ e <= n else m <= n * 2 ^ (- e).

(** What [j] right shifts of the mantissa [M] leave in a shift record:
    the quotient, and flags that are set only if bits were lost. *)
Definition shr_inv (M : Z) (j : nat) (mrs : shr_record) : Prop :=
  shr_m mrs = M / 2 ^ Z.of_nat j /\
  (shr_r mrs || shr_s mrs = true -> M mod 2 ^ Z.of_nat j <> 0).

Definition train_count_of (total : nat) (train_ratio : spec_float) : result Z :=
  ft ← float_of_int (Z.of_nat total);
  int_of_float (float_mul ft train_ratio).

(** ** The partition step of [split_and_copy] (lines 90-95) *)

Section Partition.
Variable R : RandomSource.
Context {A : Type}.

Definition partition (g : rs_state R) (train_ratio : spec_float)
    (valid_pairs : list A) : result (list A * list A * rs_state R) :=
  let total := length valid_pairs in
  train_count ← train_count_of total train_ratio;
  '(shuffled, g') ← shuffle R g valid_pairs;
  Ok (slice_to train_count shuffled, slice_from train_count shuffled, g').
End Partition.

(** ** posixpath: [join], [split], [basename], [dirname], [splitext] *)

Local Open Scope string_scope.

Definition sep : ascii := "/"%char.
Definition extsep : ascii := "."%char.

Definition is_dot (c : ascii) : bool := bool_decide (c = extsep).

(** [c in s] *)
Fixpoint contains (c : ascii) (s : string) : bool :=
  match s with
  | "" => false
  | String a s' => bool_decide (a = c) || contains c s'
  end.

(** [s == c * len(s)] *)
Fixpoint all_char (c : ascii) (s : string) : bool :=
  match s with
  | "" => true
  | String a s' => bool_decide (a = c) && all_char c s'
  end.

(** [s.rstrip(c)] *)
Fixpoint rstrip (c : ascii) (s : string) : string :=
  match s with
  | "" => ""
  | String a s' =>
      let r := rstrip c s' in
      if bool_decide (a = c) && bool_decide (r = "") then "" else String a r
  end.

Definition startswith (c : ascii) (s : string) : bool :=
  match s with
  | "" => false
  | String a _ => bool_decide (a = c)
  end.

Fixpoint endswith (c : ascii) (s : string) : bool :=
  match s with
  | "" => false
  | String a "" => bool_decide (a = c)
  | String _ s' => endswith c s'
  end.

(** [i = p.rfind(sep) + 1; (p[:i], p[i:])] *)
Fixpoint cut_after_last_sep (p : string) : string * string :=
  match p with
  | "" => ("", "")
  | String a s' =>
      if contains sep p
      then let '(h, t) := cut_after_last_sep s' in (String a h, t)
      else ("", p)
  end.

(** The head of [split] and [dirname]: trailing slashes go, unless the
    head is nothing but slashes. *)
Definition strip_head (head : string) : string :=
  if bool_decide (head ≠ "") && negb (all_char sep head)
  then rstrip sep head else head.

Definition path_split (p : string) : string * string :=
  let '(head, tail) := cut_after_last_sep p in (strip_head head, tail).

Definition basename (p : string) : string := snd (cut_after_last_sep p).

Definition dirname (p : string) : string := fst (path_split p).

(** [os.path.join(a, b)] *)
Definition join (a b : string) : string :=
  if startswith sep b then b
  else if bool_decide (a = "") || endswith sep a then a +:+ b
  else a +:+ String sep b.

(** A directory path as [abspath] and [dirname] give it: without a
    trailing slash, unless it is made of slashes only. *)
Definition norm_dir (d : string) : bool := negb (endswith sep d) || all_char sep d.

(** A file name: not empty, no slash. *)
Definition is_name (t : string) : bool :=
  negb (contains sep t) && negb (bool_decide (t = "")).

(** [i = n.rfind(extsep); (n[:i], n[i:])], or [(n, "")] without a dot. *)
Fixpoint cut_at_last_dot (n : string) : string * string :=
  match n with
  | "" => ("", "")
  | String a s' =>
      if negb (contains extsep s') && is_dot a then ("", n)
      else let '(r, e) := cut_at_last_dot s' in (String a r, e)
  end.

(** [os.path.splitext]: the extension starts at the last dot of the last
    component, provided a character other than a dot comes before it in
    that component. *)
Definition splitext (p : string) : string * string :=
  let '(head, name) := cut_after_last_sep p in
  let '(root, ext) := cut_at_last_dot name in
  if contains extsep name && negb (all_char extsep root)
  then (head +:+ root, ext) else (p, "").

(** ** glob *)

Definition has_magic (s : string) : bool :=
  contains "*"%char s || contains "?"%char s || contains "["%char s.

(** [fnmatch] for patterns made of literal characters, [?] and [*]. *)
Fixpoint fnmatch (pat : string) : string -> bool :=
  match pat with
  | "" => fun name => bool_decide (name = "")
  | String c pat' =>
      if bool_decide (c = "*"%char) then
        fix star (name : string) : bool :=
          fnmatch pat' name ||
          match name with
          | "" => false
          | String _ name' => star name'
          end
      else fun name =>
        match name with
        | "" => false
        | String a name' =>
            (bool_decide (c = "?"%char) || bool_decide (a = c)) && fnmatch pat' name'
        end
  end.

(** What the operating system answers: the names a directory lists, in
    the order it lists them (nothing for a path that is no directory),
    the absolute form of a path, and what [glob] finds for a pattern
    whose directory part has wildcards of its own. *)
Record Env := {
  listing : string -> list string;
  abspath : string -> string;
  glob_dirs : string -> list string
}.

Definition is_hidden (name : string) : bool := startswith extsep name.

(** [glob(pathname)] for a pattern whose last component has a wildcard:
    the names of the directory that are not hidden and match, each
    joined to the directory. *)
Definition glob (E : Env) (pathname : string) : list string :=
  let '(dirname, basename) := path_split pathname in
  if has_magic dirname then glob_dirs E pathname
  else
    let names := listing E dirname in
    let names := if is_hidden basename then names
                 else filter (fun n => is_hidden n = false) names in
    (join dirname) <$> filter (fun n => fnmatch basename n = true) names.

(** [sorted] on strings: ascending, compared character by character. *)
Definition sorted (l : list string) : list string := merge_sort String.le l.

(** ** The file system, the console and the interpreter state *)

Inductive node :=
| Dir
| File (content : list Byte.byte).

Definition is_dir (n : option node) : bool :=
  match n with
  | Some Dir => true
  | _ => false
  end.

Definition is_some_node (n : option node) : bool :=
  match n with
  | Some _ => true
  | None => false
  end.

(** One constructor per [print] of the script. *)
Inductive line :=
| MsgFound (images_dir : string) (n : nat)
| MsgNoLabel (img_path label_path : string)
| MsgValidCount (n : nat)
| MsgSplitCount (n_train n_valid : nat)
| MsgOutput (base_dir : string)
| MsgDir (d : string)
| MsgCopyStart (set_name : string)
| MsgCopied (set_name img_filename label_filename : string)
| MsgDone
| MsgParams
| MsgImagesDir (d : string)
| MsgLabelsDir (d : string)
| MsgTrainRatio (r : spec_float)
| MsgSeed (s : Z).

#[global] Instance spec_float_eq_dec : EqDecision spec_float.
Proof. solve_decision. Defined.

#[global] Instance line_eq_dec : EqDecision line.
Proof. solve_decision. Defined.

(** How many times [x] occurs in [l]. *)
Definition count {A} `{EqDecision A} (x : A) (l : list A) : nat :=
  length (filter (fun y => y = x) l).

Record world (G : Type) := World {
  fs : gmap string node;
  out : list line;
  rng : G
}.
Arguments World {G} fs out rng.
Arguments fs {G} w.
Arguments out {G} w.
Arguments rng {G} w.

(** A statement runs in a world and leaves a world, also when it raises. *)
Definition prog (G A : Type) : Type := world G -> result A * world G.

#[global] Instance prog_ret {G} : MRet (prog G) := fun _ a w => (Ok a, w).
#[global] Instance prog_bind {G} : MBind (prog G) := fun _ _ k m w =>
  match m w with
  | (Ok a, w') => k a w'
  | (Raise e, w') => (Raise e, w')
  end.

Definition raise {G A} (e : exn) : prog G A := fun w => (Raise e, w).

Definition print {G} (l : line) : prog G unit :=
  fun w => (Ok tt, World (fs w) (out w ++ [l]) (rng w)).

Definition path_exists {G} (p : string) : prog G bool :=
  fun w => (Ok (is_some_node (fs w !! p)), w).

Definition path_isdir {G} (p : string) : prog G bool :=
  fun w => (Ok (is_dir (fs w !! p)), w).

(** [os.mkdir]: the path must be free and its parent a directory. *)
Definition mkdir {G} (p : string) : prog G unit :=
  fun w =>
    match fs w !! p with
    | Some _ => (Raise (FileExistsError p), w)
    | None =>
        match fs w !! dirname p with
        | Some Dir => (Ok tt, World (<[p := Dir]> (fs w)) (out w) (rng w))
        | Some (File _) => (Raise (NotADirectoryError p), w)
        | None => (Raise (FileNotFoundError p), w)
        end
    end.

(** [os.makedirs(name, exist_ok=True)]; the recursion is on the head of
    [name], which is shorter than [name], so the length of [name] bounds
    its depth. *)
Fixpoint makedirs_rec {G} (depth : nat) (name : string) : prog G unit :=
  match depth with
  | O => raise RecursionError
  | S depth' =>
      let '(head, tail) := path_split name in
      let '(head, tail) :=
        if bool_decide (tail = "") then path_split head else (head, tail) in
      let leaf : prog G unit := fun w =>
        match mkdir name w with
        | (Ok tt, w') => (Ok tt, w')
        | (Raise e, w') =>
            if is_dir (fs w' !! name) then (Ok tt, w')
            else (Raise e, w')
        end in
      fun w =>
        if bool_decide (head ≠ "") && bool_decide (tail ≠ "")
           && negb (is_some_node (fs w !! head))
        then
          match makedirs_rec depth' head w with
          | (Ok tt, w') | (Raise (FileExistsError _), w') =>
              if bool_decide (tail = ".") then (Ok tt, w') else leaf w'
          | (Raise e, w') => (Raise e, w')
          end
        else leaf w
  end.

Definition makedirs {G} (name : string) : prog G unit :=
  makedirs_rec (S (String.length name)) name.

(** [shutil.copy2(src, dst)]: into [dst/basename(src)] when [dst] is a
    directory; the source is opened first, then the destination is
    created or truncated and receives the content. *)
Definition copy2 {G} (src dst : string) : prog G string :=
  fun w =>
    let dst := if is_dir (fs w !! dst)
               then join dst (basename src) else dst in
    match fs w !! src with
    | None => (Raise (FileNotFoundError src), w)
    | Some nsrc =>
        if bool_decide (src = dst) then (Raise (SameFileError src dst), w)
        else
          match nsrc with
          | Dir => (Raise (IsADirectoryError src), w)
          | File content =>
              match fs w !! dst with
              | Some Dir => (Raise (IsADirectoryError dst), w)
              | Some (File _) =>
                  (Ok dst, World (<[dst := File content]> (fs w)) (out w) (rng w))
              | None =>
                  match fs w !! dirname dst with
                  | Some Dir =>
                      (Ok dst, World (<[dst := File content]> (fs w)) (out w) (rng w))
                  | Some (File _) => (Raise (NotADirectoryError dst), w)
                  | None => (Raise (FileNotFoundError dst), w)
                  end
              end
          end
    end.

(** ** The script *)

Record Args := {
  arg_images_dir : string;
  arg_labels_dir : string;
  arg_train_ratio : spec_float;
  arg_seed : Z
}.

Definition output_dirs (base_dir : string) : list string :=
  [ join (join base_dir "train") "images";
    join (join base_dir "train") "labels";
    join (join base_dir "valid") "images";
    join (join base_dir "valid") "labels" ].

(** The directories [create_dir_structure] may have to make: the four
    leaves and their two parents. *)
Definition tree_dirs (base_dir : string) : list string :=
  [ join base_dir "train"; join base_dir "valid" ] ++ output_dirs base_dir.

(** [base_dir] is a directory and nothing but a directory stands where
    the output tree goes. *)
Definition tree_ok (base_dir : string) (m : gmap string node) : Prop :=
  m !! base_dir = Some Dir /\
  forall d, d ∈ tree_dirs base_dir -> m !! d = None \/ m !! d = Some Dir.

(** The file system with every path of [l] made a directory. *)
Definition insert_dirs (l : list string) (m : gmap string node) : gmap string node :=
  foldr (fun d m => <[d := Dir]> m) m l.

Fixpoint create_dirs_loop {G} (dirs : list string) : prog G unit :=
  match dirs with
  | [] => mret tt
  | d :: dirs' =>
      makedirs d;;
      print (MsgDir d);;
      create_dirs_loop dirs'
  end.

(** [create_dir_structure], lines 42-56 *)
Definition create_dir_structure {G} (base_dir : string) : prog G (list string) :=
  let dirs := output_dirs base_dir in
  create_dirs_loop dirs;;
  mret dirs.

Definition label_path_of (labels_dir img_path : string) : string :=
  let base_name := fst (splitext (basename img_path)) in
  join labels_dir (base_name +:+ ".txt").

(** Whether the label of an image exists in a file system. *)
Definition has_label (m : gmap string node) (labels_dir img_path : string) : bool :=
  is_some_node (m !! label_path_of labels_dir img_path).

Definition pair_of (labels_dir img_path : string) : string * string :=
  (img_path, label_path_of labels_dir img_path).

Definition warning_of (labels_dir img_path : string) : line :=
  MsgNoLabel img_path (label_path_of labels_dir img_path).

(** The pairing loop, lines 78-85 *)
Fixpoint pair_loop {G} (labels_dir : string) (image_files : list string)
    (valid_pairs : list (string * string)) : prog G (list (string * string)) :=
  match image_files with
  | [] => mret valid_pairs
  | img_path :: rest =>
      let label_path := label_path_of labels_dir img_path in
      found ← path_exists label_path;
      if (found : bool)
      then pair_loop labels_dir rest (valid_pairs ++ [(img_path, label_path)])
      else print (MsgNoLabel img_path label_path);;
           pair_loop labels_dir rest valid_pairs
  end.

(** [copy_data], lines 111-121 *)
Fixpoint copy_data {G} (pairs : list (string * string))
    (img_out_dir label_out_dir set_name : string) : prog G unit :=
  match pairs with
  | [] => mret tt
  | (img_path, label_path) :: rest =>
      let img_filename := basename img_path in
      let dest_img_path := join img_out_dir img_filename in
      copy2 img_path dest_img_path;;
      let label_filename := basename label_path in
      let dest_label_path := join label_out_dir label_filename in
      copy2 label_path dest_label_path;;
      print (MsgCopied set_name img_filename label_filename);;
      copy_data rest img_out_dir label_out_dir set_name
  end.

Section Script.
Variable R : RandomSource.
Variable E : Env.

Abbreviation G := (rs_state R).

(** [random.seed(seed)] *)
Definition random_seed (seed : Z) : prog G unit :=
  fun w => (Ok tt, World (fs w) (out w) (rs_seed R seed)).

(** Lines 69-73: what the two globs find, sorted. *)
Definition image_files_of (images_dir : string) : list string :=
  let pattern := join images_dir "*.jpg" in
  let image_files := glob E pattern in
  let image_files := (image_files ++ glob E (join images_dir "*.jpeg"))%list in
  sorted image_files.

(** Lines 90-95, on the interpreter's generator. *)
Definition partition_step (train_ratio : spec_float)
    (valid_pairs : list (string * string))
  : prog G (list (string * string) * list (string * string)) :=
  fun w =>
    match partition R (rng w) train_ratio valid_pairs with
    | Ok (train_pairs, valid_pairs_, g') =>
        (Ok (train_pairs, valid_pairs_), World (fs w) (out w) g')
    | Raise e => (Raise e, w)
    end.

(** [split_and_copy], lines 66-97: seeding, discovery, pairing and the
    partition. *)
Definition select_split (images_dir labels_dir : string)
    (train_ratio : spec_float) (seed : Z)
  : prog G (list (string * string) * list (string * string)) :=
  random_seed seed;;
  let image_files := image_files_of images_dir in
  print (MsgFound images_dir (length image_files));;
  valid_pairs ← pair_loop labels_dir image_files [];
  print (MsgValidCount (length valid_pairs));;
  '(train_pairs, valid_pairs_) ← partition_step train_ratio valid_pairs;
  print (MsgSplitCount (length train_pairs) (length valid_pairs_));;
  mret (train_pairs, valid_pairs_).

(** [split_and_copy], lines 99-129: the output tree and the copies. *)
Definition materialize (images_dir : string)
    (train_pairs valid_pairs_ : list (string * string)) : prog G unit :=
  let base_dir := dirname images_dir in
  print (MsgOutput base_dir);;
  let train_images_dir := join (join base_dir "train") "images" in
  let train_labels_dir := join (join base_dir "train") "labels" in
  let valid_images_dir := join (join base_dir "valid") "images" in
  let valid_labels_dir := join (join base_dir "valid") "labels" in
  create_dir_structure base_dir;;
  print (MsgCopyStart "Train");;
  copy_data train_pairs train_images_dir train_labels_dir "Train";;
  print (MsgCopyStart "Valid");;
  copy_data valid_pairs_ valid_images_dir valid_labels_dir "Valid";;
  print MsgDone.

(** [split_and_copy], lines 58-129 *)
Definition split_and_copy (images_dir labels_dir : string)
    (train_ratio : spec_float) (seed : Z) : prog G unit :=
  '(train_pairs, valid_pairs_) ← select_split images_dir labels_dir train_ratio seed;
  materialize images_dir train_pairs valid_pairs_.

Definition images_dir_missing : string := "指定的 images_dir 不存在：".
Definition labels_dir_missing : string := "指定的 labels_dir 不存在：".

(** [main], lines 131-150, after [parse_args] *)
Definition main (args : Args) : prog G unit :=
  let images_dir := abspath E (arg_images_dir args) in
  let labels_dir := abspath E (arg_labels_dir args) in
  images_ok ← path_isdir images_dir;
  if negb images_ok
  then raise (FileNotFoundError (images_dir_missing +:+ images_dir))
  else
    labels_ok ← path_isdir labels_dir;
    if negb labels_ok
    then raise (FileNotFoundError (labels_dir_missing +:+ labels_dir))
    else
      print MsgParams;;
      print (MsgImagesDir images_dir);;
      print (MsgLabelsDir labels_dir);;
      print (MsgTrainRatio (arg_train_ratio args));;
      print (MsgSeed (arg_seed args));;
      split_and_copy images_dir labels_dir (arg_train_ratio args) (arg_seed args).
End Script.

(** ** Two concrete machines, to run the script on

    Both hold the images [a.jpg], [b.jpg], [c.jpg] and [a.jpeg] and the
    labels [a.txt] and [b.txt]; they list the images directory in
    different orders. *)

Definition demo_names_1 : list string := ["b.jpg"; "a.jpg"; "c.jpg"; "a.jpeg"; ".hidden.jpg"].
Definition demo_names_2 : list string := [".hidden.jpg"; "a.jpeg"; "c.jpg"; "a.jpg"; "b.jpg"].

Definition demo_env (names : list string) : Env :=
  {| listing := fun d => if bool_decide (d = "/data/images") then names else [];
     abspath := fun p => p;
     glob_dirs := fun _ => [] |}.

Definition bytes_of (s : string) : list Byte.byte :=
  Ascii.byte_of_ascii <$> String.list_ascii_of_string s.

Definition demo_fs : gmap string node :=
  list_to_map
    [ ("/", Dir); ("/data", Dir); ("/data/images", Dir); ("/data/labels", Dir);
      ("/data/images/a.jpg", File (bytes_of "image a"));
      ("/data/images/b.jpg", File (bytes_of "image b"));
      ("/data/images/c.jpg", File (bytes_of "image c"));
      ("/data/images/a.jpeg", File (bytes_of "image a again"));
      ("/data/images/.hidden.jpg", File (bytes_of "hidden"));
      ("/data/labels/a.txt", File (bytes_of "0 0.5 0.5 0.1 0.1"));
      ("/data/labels/b.txt", File (bytes_of "1 0.2 0.2 0.3 0.3")) ].

Definition demo_world : world (rs_state lcg) := World demo_fs [] 0.

Definition demo_ratio : spec_float := S754_finite false 7205759403792794 (-53).

(** The same machine after an interrupted run: [train/images] is there,
    the other three output directories are not. *)
Definition demo_world_partial : world (rs_state lcg) :=
  World (<["/data/train/images" := Dir]> (<["/data/train" := Dir]> demo_fs)) [] 0.

(** ** The copies of a run, as a list of (source, destination) *)

Definition copy_ops (pairs : list (string * string)) (img_out_dir label_out_dir : string)
  : list (string * string) :=
  pairs ≫= fun '(img_path, label_path) =>
    [ (img_path, join img_out_dir (basename img_path));
      (label_path, join label_out_dir (basename label_path)) ].

(** What a sequence of successful copies does to the files, when no
    destination is a directory: each copy reads a regular file and
    writes its content at another path. *)
Fixpoint run_ops (ops : list (string * string)) (m : gmap string node)
  : option (gmap string node) :=
  match ops with
  | [] => Some m
  | (src, dst) :: rest =>
      match m !! src with
      | Some (File content) =>
          if bool_decide (src = dst) then None
          else run_ops rest (<[dst := File content]> m)
      | _ => None
      end
  end.

(** A pair as discovery builds it: an image name ending in [g] under the
    images directory, a label name ending in [t] under the labels
    directory. *)
Definition pair_shape (images_dir labels_dir : string) (p : string * string) : Prop :=
  exists name lname,
    p = (join images_dir name, join labels_dir lname) /\
    is_name name = true /\ is_name lname = true /\
    endswith "g" name = true /\ endswith "t" lname = true.

(** The lines [copy_data] prints for a list of pairs. *)
Definition copied_lines (set_name : string) (pairs : list (string * string)) : list line :=
  (fun p => MsgCopied set_name (basename p.1) (basename p.2)) <$> pairs.

(** [m'] is [m] with directories added at paths that were free, none
    longer than [bound]. *)
Definition grows (bound : nat) (m m' : gmap string node) : Prop :=
  forall p, m' !! p = m !! p \/
            (m !! p = None /\ m' !! p = Some Dir /\ (String.length p <= bound)%nat).

(** A copy as [split_and_copy] issues it: an image (name ending in [g])
    from the images directory to [<split>/images], or a label (name
    ending in [t]) from the labels directory to [<split>/labels]. *)
Definition op_shape (images_dir labels_dir : string) (op : string * string) : Prop :=
  exists split name,
    (split = "train" \/ split = "valid") /\ is_name name = true /\
    ((op = (join images_dir name,
            join (join (join (dirname images_dir) split) "images") name) /\
      endswith "g" name = true) \/
     (op = (join labels_dir name,
            join (join (join (dirname images_dir) split) "labels") name) /\
      endswith "t" name = true)).

(** Every name a directory lists is a file name. *)
Definition listing_ok (E : Env) (d : string) : Prop :=
  forall n, n ∈ listing E d -> is_name n = true.

(** All the copies of a run: the training pairs first, then the
    validation pairs. *)
Definition all_ops (images_dir : string) (train_pairs valid_pairs_ : list (string * string))
  : list (string * string) :=
  let base := dirname images_dir in
  (copy_ops train_pairs (join (join base "train") "images") (join (join base "train") "labels")
   ++ copy_ops valid_pairs_ (join (join base "valid") "images") (join (join base "valid") "labels"))%list.

(** No directory stands directly under an output directory. *)
Definition no_subdirs (base_dir : string) (m : gmap string node) : Prop :=
  forall d name, d ∈ output_dirs base_dir -> is_name name = true ->
                 is_dir (m !! join d name) = false.

(** The first machine with a directory where [a.jpg] is to be copied. *)
Definition demo_world_blocked : world (rs_state lcg) :=
  World (<["/data/train/images/a.jpg" := Dir]>
           (<["/data/train/images" := Dir]> (<["/data/train" := Dir]> demo_fs))) [] 0.

(** A machine whose only images are hidden: [.x.jpg] and [.x.jpeg],
    with the label [.x.txt]. *)
Definition demo_names_hidden : list string := [".x.jpg"; ".x.jpeg"].

Definition demo_world_hidden : world (rs_state lcg) :=
  World (list_to_map
           [ ("/", Dir); ("/data", Dir); ("/data/images", Dir); ("/data/labels", Dir);
             ("/data/images/.x.jpg", File (bytes_of "image x"));
             ("/data/images/.x.jpeg", File (bytes_of "image x again"));
             ("/data/labels/.x.txt", File (bytes_of "0 0.5 0.5 0.1 0.1")) ])
        [] 0.

(** A machine whose images directory is named [[ab]]: the globs read
    the name as a character class and look into [a] and [b] instead. *)
Definition demo_env_wild : Env :=
  {| listing := fun d => if bool_decide (d = "/data/[ab]") then ["x.jpg"] else [];
     abspath := fun p => p;
     glob_dirs := fun p => if bool_decide (p = "/data/[ab]/*.jpg")
                           then ["/data/a/x.jpg"; "/data/b/x.jpg"] else [] |}.

Definition demo_world_wild : world (rs_state lcg) :=
  World (list_to_map
           [ ("/", Dir); ("/data", Dir); ("/data/[ab]", Dir); ("/data/a", Dir);
             ("/data/b", Dir); ("/data/labels", Dir);
             ("/data/[ab]/x.jpg", File (bytes_of "image in brackets"));
             ("/data/a/x.jpg", File (bytes_of "image in a"));
             ("/data/b/x.jpg", File (bytes_of "image in b"));
             ("/data/labels/x.txt", File (bytes_of "0 0.5 0.5 0.1 0.1")) ])
        [] 0.

Definition ratio_one : spec_float := S754_finite false 4503599627370496 (-52).

(** ** What a copy needs *)

Definition is_file (n : option node) : bool :=
  match n with
  | Some (File _) => true
  | _ => false
  end.

(** The copy [op] can be carried out on the files [m]: its source is a
    regular file other than its destination, and its destination is not
    a directory but lies in one. *)
Definition copy_ready (m : gmap string node) (op : string * string) : Prop :=
  op.1 <> op.2 /\ is_file (m !! op.1) = true /\
  is_dir (m !! op.2) = false /\ is_dir (m !! dirname op.2) = true.

(** [m'] is [m] but for regular files written where no directory
    stood, each at [d/b] or [d/b/b] for a [d] of [dirs]. *)
Definition writes_under (dirs : list string) (m m' : gmap string node) : Prop :=
  forall p, m' !! p = m !! p \/
            (is_dir (m !! p) = false /\ is_file (m' !! p) = true /\
             exists d b, d ∈ dirs /\ (p = join d b \/ p = join (join d b) b)).

(** * Properties

    ** The path functions on concrete paths *)

Example path_split_ex :
  path_split "/data/images/*.jpg" = ("/data/images", "*.jpg") /\
  path_split "/x.jpg" = ("/", "x.jpg") /\
  path_split "//a" = ("//", "a") /\
  path_split "a//b" = ("a", "b") /\
  path_split "ab" = ("", "ab").
Proof. repeat split; reflexivity. Qed.

Example splitext_ex :
  splitext "a.b.jpg" = ("a.b", ".jpg") /\
  splitext ".jpg" = (".jpg", "") /\
  splitext "..jpg" = ("..jpg", "") /\
  splitext "x..jpg" = ("x.", ".jpg") /\
  splitext "d.e/f" = ("d.e/f", "") /\
  splitext "noext" = ("noext", "").
Proof. repeat split; reflexivity. Qed.

Example join_ex :
  join "/a" "b" = "/a/b" /\ join "/" "b" = "/b" /\ join "" "b" = "b" /\
  join "/a/" "b" = "/a/b" /\ join "/a" "/b" = "/b".
Proof. repeat split; reflexivity. Qed.

Example fnmatch_ex :
  fnmatch "*.jpg" "a.jpg" = true /\ fnmatch "*.jpg" ".jpg" = true /\
  fnmatch "*.jpg" "a.jpeg" = false /\ fnmatch "*.jpg" "a.jpg.txt" = false /\
  fnmatch "*.jpeg" "a.b.jpeg" = true /\ fnmatch "*.jpg" "a.JPG" = false.
Proof. repeat split; reflexivity. Qed.

Example sorted_ex :
  sorted ["/d/b.jpg"; "/d/a.jpeg"; "/d/a.jpg"; "/d/B.jpg"]
  = ["/d/B.jpg"; "/d/a.jpeg"; "/d/a.jpg"; "/d/b.jpg"].
Proof. reflexivity. Qed.

(** ** Slices *)

Lemma slice_to_from {A} (k : Z) (xs : list A) :
  (slice_to k xs ++ slice_from k xs)%list = xs.
Proof. unfold slice_to, slice_from. apply take_drop. Qed.

Lemma slice_lengths {A} (k : Z) (xs : list A) :
  (length (slice_to k xs) + length (slice_from k xs))%nat = length xs.
Proof. rewrite <- length_app, slice_to_from. reflexivity. Qed.

Lemma slice_to_take {A} (k : Z) (xs : list A) :
  0 <= k -> slice_to k xs = take (Z.to_nat k) xs.
Proof.
  intros Hk. unfold slice_to, clamp_index.
  destruct (Z.ltb_spec k 0) as [?|_]; [lia|].
  destruct (Z.le_gt_cases k (Z.of_nat (length xs))) as [Hle|Hgt].
  - rewrite Z.min_l by lia. reflexivity.
  - rewrite Z.min_r by lia. rewrite Nat2Z.id.
    rewrite !take_ge by lia. reflexivity.
Qed.

Lemma slice_from_drop {A} (k : Z) (xs : list A) :
  0 <= k -> slice_from k xs = drop (Z.to_nat k) xs.
Proof.
  intros Hk. unfold slice_from, clamp_index.
  destruct (Z.ltb_spec k 0) as [?|_]; [lia|].
  destruct (Z.le_gt_cases k (Z.of_nat (length xs))) as [Hle|Hgt].
  - rewrite Z.min_l by lia. reflexivity.
  - rewrite Z.min_r by lia. rewrite Nat2Z.id.
    rewrite !drop_ge by lia. reflexivity.
Qed.

Lemma slice_to_length {A} (k : Z) (xs : list A) :
  0 <= k <= Z.of_nat (length xs) -> Z.of_nat (length (slice_to k xs)) = k.
Proof.
  intros Hk. rewrite slice_to_take by lia. rewrite length_take. lia.
Qed.

(** ** The shuffle is a permutation and never raises *)

Lemma insert_head_perm {A} (l : list A) (j : nat) (a b : A) :
  l !! j = Some b -> b :: <[j := a]> l ≡ₚ a :: l.
Proof.
  revert j. induction l as [|c l IH]; intros [|j] Hj; simplify_eq/=.
  - apply Permutation_swap.
  - rewrite (Permutation_swap c b). rewrite (IH j Hj).
    apply Permutation_swap.
Qed.

Lemma insert_insert_perm {A} (l : list A) (i j : nat) (xi xj : A) :
  l !! i = Some xi -> l !! j = Some xj ->
  <[j := xi]> (<[i := xj]> l) ≡ₚ l.
Proof.
  revert i j. induction l as [|c l IH]; intros [|i] [|j] Hi Hj; simplify_eq/=.
  - reflexivity.
  - apply insert_head_perm. assumption.
  - symmetry. rewrite <- (insert_head_perm l i xj xi Hi). reflexivity.
  - f_equiv. apply IH; assumption.
Qed.

Lemma swap_Ok {A} (x : list A) (i j : nat) :
  (i < length x)%nat -> (j < length x)%nat ->
  exists x', swap x i j = Ok x' /\ x' ≡ₚ x.
Proof.
  intros Hi Hj. unfold swap.
  destruct (lookup_lt_is_Some_2 x i Hi) as [xi Hxi].
  destruct (lookup_lt_is_Some_2 x j Hj) as [xj Hxj].
  rewrite Hxi, Hxj. eexists. split; [reflexivity|].
  apply insert_insert_perm; assumption.
Qed.

Lemma shuffle_loop_Ok (R : RandomSource) {A} (i : nat) (g : rs_state R) (x : list A) :
  (i < length x)%nat ->
  exists x' g', shuffle_loop R i g x = Ok (x', g') /\ x' ≡ₚ x.
Proof.
  revert g x. induction i as [|i IH]; intros g x Hi; simpl.
  - exists x, g. split; reflexivity.
  - pose proof (rs_randbelow_lt R g (S i) ltac:(lia)) as Hj.
    destruct (rs_randbelow R g (S i)) as [j g']. simpl in Hj.
    destruct (swap_Ok x (S i) j) as (x1 & Hsw & Hp1); [lia..|].
    rewrite Hsw. simpl.
    destruct (IH g' x1) as (x2 & g2 & Hx2 & Hp2).
    { rewrite (Permutation_length Hp1). lia. }
    exists x2, g2. split; [exact Hx2|]. etrans; eassumption.
Qed.

Lemma shuffle_Ok (R : RandomSource) {A} (g : rs_state R) (x : list A) :
  exists x' g', shuffle R g x = Ok (x', g') /\ x' ≡ₚ x.
Proof.
  unfold shuffle. destruct x as [|a x].
  - exists [], g. split; reflexivity.
  - apply shuffle_loop_Ok. simpl. lia.
Qed.

(** ** Binary64 rounding: a product with a ratio in (0, 1] stays below
    the count it scales *)

Lemma iter_pos_nat {A} (f : A -> A) (p : positive) (x : A) :
  SpecFloat.iter_pos f p x = Nat.iter (Pos.to_nat p) f x.
Proof.
  revert x. induction p as [p IH|p IH|]; intros x.
  - rewrite Pos2Nat.inj_xI. cbn [SpecFloat.iter_pos]. rewrite !IH.
    replace (S (2 * Pos.to_nat p)) with (Pos.to_nat p + (Pos.to_nat p + 1))%nat by lia.
    rewrite !Nat.iter_add. reflexivity.
  - rewrite Pos2Nat.inj_xO. cbn [SpecFloat.iter_pos]. rewrite !IH.
    replace (2 * Pos.to_nat p)%nat with (Pos.to_nat p + Pos.to_nat p)%nat by lia.
    rewrite Nat.iter_add. reflexivity.
  - reflexivity.
Qed.

Lemma shr_1_spec (mrs : shr_record) :
  0 <= shr_m mrs ->
  shr_m (shr_1 mrs) = shr_m mrs / 2 /\
  shr_r (shr_1 mrs) = Z.odd (shr_m mrs) /\
  shr_s (shr_1 mrs) = shr_r mrs || shr_s mrs.
Proof.
  destruct mrs as [m r s]. simpl. intros Hm.
  destruct m as [|[p|p|]|p]; simpl; try lia; repeat split.
  - rewrite Pos2Z.inj_xI. apply Z.div_unique with 1; lia.
  - rewrite Pos2Z.inj_xO. apply Z.div_unique with 0; lia.
Qed.

Lemma shr_inv_step (M : Z) (j : nat) (mrs : shr_record) :
  0 <= M -> shr_inv M j mrs -> shr_inv M (S j) (shr_1 mrs).
Proof.
  intros HM [Hm Hrs].
  assert (Hpow : 0 < 2 ^ Z.of_nat j) by (apply Z.pow_pos_nonneg; lia).
  assert (Hm0 : 0 <= shr_m mrs) by (rewrite Hm; apply Z.div_pos; lia).
  destruct (shr_1_spec mrs Hm0) as (H1 & H2 & H3).
  unfold shr_inv. rewrite Nat2Z.inj_succ, Z.pow_succ_r by lia.
  split.
  - rewrite H1, Hm. rewrite Z.div_div by lia. f_equal. lia.
  - rewrite H2, H3. intros Hor Hmod.
    apply Z.mod_divide in Hmod; [|lia]. destruct Hmod as [q Hq].
    assert (Hdiv : M / 2 ^ Z.of_nat j = 2 * q).
    { subst M. replace (q * (2 * 2 ^ Z.of_nat j)) with ((2 * q) * 2 ^ Z.of_nat j) by lia.
      apply Z.div_mul. lia. }
    apply orb_prop in Hor. destruct Hor as [Hodd|Hor].
    + rewrite Hm, Hdiv in Hodd. rewrite Z.odd_mul in Hodd. discriminate.
    + apply Hrs; [exact Hor|]. subst M.
      replace (q * (2 * 2 ^ Z.of_nat j)) with ((2 * q) * 2 ^ Z.of_nat j) by lia.
      apply Z.mod_mul. lia.
Qed.

Lemma shr_inv_iter (M : Z) (j : nat) :
  0 <= M -> shr_inv M j (Nat.iter j shr_1 (Build_shr_record M false false)).
Proof.
  intros HM. induction j as [|j IH].
  - split; simpl; [rewrite Z.div_1_r; reflexivity|discriminate].
  - simpl. apply shr_inv_step; assumption.
Qed.

Lemma loc_inexact_flags (mrs : shr_record) :
  loc_of_shr_record mrs <> loc_Exact -> shr_r mrs || shr_s mrs = true.
Proof. destruct mrs as [m [|] [|]]; simpl; congruence. Qed.

Lemma shr_fexp_exact_spec (M e : Z) :
  0 <= M ->
  let s := fexp prec64 emax64 (Zdigits2 M + e) - e in
  exists mrs,
    shr_fexp prec64 emax64 M e loc_Exact = (mrs, Z.max e (e + s)) /\
    ((s <= 0 /\ mrs = Build_shr_record M false false) \/
     (0 < s /\ shr_m mrs = M / 2 ^ s /\
      (loc_of_shr_record mrs <> loc_Exact -> M mod 2 ^ s <> 0))).
Proof.
  intros HM s. unfold shr_fexp. fold s. simpl shr_record_of_loc.
  destruct s as [|p|p] eqn:Hs; simpl shr.
  - eexists. split; [f_equal; lia|]. left. split; [lia|reflexivity].
  - eexists. split; [f_equal; lia|]. right. split; [lia|].
    rewrite iter_pos_nat.
    destruct (shr_inv_iter M (Pos.to_nat p) HM) as [H1 H2].
    rewrite positive_nat_Z in H1, H2. split; [exact H1|].
    intros Hloc. apply H2. apply loc_inexact_flags. exact Hloc.
  - eexists. split; [f_equal; lia|]. left. split; [lia|reflexivity].
Qed.

Lemma digits2_pos_bounds (p : positive) :
  2 ^ (Z.pos (digits2_pos p) - 1) <= Z.pos p < 2 ^ Z.pos (digits2_pos p).
Proof.
  induction p as [p IH|p IH|]; cbn [digits2_pos].
  - rewrite Pos2Z.inj_succ, Pos2Z.inj_xI.
    replace (Z.succ (Z.pos (digits2_pos p)) - 1) with (Z.succ (Z.pos (digits2_pos p) - 1)) by lia.
    rewrite !Z.pow_succ_r by lia. lia.
  - rewrite Pos2Z.inj_succ.
    replace (Z.succ (Z.pos (digits2_pos p)) - 1) with (Z.succ (Z.pos (digits2_pos p) - 1)) by lia.
    rewrite !Z.pow_succ_r by lia. rewrite (Pos2Z.inj_xO p). lia.
  - simpl. lia.
Qed.

Lemma dyadic_le_shr (M e n s : Z) :
  0 <= M -> 0 <= n -> 0 < s ->
  dyadic_le M e n -> dyadic_le (M / 2 ^ s) (e + s) n.
Proof.
  intros HM Hn Hs. unfold dyadic_le.
  assert (Hps : 0 < 2 ^ s) by (apply Z.pow_pos_nonneg; lia).
  pose proof (Z.mul_div_le M (2 ^ s) Hps) as Hfloor.
  destruct (Z.leb_spec 0 e) as [He|He].
  - destruct (Z.leb_spec 0 (e + s)) as [_|?]; [|lia]. intros H.
    assert (Hpe : 0 < 2 ^ e) by (apply Z.pow_pos_nonneg; lia).
    rewrite Z.pow_add_r by lia. nia.
  - intros H. destruct (Z.leb_spec 0 (e + s)) as [Hes|Hes].
    + assert (Hpa : 0 < 2 ^ (- e)) by (apply Z.pow_pos_nonneg; lia).
      assert (Hpb : 0 < 2 ^ (e + s)) by (apply Z.pow_pos_nonneg; lia).
      replace s with ((- e) + (e + s)) at 1 by lia.
      rewrite Z.pow_add_r by lia.
      rewrite <- Z.div_div by lia.
      assert (Hq : M / 2 ^ (- e) <= n).
      { apply Z.div_le_upper_bound; lia. }
      assert (0 <= M / 2 ^ (- e)) by (apply Z.div_pos; lia).
      pose proof (Z.mul_div_le (M / 2 ^ (- e)) (2 ^ (e + s)) Hpb). lia.
    + assert (Hpa : 0 < 2 ^ (- (e + s))) by (apply Z.pow_pos_nonneg; lia).
      replace (- e) with (- (e + s) + s) in H by lia.
      rewrite Z.pow_add_r in H by lia.
      apply Z.div_le_upper_bound; lia.
Qed.

Lemma dyadic_le_round_up (M e n s : Z) :
  0 <= M -> 0 <= n < 2 ^ 53 -> 0 < s ->
  dyadic_le M e n ->
  M mod 2 ^ s <> 0 ->
  (0 <= e + s -> 2 ^ 52 <= M / 2 ^ s) ->
  dyadic_le (M / 2 ^ s + 1) (e + s) n.
Proof.
  intros HM Hn Hs Hle Hmod Hdig. unfold dyadic_le in *.
  assert (Hps : 0 < 2 ^ s) by (apply Z.pow_pos_nonneg; lia).
  pose proof (Z.div_mod M (2 ^ s) ltac:(lia)) as Hdm.
  pose proof (Z.mod_pos_bound M (2 ^ s) Hps) as Hmb.
  set (q := M / 2 ^ s) in *. set (r := M mod 2 ^ s) in *.
  destruct (Z.leb_spec 0 (e + s)) as [Hes|Hes].
  - specialize (Hdig Hes).
    assert (H2s : 2 <= 2 ^ s).
    { change 2 with (2 ^ 1) at 1. apply Z.pow_le_mono_r; lia. }
    destruct (Z.leb_spec 0 e) as [He|He].
    + assert (Hpe : 0 < 2 ^ e) by (apply Z.pow_pos_nonneg; lia).
      change (2 ^ 53) with (2 ^ 52 * 2) in Hn. nia.
    + assert (Hpa : 0 < 2 ^ (- e)) by (apply Z.pow_pos_nonneg; lia).
      assert (Hpb : 0 < 2 ^ (e + s)) by (apply Z.pow_pos_nonneg; lia).
      assert (Hsplit : 2 ^ s = 2 ^ (e + s) * 2 ^ (- e)).
      { rewrite <- Z.pow_add_r by lia. f_equal. lia. }
      assert (Hlt : 2 ^ 52 * 2 ^ (e + s) * 2 ^ (- e) < 2 ^ 53 * 2 ^ (- e)).
      { nia. }
      assert (Hes0 : e + s = 0).
      { destruct (Z.eq_dec (e + s) 0) as [|Hne]; [assumption|].
        assert (2 <= 2 ^ (e + s)).
        { change 2 with (2 ^ 1) at 1. apply Z.pow_le_mono_r; lia. }
        change (2 ^ 53) with (2 ^ 52 * 2) in Hlt. nia. }
      rewrite Hes0 in *. rewrite Z.pow_0_r in *.
      assert (2 ^ s = 2 ^ (- e)) by lia.
      nia.
  - destruct (Z.leb_spec 0 e) as [He|He]; [lia|].
    assert (Hpa : 0 < 2 ^ (- (e + s))) by (apply Z.pow_pos_nonneg; lia).
    replace (- e) with (- (e + s) + s) in Hle by lia.
    rewrite Z.pow_add_r in Hle by lia.
    nia.
Qed.

Lemma fexp64_unfold (x : Z) : fexp prec64 emax64 x = Z.max (x - 53) (-1074).
Proof. reflexivity. Qed.

Lemma round_nearest_even_le (M e n s : Z) (mrs : shr_record) :
  0 <= M -> 0 <= n < 2 ^ 53 -> 0 < s ->
  dyadic_le M e n ->
  shr_m mrs = M / 2 ^ s ->
  (loc_of_shr_record mrs <> loc_Exact -> M mod 2 ^ s <> 0) ->
  (0 <= e + s -> 2 ^ 52 <= M / 2 ^ s) ->
  let m1 := round_nearest_even (shr_m mrs) (loc_of_shr_record mrs) in
  0 <= m1 /\ dyadic_le m1 (e + s) n.
Proof.
  intros HM Hn Hs Hle Hm Hloc Hdig m1. subst m1.
  assert (Hq : 0 <= M / 2 ^ s).
  { apply Z.div_pos; [lia|]. apply Z.pow_pos_nonneg; lia. }
  pose proof (dyadic_le_shr M e n s HM ltac:(lia) Hs Hle) as Hdown.
  assert (Hup : loc_of_shr_record mrs <> loc_Exact ->
                dyadic_le (M / 2 ^ s + 1) (e + s) n).
  { intros Hne. apply dyadic_le_round_up; auto. }
  rewrite Hm.
  destruct (loc_of_shr_record mrs) as [|[| |]]; simpl.
  - split; assumption.
  - destruct (Z.even (M / 2 ^ s)).
    + split; assumption.
    + split; [lia|]. apply Hup. discriminate.
  - split; assumption.
  - split; [lia|]. apply Hup. discriminate.
Qed.

Lemma int_of_float_floor (m : positive) (e : Z) :
  exists k, int_of_float (S754_finite false m e) = Ok k /\
            is_floor_of k (S754_finite false m e).
Proof.
  simpl. eexists. split; [reflexivity|].
  destruct (Z.leb_spec 0 e) as [He|He]; [reflexivity|].
  assert (Hp : 0 < 2 ^ (- e)) by (apply Z.pow_pos_nonneg; lia).
  pose proof (Z.div_mod (Z.pos m) (2 ^ (- e)) ltac:(lia)) as Hdm.
  pose proof (Z.mod_pos_bound (Z.pos m) (2 ^ (- e)) Hp) as Hmb.
  nia.
Qed.

Lemma dyadic_le_trunc (m : positive) (e n : Z) :
  0 <= n -> dyadic_le (Z.pos m) e n ->
  exists k, int_of_float (S754_finite false m e) = Ok k /\ 0 <= k <= n /\
            is_floor_of k (S754_finite false m e).
Proof.
  intros Hn Hle. unfold dyadic_le in Hle.
  destruct (int_of_float_floor m e) as (k & Hk & Hfl).
  exists k. split; [exact Hk|]. split; [|exact Hfl].
  simpl in Hk. injection Hk as <-.
  destruct (Z.leb_spec 0 e) as [He|He].
  - assert (0 < 2 ^ e) by (apply Z.pow_pos_nonneg; lia). nia.
  - assert (0 < 2 ^ (- e)) by (apply Z.pow_pos_nonneg; lia). split.
    + apply Z.div_pos; lia.
    + apply Z.div_le_upper_bound; lia.
Qed.

Lemma dyadic_le_exponent (m : positive) (e n : Z) :
  0 <= n < 2 ^ 53 -> dyadic_le (Z.pos m) e n -> e <= 971.
Proof.
  intros Hn Hle. unfold dyadic_le in Hle.
  destruct (Z.leb_spec 0 e) as [He|He]; [|lia].
  destruct (Z.le_gt_cases e 52) as [?|Hbig]; [lia|].
  assert (2 ^ 53 <= 2 ^ e) by (apply Z.pow_le_mono_r; lia).
  nia.
Qed.

(** Rounding a positive dyadic number that is at most [n < 2^53] gives a
    double whose integer part is still at most [n]. *)
Lemma binary_round_aux_le (M : positive) (e n : Z) :
  0 <= n < 2 ^ 53 ->
  dyadic_le (Z.pos M) e n ->
  exists k,
    int_of_float (binary_round_aux prec64 emax64 false (Z.pos M) e loc_Exact) = Ok k /\
    0 <= k <= n /\
    is_floor_of k (binary_round_aux prec64 emax64 false (Z.pos M) e loc_Exact).
Proof.
  intros Hn Hle. unfold binary_round_aux.
  destruct (shr_fexp_exact_spec (Z.pos M) e ltac:(lia)) as (mrs & Hshr & Hcase).
  rewrite Hshr. clear Hshr.
  set (s := fexp prec64 emax64 (Zdigits2 (Z.pos M) + e) - e) in *.
  set (e1 := Z.max e (e + s)).
  set (m1 := round_nearest_even (shr_m mrs) (loc_of_shr_record mrs)).
  assert (H1 : 0 <= m1 /\ dyadic_le m1 e1 n).
  { destruct Hcase as [[Hs ->]|(Hs & Hm & Hloc)].
    - subst m1 e1. simpl. rewrite Z.max_l by lia. split; [lia|assumption].
    - subst m1 e1. rewrite Z.max_r by lia.
      apply (round_nearest_even_le (Z.pos M)); auto; [lia|].
      intros Hes. subst s. rewrite fexp64_unfold in *. simpl Zdigits2 in *.
      pose proof (digits2_pos_bounds M) as [Hlo _].
      set (d := Z.pos (digits2_pos M)) in *.
      assert (Hs' : Z.max (d + e - 53) (-1074) - e = d - 53) by lia.
      rewrite Hs' in *.
      apply Z.div_le_lower_bound; [apply Z.pow_pos_nonneg; lia|].
      rewrite <- Z.pow_add_r by lia.
      replace (d - 53 + 52) with (d - 1) by lia. exact Hlo. }
  destruct H1 as [Hm1 Hle1]. clearbody m1 e1. clear Hcase.
  destruct (shr_fexp_exact_spec m1 e1 Hm1) as (mrs2 & Hshr2 & Hcase2).
  rewrite Hshr2. clear Hshr2.
  set (s2 := fexp prec64 emax64 (Zdigits2 m1 + e1) - e1) in *.
  set (e2 := Z.max e1 (e1 + s2)).
  assert (H2 : 0 <= shr_m mrs2 /\ dyadic_le (shr_m mrs2) e2 n).
  { destruct Hcase2 as [[Hs ->]|(Hs & Hm & _)].
    - subst e2. simpl. rewrite Z.max_l by lia. split; assumption.
    - subst e2. rewrite Z.max_r by lia. rewrite Hm. split.
      + apply Z.div_pos; [lia|]. apply Z.pow_pos_nonneg; lia.
      + apply dyadic_le_shr; auto; lia. }
  destruct H2 as [Hm2 Hle2]. clearbody e2.
  destruct (shr_m mrs2) as [|m2|m2]; [| |lia].
  - exists 0. split; [reflexivity|]. split; [lia|reflexivity].
  - pose proof (dyadic_le_exponent m2 e2 n Hn Hle2) as Hexp.
    change (emax64 - prec64) with 971.
    destruct (Z.leb_spec e2 971) as [_|?]; [|lia].
    apply dyadic_le_trunc; [lia|assumption].
Qed.

Lemma binary_round_aux_exact (M : positive) (e : Z) :
  fexp prec64 emax64 (Zdigits2 (Z.pos M) + e) - e <= 0 ->
  e <= 971 ->
  binary_round_aux prec64 emax64 false (Z.pos M) e loc_Exact = S754_finite false M e.
Proof.
  intros Hs He. unfold binary_round_aux.
  destruct (shr_fexp_exact_spec (Z.pos M) e ltac:(lia)) as (mrs & Hshr & Hcase).
  destruct Hcase as [[_ ->]|[? _]]; [|lia].
  rewrite Z.max_l in Hshr by lia.
  rewrite Hshr. simpl round_nearest_even. rewrite Hshr. simpl shr_m.
  change (emax64 - prec64) with 971.
  destruct (Z.leb_spec e 971); [reflexivity|lia].
Qed.

Lemma iter_xO_spec (k : nat) (p : positive) :
  Z.pos (Nat.iter k xO p) = Z.pos p * 2 ^ Z.of_nat k /\
  Z.pos (digits2_pos (Nat.iter k xO p)) = Z.pos (digits2_pos p) + Z.of_nat k.
Proof.
  induction k as [|k [IH1 IH2]].
  - simpl. split; lia.
  - rewrite Nat2Z.inj_succ, Z.pow_succ_r by lia.
    change (Nat.iter (S k) xO p) with (xO (Nat.iter k xO p)).
    cbn [digits2_pos]. split.
    + rewrite Pos2Z.inj_xO, IH1. lia.
    + rewrite Pos2Z.inj_succ, IH2. lia.
Qed.

(** An int below [2^53] converts to a double of the same value. *)
Lemma float_of_int_small (p : positive) :
  Z.pos p < 2 ^ 53 ->
  exists mz ez,
    float_of_int (Z.pos p) = Ok (S754_finite false mz ez) /\
    ez <= 0 /\ Z.pos mz = Z.pos p * 2 ^ (- ez).
Proof.
  intros Hp. unfold float_of_int, binary_normalize, binary_round.
  rewrite fexp64_unfold.
  pose proof (digits2_pos_bounds p) as [Hlo Hhi].
  set (d := Z.pos (digits2_pos p)) in *.
  assert (Hd : d <= 53).
  { destruct (Z.le_gt_cases d 53) as [?|Hgt]; [assumption|].
    assert (2 ^ 53 <= 2 ^ (d - 1)) by (apply Z.pow_le_mono_r; lia). lia. }
  assert (Hd0 : 0 < d) by (subst d; lia).
  replace (Z.max (d + 0 - 53) (-1074)) with (d - 53) by lia.
  unfold shl_align.
  destruct (d - 53 - 0) as [|q|q] eqn:Hq; try lia.
  - rewrite binary_round_aux_exact.
    + exists p, 0. split; [reflexivity|]. split; [lia|]. simpl. lia.
    + rewrite fexp64_unfold. simpl Zdigits2. fold d. lia.
    + lia.
  - rewrite Pos2Nat.inj_iter.
    destruct (iter_xO_spec (Pos.to_nat q) p) as [Hv Hdig].
    rewrite positive_nat_Z in Hv, Hdig. fold d in Hdig.
    change (nat_rect (fun _ => positive) p (fun _ => xO) (Pos.to_nat q))
      with (Nat.iter (Pos.to_nat q) xO p).
    set (mz := Nat.iter (Pos.to_nat q) xO p) in *.
    rewrite binary_round_aux_exact.
    + exists mz, (d - 53). split; [reflexivity|]. split; [lia|].
      rewrite Hv. f_equal. f_equal. lia.
    + rewrite fexp64_unfold. simpl Zdigits2. rewrite Hdig. lia.
    + lia.
Qed.

Lemma in_unit_interval_inv (r : spec_float) :
  in_unit_interval r = true ->
  exists m e, r = S754_finite false m e /\
    ((e = 0 /\ m = 1%positive) \/ (e < 0 /\ Z.pos m <= 2 ^ (- e))).
Proof.
  destruct r as [| | |[|] m e]; simpl; try discriminate.
  intros H. exists m, e. split; [reflexivity|].
  destruct (Z.leb_spec 0 e) as [He|He].
  - apply Z.leb_le in H. left.
    assert (0 < 2 ^ e) by (apply Z.pow_pos_nonneg; lia).
    assert (e = 0).
    { destruct (Z.eq_dec e 0) as [|Hne]; [assumption|].
      assert (2 ^ 1 <= 2 ^ e) by (apply Z.pow_le_mono_r; lia).
      change (2 ^ 1) with 2 in *. nia. }
    split; [assumption|]. subst e. simpl in H. lia.
  - apply Z.leb_le in H. right. lia.
Qed.

(** [int(total * train_ratio)] for a ratio in (0, 1] and a count that a
    double holds exactly: no exception, and a result in [0, total]. *)
Lemma train_count_of_bounds (total : nat) (train_ratio : spec_float) :
  Z.of_nat total < 2 ^ 53 ->
  in_unit_interval train_ratio = true ->
  exists ft k,
    float_of_int (Z.of_nat total) = Ok ft /\
    float_is_nat (Z.of_nat total) ft /\
    int_of_float (float_mul ft train_ratio) = Ok k /\
    train_count_of total train_ratio = Ok k /\
    0 <= k <= Z.of_nat total /\
    is_floor_of k (float_mul ft train_ratio).
Proof.
  intros Htot Hr.
  destruct (in_unit_interval_inv _ Hr) as (m & e & -> & Hme).
  unfold train_count_of.
  destruct (Z.of_nat total) as [|p|p] eqn:Hn; [| |lia].
  - exists (S754_zero false), 0. repeat split; lia.
  - destruct (float_of_int_small p Htot) as (mz & ez & Hf & Hez & Hmz).
    rewrite Hf. cbn [mbind result_bind]. unfold float_mul. cbn [SFmul xorb].
    assert (Hd : dyadic_le (Z.pos (mz * m)) (ez + e) (Z.pos p)); cycle 1.
    { destruct (binary_round_aux_le (mz * m) (ez + e) (Z.pos p) ltac:(lia) Hd)
        as (k & Hk & Hb & Hfl).
      exists (S754_finite false mz ez), k. simpl float_is_nat. tauto. }
    unfold dyadic_le. rewrite Pos2Z.inj_mul, Hmz.
    assert (Hpz : 0 < 2 ^ (- ez)) by (apply Z.pow_pos_nonneg; lia).
    destruct Hme as [[-> ->]|[He Hm]].
    + rewrite Z.add_0_r. destruct (Z.leb_spec 0 ez) as [?|?].
      * assert (ez = 0) by lia. subst ez. simpl. lia.
      * lia.
    + destruct (Z.leb_spec 0 (ez + e)) as [?|_]; [lia|].
      replace (- (ez + e)) with (- ez + - e) by lia.
      rewrite Z.pow_add_r by lia.
      assert (0 < 2 ^ (- e)) by (apply Z.pow_pos_nonneg; lia).
      nia.
Qed.

(** ** The partition step *)

Lemma partition_unfold (R : RandomSource) {A} (g : rs_state R)
    (ratio : spec_float) (pairs shuffled : list A) (k : Z) (g' : rs_state R) :
  train_count_of (length pairs) ratio = Ok k ->
  shuffle R g pairs = Ok (shuffled, g') ->
  partition R g ratio pairs = Ok (slice_to k shuffled, slice_from k shuffled, g').
Proof. intros Hk Hs. unfold partition. rewrite Hk. simpl. rewrite Hs. reflexivity. Qed.

Lemma train_count_of_finite (total : nat) (ratio ft : spec_float) :
  float_of_int (Z.of_nat total) = Ok ft ->
  is_finite (float_mul ft ratio) = true ->
  exists k, train_count_of total ratio = Ok k.
Proof.
  intros Hft Hfin. unfold train_count_of. rewrite Hft. simpl.
  destruct (float_mul ft ratio); simpl in *; try discriminate; eauto.
Qed.








(** The product is the rounded one: ten pairs at the double nearest to
    0.7 give seven training pairs, one hundred at the double nearest to
    0.29 give twenty-eight. *)
Example train_count_of_examples :
  train_count_of 10 (S754_finite false 6305039478318694 (-53)) = Ok 7 /\
  train_count_of 100 (S754_finite false 5224175567749775 (-54)) = Ok 28 /\
  train_count_of 2 (S754_finite false 7205759403792794 (-53)) = Ok 1 /\
  train_count_of 5 (S754_finite false 4503599627370496 (-52)) = Ok 5 /\
  train_count_of 5 (S754_zero false) = Ok 0.
Proof. repeat split; reflexivity. Qed.

(** The floor is that of the rounded product: the double nearest to 0.7
    is below 0.7, its exact product with ten is below seven, and the
    binary64 product is seven. *)
Remark rounded_product_can_reach_the_next_integer :
  train_count_of 10 (S754_finite false 6305039478318694 (-53)) = Ok 7 /\
  (10 * 6305039478318694) / 2 ^ 53 = 6.
Proof. split; reflexivity. Qed.

(** ** Counting occurrences *)

Lemma count_nil {A} `{EqDecision A} (x : A) : count x [] = 0%nat.
Proof. reflexivity. Qed.

Lemma count_cons {A} `{EqDecision A} (x y : A) (l : list A) :
  count x (y :: l) = ((if decide (y = x) then 1 else 0) + count x l)%nat.
Proof. unfold count. rewrite filter_cons. destruct (decide (y = x)); reflexivity. Qed.

Lemma count_zero_iff {A} `{EqDecision A} (x : A) (l : list A) :
  count x l = 0%nat <-> x ∉ l.
Proof.
  induction l as [|y l IH]; [rewrite count_nil; split; [intros _; apply not_elem_of_nil|reflexivity]|].
  rewrite count_cons, not_elem_of_cons. destruct (decide (y = x)) as [->|Hne].
  - split; [discriminate|]. intros [Hxx _]. congruence.
  - simpl. rewrite IH. split; [intros Hx; split; [congruence|exact Hx]|tauto].
Qed.

Lemma count_NoDup {A} `{EqDecision A} (x : A) (l : list A) :
  NoDup l -> x ∈ l -> count x l = 1%nat.
Proof.
  induction 1 as [|y l Hy Hnd IH]; intros Hx.
  - apply elem_of_nil in Hx. contradiction.
  - rewrite count_cons. destruct (decide (y = x)) as [->|Hne].
    + apply count_zero_iff in Hy. rewrite Hy. reflexivity.
    + apply elem_of_cons in Hx as [->|Hx]; [congruence|]. simpl. auto.
Qed.

Lemma count_filter {A} `{EqDecision A} (P : A -> Prop) `{forall a, Decision (P a)}
    (x : A) (l : list A) :
  count x (filter P l) = if decide (P x) then count x l else 0%nat.
Proof.
  induction l as [|y l IH].
  - destruct (decide (P x)); reflexivity.
  - rewrite filter_cons. destruct (decide (P y)) as [Hy|Hy].
    + rewrite !count_cons, IH. destruct (decide (P x)) as [Hx|Hx]; [reflexivity|].
      destruct (decide (y = x)) as [->|?]; [contradiction|reflexivity].
    + rewrite IH, count_cons. destruct (decide (P x)) as [Hx|Hx]; [|reflexivity].
      destruct (decide (y = x)) as [->|?]; [contradiction|reflexivity].
Qed.

Lemma count_fmap_inj {A B} `{EqDecision A} `{EqDecision B} (f : A -> B)
    (x : A) (l : list A) :
  Inj (=) (=) f -> count (f x) (f <$> l) = count x l.
Proof.
  intros Hinj. induction l as [|y l IH]; [reflexivity|].
  rewrite fmap_cons, !count_cons, IH.
  destruct (decide (f y = f x)) as [Heq|Hne], (decide (y = x)) as [Heq'|Hne'];
    try reflexivity.
  - apply Hinj in Heq. contradiction.
  - subst. contradiction.
Qed.

(** ** Pairing *)

#[global] Instance pair_of_inj (labels_dir : string) : Inj (=) (=) (pair_of labels_dir).
Proof. intros x y [= ? _]. assumption. Qed.

(** The loop never raises, leaves the files alone, appends one pair per
    image with a label and prints one warning per image without. *)
Lemma pair_loop_spec {G} (labels_dir : string) (image_files : list string)
    (valid_pairs : list (string * string)) (w : world G) :
  pair_loop labels_dir image_files valid_pairs w =
    (Ok (valid_pairs ++
         (pair_of labels_dir <$>
            filter (fun i => has_label (fs w) labels_dir i = true) image_files))%list,
     World (fs w)
       (out w ++ (warning_of labels_dir <$>
            filter (fun i => has_label (fs w) labels_dir i = false) image_files))%list
       (rng w)).
Proof.
  revert valid_pairs w.
  induction image_files as [|img rest IH]; intros valid_pairs w.
  - simpl. unfold mret, prog_ret. rewrite !app_nil_r. destruct w; reflexivity.
  - cbn [pair_loop]. unfold mbind, prog_bind, path_exists.
    rewrite !filter_cons. fold (has_label (fs w) labels_dir img).
    destruct (has_label (fs w) labels_dir img) eqn:Hl.
    + rewrite IH. destruct (decide (true = true)); [|congruence].
      destruct (decide (true = false)); [congruence|].
      rewrite fmap_cons, <- app_assoc. reflexivity.
    + unfold print. rewrite IH. simpl fs. simpl out. simpl rng.
      destruct (decide (false = true)); [congruence|].
      destruct (decide (false = false)); [|congruence].
      rewrite fmap_cons, <- app_assoc. reflexivity.
Qed.

Lemma warning_of_inj (labels_dir : string) : Inj (=) (=) (warning_of labels_dir).
Proof. intros x y [= ? _]. assumption. Qed.

Lemma is_some_node_true (n : option node) : is_some_node n = true <-> is_Some n.
Proof.
  destruct n; simpl; split; done.
Qed.

Lemma is_some_node_false (n : option node) : is_some_node n = false <-> n = None.
Proof. destruct n; simpl; split; done. Qed.

(** C4: the pairing loop never raises and leaves the files alone; an
    image whose label is missing gets no pair and one warning per
    enumeration, naming the image and the missing label path; an image
    whose label exists gets one pair (image_path, label_path) per
    enumeration and no warning. An image enumerated once counts once. *)
Theorem pairing_gives_one_pair_or_one_warning {G} (labels_dir : string)
    (image_files : list string) (w : world G) :
  exists valid_pairs warnings,
    pair_loop labels_dir image_files [] w
      = (Ok valid_pairs, World (fs w) (out w ++ warnings)%list (rng w)) /\
    forall img_path,
      let label_path := label_path_of labels_dir img_path in
      (fs w !! label_path = None ->
         (forall l, (img_path, l) ∉ valid_pairs) /\
         count (MsgNoLabel img_path label_path) warnings = count img_path image_files) /\
      (is_Some (fs w !! label_path) ->
         count (img_path, label_path) valid_pairs = count img_path image_files /\
         (forall l, (img_path, l) ∈ valid_pairs -> l = label_path) /\
         (forall l, MsgNoLabel img_path l ∉ warnings)) /\
      (NoDup image_files -> img_path ∈ image_files ->
         count img_path image_files = 1%nat).
Proof.
  eexists _, _. split; [rewrite pair_loop_spec; reflexivity|].
  intros img_path label_path. split; [|split].
  - intros Hnone. apply is_some_node_false in Hnone. split.
    + intros l Hin. simpl in Hin.
      apply list_elem_of_fmap in Hin as (i & [= -> ->] & Hi).
      apply list_elem_of_filter in Hi as [Hi _].
      unfold has_label in Hi. fold label_path in Hi. congruence.
    + change (MsgNoLabel img_path label_path) with (warning_of labels_dir img_path).
      rewrite (count_fmap_inj _ _ _ (warning_of_inj labels_dir)).
      rewrite count_filter. unfold has_label at 1. fold label_path.
      destruct (decide (is_some_node (fs w !! label_path) = false)); [reflexivity|congruence].
  - intros Hsome. apply is_some_node_true in Hsome. split; [|split].
    + simpl. change (img_path, label_path) with (pair_of labels_dir img_path).
      rewrite (count_fmap_inj _ _ _ (pair_of_inj labels_dir)).
      rewrite count_filter. unfold has_label at 1. fold label_path.
      destruct (decide (is_some_node (fs w !! label_path) = true)); [reflexivity|congruence].
    + intros l Hin. simpl in Hin.
      apply list_elem_of_fmap in Hin as (i & [= -> ->] & _). reflexivity.
    + intros l Hin.
      apply list_elem_of_fmap in Hin as (i & [= -> ->] & Hi).
      apply list_elem_of_filter in Hi as [Hi _].
      unfold has_label in Hi. fold label_path in Hi. congruence.
  - intros Hnd Hin. apply count_NoDup; assumption.
Qed.

(** ** Discovery: sorting *)

Lemma StronglySorted_filter {A} (Rel : relation A) (P : A -> Prop)
    `{forall a, Decision (P a)} (l : list A) :
  StronglySorted Rel l -> StronglySorted Rel (filter P l).
Proof.
  induction 1 as [|x l Hs IH Hall]; [constructor|].
  rewrite filter_cons. destruct (decide (P x)); [|exact IH].
  constructor; [exact IH|].
  apply Forall_forall. intros y Hy. apply list_elem_of_filter in Hy as [_ Hy].
  rewrite Forall_forall in Hall. auto.
Qed.

Lemma sorted_Sorted (l : list string) : Sorted String.le (sorted l).
Proof. apply Sorted_merge_sort. apply _. Qed.

Lemma sorted_Permutation (l : list string) : sorted l ≡ₚ l.
Proof. apply merge_sort_Permutation. Qed.

(** Sorting forgets the order of its input. *)
Lemma sorted_perm_eq (l1 l2 : list string) : l1 ≡ₚ l2 -> sorted l1 = sorted l2.
Proof.
  intros Hp. apply (Sorted_unique String.le); try apply sorted_Sorted.
  rewrite !sorted_Permutation. exact Hp.
Qed.

Lemma fst_pair_of (labels_dir : string) (l : list string) :
  (pair_of labels_dir <$> l).*1 = l.
Proof.
  induction l as [|x l IH]; [reflexivity|]. rewrite !fmap_cons, IH. reflexivity.
Qed.

(** C8: the image paths are sorted, ascending by full path, before the
    pairing loop runs; the sorted list is the same for every order in
    which the two globs enumerate their matches; and the pairs the loop
    hands on keep that order. *)
Theorem discovery_sorts_before_pairing {G} (E : Env) (images_dir labels_dir : string)
    (w : world G) :
  let found := (glob E (join images_dir "*.jpg") ++ glob E (join images_dir "*.jpeg"))%list in
  let image_files := image_files_of E images_dir in
  Sorted String.le image_files /\
  image_files ≡ₚ found /\
  (forall E' : Env,
     (glob E' (join images_dir "*.jpg") ++ glob E' (join images_dir "*.jpeg"))%list ≡ₚ found ->
     image_files_of E' images_dir = image_files) /\
  exists valid_pairs w',
    pair_loop labels_dir image_files [] w = (Ok valid_pairs, w') /\
    valid_pairs.*1 `sublist_of` image_files /\
    StronglySorted String.le (valid_pairs.*1).
Proof.
  intros found image_files. split; [apply sorted_Sorted|].
  split; [apply sorted_Permutation|]. split.
  - intros E' Hp. apply sorted_perm_eq. exact Hp.
  - eexists _, _. split; [apply pair_loop_spec|].
    simpl. rewrite fst_pair_of. split; [apply sublist_filter|].
    apply StronglySorted_filter. apply Sorted_StronglySorted; [apply _|].
    apply sorted_Sorted.
Qed.

(** ** Seeding, discovery and partition as one step *)

Section SelectSplit.
Variable R : RandomSource.
Variable E : Env.

(** What [select_split] returns and leaves behind, spelled out. *)
Lemma select_split_spec (images_dir labels_dir : string)
    (train_ratio : spec_float) (seed : Z) (w : world (rs_state R)) :
  let image_files := image_files_of E images_dir in
  let valid_pairs :=
    pair_of labels_dir <$>
      filter (fun i => has_label (fs w) labels_dir i = true) image_files in
  let out1 :=
    (out w ++ [MsgFound images_dir (length image_files)] ++
     (warning_of labels_dir <$>
        filter (fun i => has_label (fs w) labels_dir i = false) image_files) ++
     [MsgValidCount (length valid_pairs)])%list in
  select_split R E images_dir labels_dir train_ratio seed w =
    match partition R (rs_seed R seed) train_ratio valid_pairs with
    | Ok (train_pairs, valid_pairs_, g') =>
        (Ok (train_pairs, valid_pairs_),
         World (fs w)
           (out1 ++ [MsgSplitCount (length train_pairs) (length valid_pairs_)])%list g')
    | Raise e => (Raise e, World (fs w) out1 (rs_seed R seed))
    end.
Proof.
  intros image_files valid_pairs out1.
  unfold select_split. fold image_files.
  unfold mbind, prog_bind, random_seed, print. cbn [fs out rng].
  rewrite pair_loop_spec. cbn [fs out rng app]. fold valid_pairs.
  unfold partition_step. cbn [fs out rng].
  subst out1. rewrite <- !app_assoc. cbn [app].
  destruct (partition R (rs_seed R seed) train_ratio valid_pairs)
    as [[[train_pairs valid_pairs_] g']|e]; reflexivity.
Qed.
End SelectSplit.



(** ** Path algebra *)

Lemma app_cons (a : ascii) (s t : string) : String a s +:+ t = String a (s +:+ t).
Proof. reflexivity. Qed.

Lemma app_empty_l (t : string) : "" +:+ t = t.
Proof. reflexivity. Qed.

Lemma app_empty_r (s : string) : s +:+ "" = s.
Proof. induction s as [|a s IH]; [reflexivity|]. rewrite app_cons, IH. reflexivity. Qed.

Lemma app_assoc_str (s t u : string) : (s +:+ t) +:+ u = s +:+ (t +:+ u).
Proof. induction s as [|a s IH]; [reflexivity|]. rewrite !app_cons, IH. reflexivity. Qed.

Lemma contains_cons (c a : ascii) (s : string) :
  contains c (String a s) = bool_decide (a = c) || contains c s.
Proof. reflexivity. Qed.

Lemma contains_app (c : ascii) (s t : string) :
  contains c (s +:+ t) = contains c s || contains c t.
Proof.
  induction s as [|a s IH]; [reflexivity|].
  rewrite app_cons, !contains_cons, IH, orb_assoc. reflexivity.
Qed.

Lemma cut_no_sep (t : string) :
  contains sep t = false -> cut_after_last_sep t = ("", t).
Proof. destruct t as [|a t]; [reflexivity|]. intros H. cbn [cut_after_last_sep]. rewrite H. reflexivity. Qed.

Lemma endswith_cons (c a b : ascii) (s : string) :
  endswith c (String a (String b s)) = endswith c (String b s).
Proof. reflexivity. Qed.

Lemma endswith_contains (c : ascii) (s : string) :
  endswith c s = true -> contains c s = true.
Proof.
  induction s as [|a s IH]; [discriminate|].
  destruct s as [|b s].
  - cbn. intros ->. reflexivity.
  - rewrite endswith_cons. intros H. rewrite contains_cons, (IH H).
    apply orb_true_r.
Qed.

Lemma cut_app (h t : string) :
  contains sep t = false ->
  h = "" \/ endswith sep h = true ->
  cut_after_last_sep (h +:+ t) = (h, t).
Proof.
  intros Ht. induction h as [|a h IH]; intros Hh.
  - apply cut_no_sep. exact Ht.
  - destruct Hh as [Hh|Hh]; [discriminate|].
    rewrite app_cons. cbn [cut_after_last_sep].
    replace (contains sep (String a (h +:+ t))) with true.
    2:{ symmetry. change (String a (h +:+ t)) with (String a h +:+ t).
        rewrite contains_app, (endswith_contains _ _ Hh). reflexivity. }
    destruct h as [|b h].
    + rewrite app_empty_l, (cut_no_sep t Ht). reflexivity.
    + rewrite IH; [reflexivity|]. right. exact Hh.
Qed.

Lemma endswith_app_cons (c a : ascii) (s t : string) :
  endswith c (s +:+ String a t) = endswith c (String a t).
Proof.
  induction s as [|b s IH]; [reflexivity|].
  rewrite app_cons. destruct s as [|b' s].
  - rewrite app_empty_l. apply endswith_cons.
  - rewrite app_cons in *. rewrite endswith_cons. exact IH.
Qed.

Lemma rstrip_cons (c a : ascii) (s : string) :
  rstrip c (String a s) =
    if bool_decide (a = c) && bool_decide (rstrip c s = "") then ""
    else String a (rstrip c s).
Proof. reflexivity. Qed.

Lemma rstrip_app_sep (d : string) :
  endswith sep d = false -> rstrip sep (d +:+ "/") = d.
Proof.
  induction d as [|a d IH]; intros Hd.
  - reflexivity.
  - rewrite app_cons, rstrip_cons. destruct d as [|b d].
    + rewrite app_empty_l. cbn in Hd. cbn. rewrite Hd. reflexivity.
    + rewrite endswith_cons in Hd. rewrite (IH Hd).
      rewrite (bool_decide_eq_false_2 (String b d = "")) by congruence.
      rewrite andb_false_r. reflexivity.
Qed.

Lemma all_char_endswith (c : ascii) (s : string) :
  s <> "" -> all_char c s = true -> endswith c s = true.
Proof.
  induction s as [|a s IH]; [congruence|]. intros _. cbn [all_char].
  intros H. apply andb_prop in H as [Ha Hs].
  destruct s as [|b s]; [exact Ha|].
  rewrite endswith_cons. apply IH; [congruence|exact Hs].
Qed.

Lemma all_char_app (c : ascii) (s t : string) :
  all_char c (s +:+ t) = all_char c s && all_char c t.
Proof.
  induction s as [|a s IH]; [reflexivity|].
  rewrite app_cons. cbn [all_char]. rewrite IH, andb_assoc. reflexivity.
Qed.

Lemma strip_head_norm (d : string) : norm_dir d = true -> strip_head d = d.
Proof.
  unfold norm_dir, strip_head. intros H.
  destruct (all_char sep d) eqn:Hall.
  - rewrite andb_false_r. reflexivity.
  - rewrite orb_false_r in H. apply negb_true_iff in H.
    destruct d as [|a d]; [reflexivity|].
    case_bool_decide as Hne; [|congruence]. cbn [andb negb].
    clear Hall Hne. revert a H. induction d as [|b d IH]; intros a H.
    + cbn in *. rewrite H. reflexivity.
    + rewrite endswith_cons in H. rewrite rstrip_cons, (IH b H).
      rewrite (bool_decide_eq_false_2 (String b d = "")) by congruence.
      rewrite andb_false_r. reflexivity.
Qed.

(** Splitting what [join] built gives the two parts back. *)
Lemma path_split_join (d t : string) :
  norm_dir d = true -> contains sep t = false -> t <> "" ->
  path_split (join d t) = (d, t).
Proof.
  intros Hd Ht Hne. unfold join, path_split.
  assert (Hst : startswith sep t = false).
  { destruct t as [|a t]; [reflexivity|]. cbn in *.
    apply orb_false_elim in Ht as [Ha _]. exact Ha. }
  rewrite Hst.
  destruct (bool_decide (d = "") || endswith sep d) eqn:Hcase.
  - rewrite cut_app; [|exact Ht|].
    + rewrite strip_head_norm by exact Hd. reflexivity.
    + apply orb_prop in Hcase as [H|H]; [left; apply bool_decide_eq_true in H; exact H|right; exact H].
  - apply orb_false_elim in Hcase as [Hd1 Hd2].
    apply bool_decide_eq_false in Hd1.
    change (String sep t) with ("/" +:+ t). rewrite <- app_assoc_str.
    rewrite cut_app; [|exact Ht|].
    + f_equal. unfold strip_head.
      assert (Hall : all_char sep (d +:+ "/") = false).
      { rewrite all_char_app. destruct (all_char sep d) eqn:Hall; [|reflexivity].
        rewrite (all_char_endswith _ _ Hd1 Hall) in Hd2. discriminate. }
      rewrite Hall. case_bool_decide as Hnil.
      * cbn [andb negb]. apply rstrip_app_sep. exact Hd2.
      * destruct d; [congruence|]. rewrite app_cons in Hnil. congruence.
    + right. apply endswith_app_cons.
Qed.

Lemma norm_dir_join (d t : string) :
  contains sep t = false -> t <> "" -> norm_dir (join d t) = true.
Proof.
  intros Ht Hne. unfold norm_dir.
  assert (Hend : endswith sep t = false).
  { destruct (endswith sep t) eqn:H; [|reflexivity].
    rewrite (endswith_contains _ _ H) in Ht. discriminate. }
  assert (Hj : endswith sep (join d t) = false).
  { unfold join. destruct t as [|a t]; [congruence|].
    destruct (startswith sep (String a t)); [exact Hend|].
    destruct (bool_decide (d = "") || endswith sep d).
    - rewrite endswith_app_cons. exact Hend.
    - change (String sep (String a t)) with ("/" +:+ String a t).
      rewrite <- app_assoc_str, endswith_app_cons. exact Hend. }
  rewrite Hj. reflexivity.
Qed.

Lemma dirname_join (d t : string) :
  norm_dir d = true -> contains sep t = false -> t <> "" ->
  dirname (join d t) = d.
Proof. intros. unfold dirname. rewrite path_split_join by assumption. reflexivity. Qed.

Lemma basename_join (d t : string) :
  contains sep t = false -> basename (join d t) = t.
Proof.
  intros Ht. unfold basename, join.
  assert (Hst : startswith sep t = false).
  { destruct t as [|a t]; [reflexivity|]. cbn in *.
    apply orb_false_elim in Ht as [Ha _]. exact Ha. }
  rewrite Hst. destruct (bool_decide (d = "") || endswith sep d) eqn:Hcase.
  - rewrite cut_app; [reflexivity|exact Ht|].
    apply orb_prop in Hcase as [H|H]; [left; apply bool_decide_eq_true in H; exact H|right; exact H].
  - change (String sep t) with ("/" +:+ t). rewrite <- app_assoc_str.
    rewrite cut_app; [reflexivity|exact Ht|]. right. apply endswith_app_cons.
Qed.

(** ** [main]: the checks come first *)

(** C5: when the images directory or the labels directory is no
    directory, [main] raises [FileNotFoundError] with a message that ends
    in the path at fault, and the world it leaves is the world it found:
    no directory made, no file copied, nothing printed. *)
Theorem main_aborts_before_any_effect (R : RandomSource) (E : Env) (args : Args)
    (w : world (rs_state R)) :
  let images_dir := abspath E (arg_images_dir args) in
  let labels_dir := abspath E (arg_labels_dir args) in
  is_dir (fs w !! images_dir) = false \/ is_dir (fs w !! labels_dir) = false ->
  exists prefix offending,
    main R E args w = (Raise (FileNotFoundError (prefix +:+ offending)), w) /\
    (offending = images_dir \/ offending = labels_dir) /\
    is_dir (fs w !! offending) = false.
Proof.
  intros images_dir labels_dir Hmissing.
  unfold main. fold images_dir labels_dir.
  unfold mbind, prog_bind, path_isdir, raise.
  destruct (is_dir (fs w !! images_dir)) eqn:Hi.
  - destruct Hmissing as [?|Hl]; [discriminate|]. cbn [negb]. rewrite Hl. cbn [negb].
    exists labels_dir_missing, labels_dir. auto.
  - cbn [negb]. exists images_dir_missing, images_dir. auto.
Qed.

Lemma main_aborts_before_any_effect_witness :
  let E := demo_env demo_names_1 in
  let args := {| arg_images_dir := "/data/pictures"; arg_labels_dir := "/data/labels";
                 arg_train_ratio := demo_ratio; arg_seed := 42 |} in
  (is_dir (fs demo_world !! abspath E (arg_images_dir args)) = false \/
   is_dir (fs demo_world !! abspath E (arg_labels_dir args)) = false) /\
  exists prefix offending,
    main lcg E args demo_world
      = (Raise (FileNotFoundError (prefix +:+ offending)), demo_world) /\
    (offending = abspath E (arg_images_dir args) \/
     offending = abspath E (arg_labels_dir args)) /\
    is_dir (fs demo_world !! offending) = false.
Proof.
  intros E args.
  assert (H : is_dir (fs demo_world !! abspath E (arg_images_dir args)) = false \/
              is_dir (fs demo_world !! abspath E (arg_labels_dir args)) = false).
  { left. vm_compute. reflexivity. }
  split; [exact H|].
  exact (main_aborts_before_any_effect lcg E args demo_world H).
Defined.

(** With both directories in place [main] goes on to [split_and_copy]. *)
Lemma main_runs_split_and_copy (R : RandomSource) (E : Env) (args : Args)
    (w : world (rs_state R)) :
  let images_dir := abspath E (arg_images_dir args) in
  let labels_dir := abspath E (arg_labels_dir args) in
  is_dir (fs w !! images_dir) = true -> is_dir (fs w !! labels_dir) = true ->
  main R E args w =
    split_and_copy R E images_dir labels_dir (arg_train_ratio args) (arg_seed args)
      (World (fs w)
         (out w ++ [MsgParams; MsgImagesDir images_dir; MsgLabelsDir labels_dir;
                    MsgTrainRatio (arg_train_ratio args); MsgSeed (arg_seed args)])%list
         (rng w)).
Proof.
  intros images_dir labels_dir Hi Hl.
  unfold main. fold images_dir labels_dir.
  unfold mbind, prog_bind, path_isdir, print. rewrite Hi. cbn [negb].
  rewrite Hl. cbn [negb fs out rng]. rewrite <- !app_assoc. reflexivity.
Qed.

(** ** Directory creation *)

Lemma is_name_spec (t : string) :
  is_name t = true <-> contains sep t = false /\ t <> "".
Proof.
  unfold is_name. rewrite andb_true_iff, !negb_true_iff, bool_decide_eq_false.
  reflexivity.
Qed.

Lemma length_app_str (s t : string) :
  String.length (s +:+ t) = (String.length s + String.length t)%nat.
Proof. induction s as [|a s IH]; [reflexivity|]. rewrite app_cons. simpl. rewrite IH. reflexivity. Qed.

Lemma length_join (d t : string) :
  is_name t = true -> (String.length d < String.length (join d t))%nat.
Proof.
  intros Ht. apply is_name_spec in Ht as [Hsep Hne].
  assert (0 < String.length t)%nat by (destruct t; [congruence|simpl; lia]).
  unfold join. destruct t as [|a t]; [congruence|].
  cbn in Hsep. apply orb_false_elim in Hsep as [Ha _].
  cbn [startswith]. rewrite Ha.
  destruct (bool_decide (d = "") || endswith sep d).
  - rewrite length_app_str. lia.
  - rewrite length_app_str. simpl in *. lia.
Qed.

Lemma join_neq_dir (d t : string) : is_name t = true -> join d t <> d.
Proof.
  intros Ht Heq. pose proof (length_join d t Ht) as Hlen.
  rewrite Heq in Hlen. lia.
Qed.

(** [join] is injective on normalised directories and names. *)
Lemma join_inj (d1 d2 t1 t2 : string) :
  norm_dir d1 = true -> norm_dir d2 = true ->
  is_name t1 = true -> is_name t2 = true ->
  join d1 t1 = join d2 t2 -> d1 = d2 /\ t1 = t2.
Proof.
  intros Hd1 Hd2 Ht1 Ht2 Heq.
  apply is_name_spec in Ht1 as [? ?]. apply is_name_spec in Ht2 as [? ?].
  assert (Hs : path_split (join d1 t1) = path_split (join d2 t2)) by (rewrite Heq; reflexivity).
  rewrite !path_split_join in Hs by assumption.
  injection Hs as -> ->. split; reflexivity.
Qed.

Lemma mkdir_new {G} (p : string) (w : world G) :
  fs w !! p = None -> fs w !! dirname p = Some Dir ->
  mkdir p w = (Ok tt, World (<[p := Dir]> (fs w)) (out w) (rng w)).
Proof. intros Hp Hd. unfold mkdir. rewrite Hp, Hd. reflexivity. Qed.

Lemma mkdir_exists {G} (p : string) (n : node) (w : world G) :
  fs w !! p = Some n -> mkdir p w = (Raise (FileExistsError p), w).
Proof. intros Hp. unfold mkdir. rewrite Hp. reflexivity. Qed.

(** One level of [makedirs]: the head is there, the leaf is missing or
    already a directory. *)
Lemma makedirs_rec_leaf {G} (depth : nat) (d t : string) (w : world G) :
  norm_dir d = true -> is_name t = true ->
  fs w !! d = Some Dir ->
  fs w !! join d t = None \/ fs w !! join d t = Some Dir ->
  makedirs_rec (S depth) (join d t) w
    = (Ok tt, World (<[join d t := Dir]> (fs w)) (out w) (rng w)).
Proof.
  intros Hd Ht Hfd Hleaf. pose proof Ht as Ht'. apply is_name_spec in Ht' as [Hsep Hne].
  cbn [makedirs_rec]. rewrite path_split_join by assumption.
  rewrite (bool_decide_eq_false_2 (t = "")) by assumption.
  rewrite Hfd. cbn [is_some_node negb]. rewrite andb_false_r.
  destruct Hleaf as [Hnone|Hdir].
  - rewrite mkdir_new; [reflexivity|exact Hnone|].
    rewrite dirname_join by assumption. exact Hfd.
  - rewrite (mkdir_exists _ _ _ Hdir). rewrite Hdir. cbn [is_dir].
    rewrite insert_id by exact Hdir. destruct w; reflexivity.
Qed.

(** Two levels: [base] is there; [base/s] and [base/s/t] are each
    missing or already a directory. *)
Lemma makedirs_two_levels {G} (base s t : string) (w : world G) :
  norm_dir base = true -> is_name s = true -> is_name t = true -> t <> "." ->
  fs w !! base = Some Dir ->
  fs w !! join base s = None \/ fs w !! join base s = Some Dir ->
  fs w !! join (join base s) t = None \/ fs w !! join (join base s) t = Some Dir ->
  makedirs (join (join base s) t) w
    = (Ok tt, World (<[join (join base s) t := Dir]> (<[join base s := Dir]> (fs w)))
                (out w) (rng w)).
Proof.
  intros Hb Hs Ht Hdot Hfb HT HTI.
  pose proof Hs as Hs'. apply is_name_spec in Hs' as [Hssep Hsne].
  pose proof Ht as Ht'. apply is_name_spec in Ht' as [Htsep Htne].
  assert (HnT : norm_dir (join base s) = true) by (apply norm_dir_join; assumption).
  unfold makedirs.
  destruct HT as [HT|HT].
  - (* base/s is missing: the recursive call makes it *)
    assert (Hlen : exists n, String.length (join (join base s) t) = S n).
    { pose proof (length_join (join base s) t Ht).
      destruct (String.length (join (join base s) t)); [lia|eauto]. }
    destruct Hlen as [n Hn]. rewrite Hn. remember (S n) as m eqn:Hm.
    cbn [makedirs_rec]. subst m. rewrite path_split_join by assumption.
    rewrite (bool_decide_eq_false_2 (t = "")) by assumption.
    rewrite HT. cbn [is_some_node negb].
    rewrite (bool_decide_eq_true_2 (join base s ≠ "")).
    2:{ intros Hnil. pose proof (length_join base s Hs) as Hl.
        rewrite Hnil in Hl. simpl in Hl. lia. }
    rewrite (bool_decide_eq_true_2 (t ≠ "")) by assumption. cbn [andb].
    rewrite (makedirs_rec_leaf n base s w Hb Hs Hfb (or_introl HT)).
    rewrite (bool_decide_eq_false_2 (t = ".")) by assumption.
    set (w1 := World (<[join base s := Dir]> (fs w)) (out w) (rng w)).
    assert (Hne : join base s <> join (join base s) t).
    { intros Heq. symmetry in Heq. exact (join_neq_dir _ _ Ht Heq). }
    assert (HTI1 : fs w1 !! join (join base s) t = None \/
                   fs w1 !! join (join base s) t = Some Dir).
    { subst w1. cbn [fs]. rewrite lookup_insert_ne by exact Hne. exact HTI. }
    destruct HTI1 as [Hnone|Hdir].
    + rewrite mkdir_new; [reflexivity|exact Hnone|].
      rewrite dirname_join by assumption. subst w1. cbn [fs].
      apply lookup_insert_eq.
    + rewrite (mkdir_exists _ _ _ Hdir). rewrite Hdir. cbn [is_dir].
      subst w1. cbn [fs] in *. rewrite (insert_id _ _ _ Hdir). reflexivity.
  - (* base/s is there *)
    rewrite (makedirs_rec_leaf _ (join base s) t w HnT Ht HT HTI).
    rewrite (insert_id (fs w) (join base s)) by exact HT. reflexivity.
Qed.

Lemma if_bool_decide_ext {A} (P Q : Prop) `{Decision P} `{Decision Q} (x y : A) :
  (P <-> Q) -> (if bool_decide P then x else y) = (if bool_decide Q then x else y).
Proof. intros HPQ. do 2 case_bool_decide; tauto || reflexivity. Qed.

Lemma base_not_in_tree (base : string) : base ∉ tree_dirs base.
Proof.
  assert (Hn : forall s, is_name s = true -> join base s <> base)
    by (intros s Hs; apply join_neq_dir; exact Hs).
  assert (Hn2 : forall s t, is_name s = true -> is_name t = true ->
                            join (join base s) t <> base).
  { intros s t Hs Ht Heq. pose proof (length_join base s Hs).
    pose proof (length_join (join base s) t Ht). rewrite Heq in *. lia. }
  unfold tree_dirs, output_dirs. intros Hin.
  repeat (apply elem_of_cons in Hin as [Hin|Hin];
          [symmetry in Hin; first [eapply Hn in Hin | eapply Hn2 in Hin]; try reflexivity; contradiction|]).
  apply elem_of_nil in Hin. exact Hin.
Qed.

Lemma tree_ok_insert (base d : string) (m : gmap string node) :
  tree_ok base m -> d ∈ tree_dirs base -> tree_ok base (<[d := Dir]> m).
Proof.
  intros [Hb Hall] Hd. split.
  - rewrite lookup_insert_ne; [exact Hb|].
    intros ->. exact (base_not_in_tree base Hd).
  - intros d' Hd'. destruct (decide (d = d')) as [->|Hne].
    + right. apply lookup_insert_eq.
    + rewrite lookup_insert_ne by exact Hne. auto.
Qed.

Lemma lookup_insert_dirs (l : list string) (m : gmap string node) (p : string) :
  insert_dirs l m !! p = if bool_decide (p ∈ l) then Some Dir else m !! p.
Proof.
  induction l as [|d l IH]; cbn [insert_dirs foldr].
  - rewrite bool_decide_eq_false_2 by apply not_elem_of_nil. reflexivity.
  - destruct (decide (d = p)) as [->|Hne].
    + rewrite lookup_insert_eq.
      rewrite bool_decide_eq_true_2 by apply list_elem_of_here. reflexivity.
    + rewrite lookup_insert_ne by exact Hne. fold (insert_dirs l m). rewrite IH.
      apply if_bool_decide_ext. rewrite elem_of_cons. split; [auto|].
      intros [->|?]; [congruence|assumption].
Qed.

(** One run of [create_dir_structure] on a tree that is [tree_ok]. *)
Lemma create_dir_structure_run {G} (base : string) (w : world G) :
  norm_dir base = true -> tree_ok base (fs w) ->
  exists m,
    create_dir_structure base w
      = (Ok (output_dirs base),
         World m (out w ++ (MsgDir <$> output_dirs base))%list (rng w)) /\
    tree_ok base m /\
    forall p, m !! p = if bool_decide (p ∈ tree_dirs base) then Some Dir else fs w !! p.
Proof.
  intros Hb Hok.
  set (T := join base "train"). set (V := join base "valid").
  set (m1 := <[join T "images" := Dir]> (<[T := Dir]> (fs w))).
  set (m2 := <[join T "labels" := Dir]> (<[T := Dir]> m1)).
  set (m3 := <[join V "images" := Dir]> (<[V := Dir]> m2)).
  set (m4 := <[join V "labels" := Dir]> (<[V := Dir]> m3)).
  assert (Hin : forall d, d ∈ [T; V; join T "images"; join T "labels";
                               join V "images"; join V "labels"] -> d ∈ tree_dirs base)
    by (intros d Hd; exact Hd).
  assert (Hok1 : tree_ok base m1).
  { unfold m1. apply tree_ok_insert; [apply tree_ok_insert; [exact Hok|]|]; apply Hin; repeat first [apply list_elem_of_here | apply list_elem_of_further]. }
  assert (Hok2 : tree_ok base m2).
  { unfold m2. apply tree_ok_insert; [apply tree_ok_insert; [exact Hok1|]|]; apply Hin; repeat first [apply list_elem_of_here | apply list_elem_of_further]. }
  assert (Hok3 : tree_ok base m3).
  { unfold m3. apply tree_ok_insert; [apply tree_ok_insert; [exact Hok2|]|]; apply Hin; repeat first [apply list_elem_of_here | apply list_elem_of_further]. }
  assert (Hok4 : tree_ok base m4).
  { unfold m4. apply tree_ok_insert; [apply tree_ok_insert; [exact Hok3|]|]; apply Hin; repeat first [apply list_elem_of_here | apply list_elem_of_further]. }
  assert (Hstep : forall s t (m : gmap string node) (o : list line),
            tree_ok base m -> join base s ∈ tree_dirs base ->
            join (join base s) t ∈ tree_dirs base ->
            is_name s = true -> is_name t = true -> t <> "." ->
            makedirs (join (join base s) t) (World m o (rng w))
            = (Ok tt, World (<[join (join base s) t := Dir]> (<[join base s := Dir]> m))
                        o (rng w))).
  { intros s t m o [Hmb Hmall] Hs Ht Hns Hnt Hdot.
    apply (makedirs_two_levels base s t (World m o (rng w))); auto. }
  exists m4. split; [|split; [exact Hok4|]].
  - unfold create_dir_structure, output_dirs. cbn [create_dirs_loop].
    unfold mbind, prog_bind. fold T V.
    replace w with (World (fs w) (out w) (rng w)) at 1 by (destruct w; reflexivity).
    unfold T at 1. rewrite (Hstep "train" "images") by
      (try exact Hok; try reflexivity; try discriminate; apply Hin; repeat first [apply list_elem_of_here | apply list_elem_of_further]).
    fold T m1. unfold print at 1. cbn [fs out rng].
    unfold T at 1. rewrite (Hstep "train" "labels") by
      (try exact Hok1; try reflexivity; try discriminate; apply Hin; repeat first [apply list_elem_of_here | apply list_elem_of_further]).
    fold T m2. unfold print at 1. cbn [fs out rng].
    unfold V at 1. rewrite (Hstep "valid" "images") by
      (try exact Hok2; try reflexivity; try discriminate; apply Hin; repeat first [apply list_elem_of_here | apply list_elem_of_further]).
    fold V m3. unfold print at 1. cbn [fs out rng].
    unfold V at 1. rewrite (Hstep "valid" "labels") by
      (try exact Hok3; try reflexivity; try discriminate; apply Hin; repeat first [apply list_elem_of_here | apply list_elem_of_further]).
    fold V m4. unfold print at 1. cbn [fs out rng].
    unfold mret, prog_ret. rewrite <- !app_assoc. reflexivity.
  - intros p.
    change m4 with (insert_dirs [join V "labels"; V; join V "images"; V;
                                 join T "labels"; T; join T "images"; T] (fs w)).
    rewrite lookup_insert_dirs.
    apply if_bool_decide_ext. unfold tree_dirs, output_dirs. cbn [app]. fold T V.
    rewrite !elem_of_cons, !elem_of_nil. tauto.
Qed.

(** C7: on a tree where each of [train], [valid] and the four output
    directories is missing or already a directory, [create_dir_structure]
    raises nothing and leaves the six directories in place; run again on
    what it left, it raises nothing and changes nothing. *)
Theorem create_dir_structure_idempotent {G} (base_dir : string) (w : world G) :
  norm_dir base_dir = true ->
  fs w !! base_dir = Some Dir ->
  (forall d, d ∈ tree_dirs base_dir -> fs w !! d = None \/ fs w !! d = Some Dir) ->
  exists w1 w2,
    create_dir_structure base_dir w = (Ok (output_dirs base_dir), w1) /\
    (forall p, fs w1 !! p
               = if bool_decide (p ∈ tree_dirs base_dir) then Some Dir else fs w !! p) /\
    create_dir_structure base_dir w1 = (Ok (output_dirs base_dir), w2) /\
    fs w2 = fs w1.
Proof.
  intros Hb Hbase Hall.
  destruct (create_dir_structure_run base_dir w Hb (conj Hbase Hall))
    as (m1 & Hrun1 & Hok1 & Hlook1).
  set (w1 := World m1 (out w ++ (MsgDir <$> output_dirs base_dir))%list (rng w)) in *.
  destruct (create_dir_structure_run base_dir w1 Hb Hok1) as (m2 & Hrun2 & _ & Hlook2).
  eexists w1, _. split; [exact Hrun1|]. split; [exact Hlook1|].
  split; [exact Hrun2|]. cbn [fs]. apply map_eq. intros p.
  rewrite Hlook2. cbn [fs]. case_bool_decide as Hp; [|reflexivity].
  rewrite Hlook1. rewrite bool_decide_eq_true_2 by exact Hp. reflexivity.
Qed.

Lemma create_dir_structure_idempotent_witness :
  norm_dir "/data" = true /\
  fs demo_world_partial !! "/data" = Some Dir /\
  (forall d, d ∈ tree_dirs "/data" ->
     fs demo_world_partial !! d = None \/ fs demo_world_partial !! d = Some Dir) /\
  exists w1 w2,
    create_dir_structure "/data" demo_world_partial = (Ok (output_dirs "/data"), w1) /\
    (forall p, fs w1 !! p
               = if bool_decide (p ∈ tree_dirs "/data") then Some Dir
                 else fs demo_world_partial !! p) /\
    create_dir_structure "/data" w1 = (Ok (output_dirs "/data"), w2) /\
    fs w2 = fs w1.
Proof.
  assert (Hn : norm_dir "/data" = true) by reflexivity.
  assert (Hb : fs demo_world_partial !! "/data" = Some Dir) by (vm_compute; reflexivity).
  assert (Hall : forall d, d ∈ tree_dirs "/data" ->
            fs demo_world_partial !! d = None \/ fs demo_world_partial !! d = Some Dir).
  { intros d Hd. unfold tree_dirs, output_dirs in Hd. cbn [app] in Hd.
    rewrite !elem_of_cons, elem_of_nil in Hd.
    destruct Hd as [->|[->|[->|[->|[->|[->|[]]]]]]];
      vm_compute; first [left; reflexivity | right; reflexivity]. }
  split; [exact Hn|]. split; [exact Hb|]. split; [exact Hall|].
  exact (create_dir_structure_idempotent "/data" demo_world_partial Hn Hb Hall).
Defined.

(** Outside the claim: where a regular file stands in the way,
    [exist_ok] does not help and the error comes through. *)
Example makedirs_over_a_file :
  fst (makedirs "/data/labels/a.txt" demo_world) = Raise (FileExistsError "/data/labels/a.txt").
Proof. vm_compute. reflexivity. Qed.

(** ** Copying *)

Lemma is_dir_insert_file (m : gmap string node) (d p : string) (c : list Byte.byte) :
  is_dir (m !! d) = false ->
  is_dir (<[d := File c]> m !! p) = is_dir (m !! p).
Proof.
  intros Hd. destruct (decide (d = p)) as [->|Hne].
  - rewrite lookup_insert_eq, Hd. reflexivity.
  - rewrite lookup_insert_ne by exact Hne. reflexivity.
Qed.

(** A sequence of copies in which a destination is the source of no
    other copy, and copies with one destination have one source: every
    destination ends with the content its source had at the start, and
    every other path is as it was. *)
Lemma run_ops_spec (ops : list (string * string)) (m m' : gmap string node) :
  (forall s d s' d', (s, d) ∈ ops -> (s', d') ∈ ops -> d = s' -> d = s) ->
  (forall s d s' d', (s, d) ∈ ops -> (s', d') ∈ ops -> d = d' -> s = s') ->
  run_ops ops m = Some m' ->
  (forall s d, (s, d) ∈ ops ->
     m' !! d = m !! s /\ exists c, m !! s = Some (File c)) /\
  (forall p, p ∉ ops.*2 -> m' !! p = m !! p).
Proof.
  revert m. induction ops as [|[s0 d0] rest IH]; intros m HA HB Hrun.
  - split.
    + intros s d Hin. apply elem_of_nil in Hin. contradiction.
    + intros p _. simpl in Hrun. congruence.
  - cbn [run_ops] in Hrun.
    destruct (m !! s0) as [[|c0]|] eqn:Hs0; try discriminate.
    case_bool_decide as Hsd; [discriminate|].
    assert (HA' : forall s d s' d', (s, d) ∈ rest -> (s', d') ∈ rest -> d = s' -> d = s).
    { intros s d s' d' H1 H2. apply (HA s d s' d'); apply list_elem_of_further; assumption. }
    assert (HB' : forall s d s' d', (s, d) ∈ rest -> (s', d') ∈ rest -> d = d' -> s = s').
    { intros s d s' d' H1 H2. apply (HB s d s' d'); apply list_elem_of_further; assumption. }
    destruct (IH _ HA' HB' Hrun) as [IHd IHf].
    (* the head destination is the source of no copy *)
    assert (Hsrc : forall s d, (s, d) ∈ (s0, d0) :: rest -> s <> d0).
    { intros s d Hin Heq. subst s.
      assert (d0 = s0) by (eapply (HA s0 d0 d0 d); [apply list_elem_of_here|exact Hin|reflexivity]).
      congruence. }
    split.
    + intros s d Hin. apply elem_of_cons in Hin as [[= -> ->]|Hin].
      * split; [|eauto]. rewrite Hs0.
        destruct (decide (d0 ∈ rest.*2)) as [Hd|Hd].
        -- apply list_elem_of_fmap in Hd as ([s1 d1] & Heq & Hin1). simpl in Heq. subst d1.
           assert (s0 = s1).
           { eapply (HB s0 d0 s1 d0); [apply list_elem_of_here|apply list_elem_of_further; exact Hin1|reflexivity]. }
           subst s1. destruct (IHd _ _ Hin1) as [-> _].
           rewrite lookup_insert_ne by congruence. exact Hs0.
        -- rewrite (IHf _ Hd). apply lookup_insert_eq.
      * destruct (IHd _ _ Hin) as [-> [c Hc]].
        assert (Hne : s <> d0).
        { eapply Hsrc. apply list_elem_of_further. exact Hin. }
        rewrite lookup_insert_ne in Hc |- * by congruence. eauto.
    + intros p Hp. rewrite fmap_cons, not_elem_of_cons in Hp. destruct Hp as [Hp1 Hp2].
      rewrite (IHf _ Hp2). simpl in Hp1. apply lookup_insert_ne. congruence.
Qed.

Lemma run_ops_app (ops1 ops2 : list (string * string)) (m : gmap string node) :
  run_ops (ops1 ++ ops2) m = run_ops ops1 m ≫= run_ops ops2.
Proof.
  revert m. induction ops1 as [|[s d] ops1 IH]; intros m; [reflexivity|].
  cbn [app run_ops]. destruct (m !! s) as [[|c]|]; try reflexivity.
  case_bool_decide; [reflexivity|]. apply IH.
Qed.

Lemma run_ops_is_dir (ops : list (string * string)) (m m' : gmap string node) :
  (forall s d, (s, d) ∈ ops -> is_dir (m !! d) = false) ->
  run_ops ops m = Some m' ->
  forall p, is_dir (m' !! p) = is_dir (m !! p).
Proof.
  revert m. induction ops as [|[s0 d0] rest IH]; intros m Hd Hrun p.
  - simpl in Hrun. congruence.
  - cbn [run_ops] in Hrun.
    destruct (m !! s0) as [[|c0]|]; try discriminate.
    case_bool_decide; [discriminate|].
    assert (Hd0 : is_dir (m !! d0) = false) by (eapply Hd; apply list_elem_of_here).
    rewrite (IH _ ltac:(intros s d Hin; rewrite is_dir_insert_file by exact Hd0;
                        eapply Hd; apply list_elem_of_further; exact Hin) Hrun).
    apply is_dir_insert_file. exact Hd0.
Qed.

Lemma copy2_Ok_inv {G} (src dst d' : string) (w w' : world G) :
  is_dir (fs w !! dst) = false ->
  copy2 src dst w = (Ok d', w') ->
  d' = dst /\ src <> dst /\
  exists c, fs w !! src = Some (File c) /\
            w' = World (<[dst := File c]> (fs w)) (out w) (rng w).
Proof.
  intros Hd. unfold copy2. rewrite Hd.
  destruct (fs w !! src) as [[|c]|] eqn:Hs; [| |intros [=]].
  - case_bool_decide; intros [=].
  - case_bool_decide as Hne; [intros [=]|].
    destruct (fs w !! dst) as [[|c']|] eqn:Hdst.
    + intros [=].
    + intros [= <- <-]. eauto 6.
    + destruct (fs w !! dirname dst) as [[|c']|]; intros [=]. subst. eauto 6.
Qed.

(** A call of [copy_data] that returns, on a tree where no destination
    is a directory, is the sequence of its copies, with one line on the
    console per pair. *)
Lemma copy_data_run {G} (pairs : list (string * string))
    (img_out_dir label_out_dir set_name : string) (w w' : world G) :
  (forall s d, (s, d) ∈ copy_ops pairs img_out_dir label_out_dir ->
               is_dir (fs w !! d) = false) ->
  copy_data pairs img_out_dir label_out_dir set_name w = (Ok tt, w') ->
  run_ops (copy_ops pairs img_out_dir label_out_dir) (fs w) = Some (fs w') /\
  out w' = (out w ++ copied_lines set_name pairs)%list /\
  rng w' = rng w.
Proof.
  revert w. induction pairs as [|[img lbl] rest IH]; intros w Hdirs Hrun.
  - cbn in Hrun. injection Hrun as <-. cbn. rewrite app_nil_r. auto.
  - cbn [copy_data] in Hrun. unfold mbind, prog_bind in Hrun.
    destruct (copy2 img (join img_out_dir (basename img)) w) as [[d1|e] w1] eqn:H1;
      [|discriminate].
    destruct (copy2 lbl (join label_out_dir (basename lbl)) w1) as [[d2|e] w2] eqn:H2;
      [|discriminate].
    unfold print in Hrun. cbn [fs out rng] in Hrun.
    assert (Hd1 : is_dir (fs w !! join img_out_dir (basename img)) = false).
    { apply (Hdirs img). unfold copy_ops. cbn. apply list_elem_of_here. }
    assert (Hd2 : is_dir (fs w !! join label_out_dir (basename lbl)) = false).
    { apply (Hdirs lbl). unfold copy_ops. cbn.
      apply list_elem_of_further, list_elem_of_here. }
    apply (copy2_Ok_inv _ _ _ _ _ Hd1) in H1 as (_ & Hne1 & c1 & Hc1 & ->).
    assert (Hd2' : is_dir (fs (World (<[join img_out_dir (basename img) := File c1]> (fs w))
                                  (out w) (rng w)) !! join label_out_dir (basename lbl)) = false).
    { cbn [fs]. rewrite is_dir_insert_file by exact Hd1. exact Hd2. }
    apply (copy2_Ok_inv _ _ _ _ _ Hd2') in H2 as (_ & Hne2 & c2 & Hc2 & ->).
    cbn [fs out rng] in *.
    apply IH in Hrun.
    + cbn [fs out rng] in Hrun. destruct Hrun as (Hr & Ho & Hg).
      split; [|split; [|exact Hg]].
      * unfold copy_ops. cbn [mbind list_bind app]. cbn [run_ops].
        rewrite Hc1. rewrite bool_decide_eq_false_2 by exact Hne1.
        rewrite Hc2. rewrite bool_decide_eq_false_2 by exact Hne2.
        exact Hr.
      * rewrite Ho. unfold copied_lines. rewrite fmap_cons, <- app_assoc. reflexivity.
    + intros s d Hin. cbn [fs].
      rewrite !is_dir_insert_file; [| |exact Hd2'];
        [|cbn [fs] in Hd2'; rewrite is_dir_insert_file in Hd2'; [exact Hd1|exact Hd1]].
      apply (Hdirs s). unfold copy_ops. cbn [mbind list_bind].
      apply elem_of_app. right. exact Hin.
Qed.

(** ** What [makedirs] can change *)

Lemma grows_refl (b : nat) (m : gmap string node) : grows b m m.
Proof. intros p. left. reflexivity. Qed.

Lemma grows_trans (b : nat) (m1 m2 m3 : gmap string node) :
  grows b m1 m2 -> grows b m2 m3 -> grows b m1 m3.
Proof.
  intros H12 H23 p. destruct (H12 p) as [E12|(N1 & D2 & L)], (H23 p) as [E23|(N2 & D3 & L')].
  - left. congruence.
  - right. rewrite <- E12. auto.
  - right. rewrite E23. auto.
  - congruence.
Qed.

Lemma grows_mono (b b' : nat) (m m' : gmap string node) :
  (b <= b')%nat -> grows b m m' -> grows b' m m'.
Proof. intros Hb H p. destruct (H p) as [?|(? & ? & ?)]; [left|right]; auto with lia. Qed.

Lemma grows_insert (m : gmap string node) (p : string) :
  m !! p = None -> grows (String.length p) m (<[p := Dir]> m).
Proof.
  intros Hp q. destruct (decide (p = q)) as [->|Hne].
  - right. rewrite lookup_insert_eq. auto.
  - left. apply lookup_insert_ne. exact Hne.
Qed.

Lemma mkdir_grows {G} (p : string) (w w' : world G) (r : result unit) :
  mkdir p w = (r, w') ->
  grows (String.length p) (fs w) (fs w') /\ out w' = out w /\ rng w' = rng w.
Proof.
  unfold mkdir. destruct (fs w !! p) eqn:Hp.
  - intros [= _ <-]. split; [apply grows_refl|auto].
  - destruct (fs w !! dirname p) as [[|c]|]; intros [= _ <-];
      (split; [|auto]); try apply grows_refl.
    cbn [fs]. apply grows_insert. exact Hp.
Qed.

Lemma cut_after_last_sep_app (p : string) :
  p = (cut_after_last_sep p).1 +:+ (cut_after_last_sep p).2.
Proof.
  induction p as [|a p IH]; [reflexivity|].
  cbn [cut_after_last_sep]. destruct (contains sep (String a p)); [|reflexivity].
  destruct (cut_after_last_sep p) as [h t]. cbn [fst snd] in *.
  rewrite app_cons, <- IH. reflexivity.
Qed.

Lemma length_rstrip (c : ascii) (s : string) :
  (String.length (rstrip c s) <= String.length s)%nat.
Proof.
  induction s as [|a s IH]; [reflexivity|]. rewrite rstrip_cons.
  destruct (bool_decide (a = c) && bool_decide (rstrip c s = "")); simpl; lia.
Qed.

Lemma length_path_split_head (p : string) :
  (String.length (path_split p).1 <= String.length p)%nat.
Proof.
  unfold path_split. pose proof (cut_after_last_sep_app p) as Hp.
  destruct (cut_after_last_sep p) as [h t]. cbn [fst snd] in *.
  assert (String.length h <= String.length p)%nat.
  { apply (f_equal String.length) in Hp. rewrite length_app_str in Hp. lia. }
  unfold strip_head. destruct (bool_decide (h ≠ "") && negb (all_char sep h)); [|assumption].
  pose proof (length_rstrip sep h). lia.
Qed.

(** Whatever it returns, [makedirs] prints nothing and only adds
    directories, at free paths no longer than its argument. *)
Lemma makedirs_rec_grows {G} (depth : nat) (name : string) (w w' : world G)
    (r : result unit) :
  makedirs_rec depth name w = (r, w') ->
  grows (String.length name) (fs w) (fs w') /\ out w' = out w /\ rng w' = rng w.
Proof.
  revert name w w' r. induction depth as [|depth IH]; intros name w w' r.
  - cbn. intros [= _ <-]. split; [apply grows_refl|auto].
  - cbn [makedirs_rec].
    pose proof (length_path_split_head name) as Hlen1.
    destruct (path_split name) as [head tail]. cbn [fst] in Hlen1.
    assert (Hhead : forall h t,
              (if bool_decide (tail = "") then path_split head else (head, tail)) = (h, t) ->
              (String.length h <= String.length name)%nat).
    { intros h t. case_bool_decide.
      - pose proof (length_path_split_head head) as Hlen2. intros Heq.
        rewrite Heq in Hlen2. cbn [fst] in Hlen2. lia.
      - intros [= <- <-]. exact Hlen1. }
    destruct (if bool_decide (tail = "") then path_split head else (head, tail))
      as [h t]. specialize (Hhead h t eq_refl).
    assert (Hleaf : forall (v v' : world G) (r' : result unit),
              match mkdir name v with
              | (Ok tt, v1) => (Ok tt, v1)
              | (Raise e, v1) => if is_dir (fs v1 !! name) then (Ok tt, v1) else (Raise e, v1)
              end = (r', v') ->
              grows (String.length name) (fs v) (fs v') /\ out v' = out v /\ rng v' = rng v).
    { intros v v' r'. destruct (mkdir name v) as [[[]|e] v1] eqn:Hmk.
      - intros [= _ <-]. eapply mkdir_grows. exact Hmk.
      - apply mkdir_grows in Hmk.
        destruct (is_dir (fs v1 !! name)); intros [= _ <-]; exact Hmk. }
    destruct (bool_decide (h ≠ "") && bool_decide (t ≠ "") && negb (is_some_node (fs w !! h))).
    + destruct (makedirs_rec depth h w) as [r1 w1] eqn:Hrec.
      apply IH in Hrec as (Hg1 & Ho1 & Hr1).
      apply (grows_mono _ (String.length name)) in Hg1; [|exact Hhead].
      assert (Hcont : forall r' : result unit,
                (if bool_decide (t = ".") then (Ok tt, w1)
                 else match mkdir name w1 with
                      | (Ok tt, v1) => (Ok tt, v1)
                      | (Raise e, v1) =>
                          if is_dir (fs v1 !! name) then (Ok tt, v1) else (Raise e, v1)
                      end) = (r', w') ->
                grows (String.length name) (fs w) (fs w') /\ out w' = out w /\ rng w' = rng w).
      { intros r'. case_bool_decide.
        - intros [= _ <-]. auto.
        - intros Hl. apply Hleaf in Hl as (Hg2 & Ho2 & Hr2).
          split; [eapply grows_trans; eassumption|]. split; congruence. }
      destruct r1 as [[]|e]; [apply Hcont|].
      destruct e; try (intros [= _ <-]; auto); apply Hcont.
    + apply Hleaf.
Qed.

(** ** The shape of the copies *)

Lemma endswith_join_name (d t : string) :
  is_name t = true -> endswith sep (join d t) = false.
Proof.
  intros Ht. apply is_name_spec in Ht as [Hsep Hne].
  assert (Hend : endswith sep t = false).
  { destruct (endswith sep t) eqn:H; [|reflexivity].
    rewrite (endswith_contains _ _ H) in Hsep. discriminate. }
  unfold join. destruct t as [|a t]; [congruence|].
  destruct (startswith sep (String a t)); [exact Hend|].
  destruct (bool_decide (d = "") || endswith sep d).
  - rewrite endswith_app_cons. exact Hend.
  - change (String sep (String a t)) with ("/" +:+ String a t).
    rewrite <- app_assoc_str, endswith_app_cons. exact Hend.
Qed.

Lemma join_nonempty (d t : string) : is_name t = true -> join d t <> "".
Proof.
  intros Ht Heq. pose proof (length_join d t Ht) as Hl. rewrite Heq in Hl.
  simpl in Hl. lia.
Qed.

Lemma length_join_exact (d t : string) :
  is_name t = true ->
  String.length (join d t)
  = (String.length d + String.length t
     + if bool_decide (d = "") || endswith sep d then 0 else 1)%nat.
Proof.
  intros Ht. apply is_name_spec in Ht as [Hsep Hne].
  unfold join. destruct t as [|a t]; [congruence|].
  cbn in Hsep. apply orb_false_elim in Hsep as [Ha _].
  cbn [startswith]. rewrite Ha.
  destruct (bool_decide (d = "") || endswith sep d);
    rewrite length_app_str; simpl; lia.
Qed.

Lemma length_two_joins (base s t : string) :
  is_name s = true -> is_name t = true ->
  String.length (join (join base s) t)
  = (String.length base + String.length s + String.length t + 1
     + if bool_decide (base = "") || endswith sep base then 0 else 1)%nat.
Proof.
  intros Hs Ht. rewrite (length_join_exact _ t Ht), (length_join_exact _ s Hs).
  rewrite (endswith_join_name _ _ Hs).
  rewrite (bool_decide_eq_false_2 (join base s = "")) by (apply join_nonempty; exact Hs).
  cbn [orb]. lia.
Qed.

Lemma length_output_dirs (base d : string) :
  d ∈ output_dirs base ->
  String.length d = String.length (join (join base "train") "images").
Proof.
  unfold output_dirs. rewrite !elem_of_cons, elem_of_nil.
  intros [->|[->|[->|[->|[]]]]]; rewrite !length_two_joins by reflexivity; reflexivity.
Qed.

Lemma endswith_unique (c1 c2 : ascii) (s : string) :
  endswith c1 s = true -> endswith c2 s = true -> c1 = c2.
Proof.
  induction s as [|a s IH]; [discriminate|].
  destruct s as [|b s].
  - cbn. intros H1 H2. apply bool_decide_eq_true in H1, H2. congruence.
  - rewrite !endswith_cons. exact IH.
Qed.

Section OpShape.
Variables images_dir labels_dir : string.
Hypothesis images_norm : norm_dir images_dir = true.
Hypothesis labels_norm : norm_dir labels_dir = true.

Let base := dirname images_dir.

Lemma out_dir_norm (split kind : string) :
  is_name split = true -> is_name kind = true ->
  norm_dir (join (join base split) kind) = true.
Proof.
  intros Hs Hk. apply is_name_spec in Hk as [? ?]. apply norm_dir_join; assumption.
Qed.

(** No output directory is the images directory: its parent is
    [base/<split>], the parent of the images directory is [base]. *)
Lemma out_dir_not_images_dir (split kind : string) :
  is_name split = true -> is_name kind = true ->
  join (join base split) kind <> images_dir.
Proof.
  intros Hs Hk Heq.
  assert (Hd : dirname (join (join base split) kind) = join base split).
  { pose proof Hs as Hs'. apply is_name_spec in Hs' as [? ?].
    pose proof Hk as Hk'. apply is_name_spec in Hk' as [? ?].
    apply dirname_join; [apply norm_dir_join|..]; assumption. }
  rewrite Heq in Hd. fold base in Hd. symmetry in Hd.
  exact (join_neq_dir base split Hs Hd).
Qed.

Lemma split_is_name (split : string) :
  split = "train" \/ split = "valid" -> is_name split = true.
Proof. intros [->| ->]; reflexivity. Qed.

(** A destination is the source of no copy but, at most, its own. *)
Lemma op_shape_dst_src (o1 o2 : string * string) :
  op_shape images_dir labels_dir o1 -> op_shape images_dir labels_dir o2 ->
  o1.2 = o2.1 -> o1.2 = o1.1.
Proof.
  intros (X1 & n1 & HX1 & Hn1 & [[-> Hg1]|[-> Ht1]])
         (X2 & n2 & HX2 & Hn2 & [[-> Hg2]|[-> Ht2]]); cbn [fst snd]; fold base;
    apply split_is_name in HX1, HX2; intros Heq.
  - apply join_inj in Heq as [Hd _]; auto using out_dir_norm.
    exfalso. exact (out_dir_not_images_dir X1 "images" HX1 eq_refl Hd).
  - apply join_inj in Heq as [_ ->]; auto using out_dir_norm.
    pose proof (endswith_unique _ _ _ Hg1 Ht2). discriminate.
  - apply join_inj in Heq as [Hd _]; auto using out_dir_norm.
    exfalso. exact (out_dir_not_images_dir X1 "labels" HX1 eq_refl Hd).
  - apply join_inj in Heq as [Hd ->]; auto using out_dir_norm.
    rewrite Hd. reflexivity.
Qed.

(** Copies with one destination have one source. *)
Lemma op_shape_dst_dst (o1 o2 : string * string) :
  op_shape images_dir labels_dir o1 -> op_shape images_dir labels_dir o2 ->
  o1.2 = o2.2 -> o1.1 = o2.1.
Proof.
  intros (X1 & n1 & HX1 & Hn1 & [[-> Hg1]|[-> Ht1]])
         (X2 & n2 & HX2 & Hn2 & [[-> Hg2]|[-> Ht2]]); cbn [fst snd]; fold base;
    apply split_is_name in HX1, HX2; intros Heq.
  - apply join_inj in Heq as [_ ->]; auto using out_dir_norm.
  - apply join_inj in Heq as [Hd _]; auto using out_dir_norm.
    apply join_inj in Hd as [_ Hk]; auto using norm_dir_join.
    + discriminate.
    + apply is_name_spec in HX1 as [? ?]. apply norm_dir_join; assumption.
    + apply is_name_spec in HX2 as [? ?]. apply norm_dir_join; assumption.
  - apply join_inj in Heq as [Hd _]; auto using out_dir_norm.
    apply join_inj in Hd as [_ Hk]; auto using norm_dir_join.
    + discriminate.
    + apply is_name_spec in HX1 as [? ?]. apply norm_dir_join; assumption.
    + apply is_name_spec in HX2 as [? ?]. apply norm_dir_join; assumption.
  - apply join_inj in Heq as [_ ->]; auto using out_dir_norm.
Qed.

(** Every destination is longer than every output directory. *)
Lemma op_shape_dst_length (o : string * string) :
  op_shape images_dir labels_dir o ->
  (String.length (join (join base "train") "images") < String.length o.2)%nat.
Proof.
  intros (X & n & HX & Hn & [[-> _]|[-> _]]); cbn [snd]; fold base.
  - pose proof (length_join (join (join base X) "images") n Hn) as Hl.
    rewrite <- (length_output_dirs base (join (join base X) "images")); [exact Hl|].
    unfold output_dirs. destruct HX as [->| ->]; rewrite !elem_of_cons; auto.
  - pose proof (length_join (join (join base X) "labels") n Hn) as Hl.
    rewrite <- (length_output_dirs base (join (join base X) "labels")); [exact Hl|].
    unfold output_dirs. destruct HX as [->| ->]; rewrite !elem_of_cons; auto.
Qed.

(** The copies of pairs of the right shape have the right shape. *)
Lemma copy_ops_shape (split : string) (pairs : list (string * string)) (o : string * string) :
  split = "train" \/ split = "valid" ->
  Forall (pair_shape images_dir labels_dir) pairs ->
  o ∈ copy_ops pairs (join (join base split) "images") (join (join base split) "labels") ->
  op_shape images_dir labels_dir o.
Proof.
  intros HX Hall Hin. unfold copy_ops in Hin.
  apply list_elem_of_bind in Hin as ([img lbl] & Hin & Hp).
  rewrite Forall_forall in Hall.
  destruct (Hall _ Hp) as (name & lname & [= -> ->] & Hn & Hl & Hg & Ht).
  pose proof Hn as Hn'. apply is_name_spec in Hn' as [Hn1 _].
  pose proof Hl as Hl'. apply is_name_spec in Hl' as [Hl1 _].
  rewrite !basename_join in Hin by assumption.
  rewrite !elem_of_cons, elem_of_nil in Hin.
  destruct Hin as [->|[->|[]]]; exists split; [exists name|exists lname];
    (split; [exact HX|]); (split; [assumption|]); fold base; auto.
Qed.
End OpShape.

(** ** What the globs find *)

Lemma fnmatch_star_unfold (pat n : string) :
  fnmatch (String "*" pat) n
  = fnmatch pat n ||
    match n with
    | "" => false
    | String _ n' => fnmatch (String "*" pat) n'
    end.
Proof. destruct n; reflexivity. Qed.

Lemma fnmatch_char_unfold (c : ascii) (pat n : string) :
  c <> "*"%char ->
  fnmatch (String c pat) n
  = match n with
    | "" => false
    | String a n' => (bool_decide (c = "?"%char) || bool_decide (a = c)) && fnmatch pat n'
    end.
Proof.
  intros Hc. cbn [fnmatch]. rewrite bool_decide_eq_false_2 by exact Hc. reflexivity.
Qed.

Lemma fnmatch_literal (pat n : string) :
  contains "*" pat = false -> contains "?" pat = false ->
  fnmatch pat n = true -> n = pat.
Proof.
  revert n. induction pat as [|c pat IH]; intros n Hs Hq.
  - cbn. intros H. apply bool_decide_eq_true in H. exact H.
  - rewrite contains_cons in Hs, Hq.
    apply orb_false_elim in Hs as [Hc1 Hs]. apply orb_false_elim in Hq as [Hc2 Hq].
    apply bool_decide_eq_false in Hc1, Hc2.
    rewrite fnmatch_char_unfold by exact Hc1.
    destruct n as [|a n]; [discriminate|].
    rewrite (bool_decide_eq_false_2 (c = "?"%char)) by exact Hc2. cbn [orb].
    intros H. apply andb_prop in H as [Ha Hn]. apply bool_decide_eq_true in Ha.
    subst a. f_equal. apply IH; assumption.
Qed.

Lemma fnmatch_refl_literal (lit : string) :
  contains "*" lit = false -> fnmatch lit lit = true.
Proof.
  induction lit as [|c lit IH]; [reflexivity|].
  rewrite contains_cons. intros H. apply orb_false_elim in H as [Hc Hs].
  apply bool_decide_eq_false in Hc. rewrite fnmatch_char_unfold by exact Hc.
  rewrite (bool_decide_eq_true_2 (c = c)) by reflexivity.
  rewrite orb_true_r. apply IH. exact Hs.
Qed.

Lemma fnmatch_star_literal (lit n : string) :
  contains "*" lit = false -> contains "?" lit = false ->
  fnmatch (String "*" lit) n = true <-> exists stem, n = stem +:+ lit.
Proof.
  intros Hs Hq. split.
  - induction n as [|a n IH]; rewrite fnmatch_star_unfold; intros H;
      apply orb_prop in H as [H|H].
    + exists "". rewrite app_empty_l. apply (fnmatch_literal lit "" Hs Hq H).
    + discriminate.
    + exists "". rewrite app_empty_l. apply (fnmatch_literal lit _ Hs Hq H).
    + destruct (IH H) as [stem ->]. exists (String a stem). reflexivity.
  - intros [stem ->]. induction stem as [|a stem IH]; rewrite fnmatch_star_unfold.
    + rewrite app_empty_l. apply orb_true_intro. left.
      apply fnmatch_refl_literal. exact Hs.
    + rewrite app_cons. apply orb_true_intro. right. exact IH.
Qed.

Lemma endswith_app_nonempty (c : ascii) (s t : string) :
  t <> "" -> endswith c (s +:+ t) = endswith c t.
Proof. destruct t as [|a t]; [congruence|]. intros _. apply endswith_app_cons. Qed.

(** The glob of a pattern [<dir>/*<lit>] in a directory without
    wildcards of its own. *)
Lemma glob_star (E : Env) (d lit : string) :
  norm_dir d = true -> has_magic d = false ->
  is_name (String "*" lit) = true ->
  glob E (join d (String "*" lit))
  = join d <$> filter (fun n => fnmatch (String "*" lit) n = true)
                 (filter (fun n => is_hidden n = false) (listing E d)).
Proof.
  intros Hd Hm Hn. unfold glob.
  pose proof Hn as Hn'. apply is_name_spec in Hn' as [? ?].
  rewrite path_split_join by assumption. rewrite Hm. reflexivity.
Qed.

Lemma glob_star_elem (E : Env) (d lit img : string) (g : ascii) :
  norm_dir d = true -> has_magic d = false -> listing_ok E d ->
  is_name (String "*" lit) = true ->
  contains "*" lit = false -> contains "?" lit = false ->
  lit <> "" -> endswith g lit = true ->
  img ∈ glob E (join d (String "*" lit)) ->
  exists name, img = join d name /\ name ∈ listing E d /\ is_name name = true /\
               endswith g name = true /\ is_hidden name = false.
Proof.
  intros Hd Hm Hok Hn Hs Hq Hne Hg Hin.
  rewrite glob_star in Hin by assumption.
  apply list_elem_of_fmap in Hin as (name & -> & Hin).
  apply list_elem_of_filter in Hin as [Hmatch Hin].
  apply list_elem_of_filter in Hin as [Hhid Hin].
  exists name. split; [reflexivity|]. split; [exact Hin|]. split; [apply Hok; exact Hin|].
  split; [|exact Hhid].
  apply fnmatch_star_literal in Hmatch as [stem ->]; [|assumption..].
  rewrite endswith_app_nonempty by exact Hne. exact Hg.
Qed.

(** Every image path of discovery is a name ending in [g] under the
    images directory. *)
Lemma image_files_of_elem (E : Env) (images_dir img : string) :
  norm_dir images_dir = true -> has_magic images_dir = false ->
  listing_ok E images_dir ->
  img ∈ image_files_of E images_dir ->
  exists name, img = join images_dir name /\ name ∈ listing E images_dir /\
               is_name name = true /\ endswith "g" name = true /\
               is_hidden name = false.
Proof.
  intros Hd Hm Hok Hin. unfold image_files_of in Hin.
  rewrite sorted_Permutation in Hin. apply elem_of_app in Hin as [Hin|Hin].
  - eapply (glob_star_elem E images_dir ".jpg"); eauto; try reflexivity; discriminate.
  - eapply (glob_star_elem E images_dir ".jpeg"); eauto; try reflexivity; discriminate.
Qed.

(** ** Labels *)

Lemma cut_at_last_dot_app (n : string) :
  n = (cut_at_last_dot n).1 +:+ (cut_at_last_dot n).2.
Proof.
  induction n as [|a n IH]; [reflexivity|].
  cbn [cut_at_last_dot]. destruct (negb (contains extsep n) && is_dot a); [reflexivity|].
  destruct (cut_at_last_dot n) as [r e]. cbn [fst snd] in *.
  rewrite app_cons, <- IH. reflexivity.
Qed.

(** The root [splitext] returns is a prefix of its argument. *)
Lemma splitext_root_prefix (p : string) : exists e, p = (splitext p).1 +:+ e.
Proof.
  unfold splitext. pose proof (cut_after_last_sep_app p) as Hp.
  destruct (cut_after_last_sep p) as [head name]. cbn [fst snd] in Hp.
  pose proof (cut_at_last_dot_app name) as Hn.
  destruct (cut_at_last_dot name) as [root ext]. cbn [fst snd] in Hn.
  destruct (contains extsep name && negb (all_char extsep root)); cbn [fst].
  - exists ext. rewrite app_assoc_str, <- Hn. exact Hp.
  - exists "". symmetry. apply app_empty_r.
Qed.

Lemma label_name_ok (name : string) :
  is_name name = true ->
  is_name ((splitext name).1 +:+ ".txt") = true /\
  endswith "t" ((splitext name).1 +:+ ".txt") = true.
Proof.
  intros Hn. apply is_name_spec in Hn as [Hsep _].
  destruct (splitext_root_prefix name) as [e He].
  rewrite He, contains_app in Hsep. apply orb_false_elim in Hsep as [Hroot _].
  split.
  - apply is_name_spec. split.
    + rewrite contains_app, Hroot. reflexivity.
    + intros Heq. apply (f_equal String.length) in Heq.
      rewrite length_app_str in Heq. simpl in Heq. lia.
  - rewrite endswith_app_nonempty by discriminate. reflexivity.
Qed.

Lemma label_path_of_join (labels_dir d name : string) :
  is_name name = true ->
  label_path_of labels_dir (join d name)
  = join labels_dir ((splitext name).1 +:+ ".txt").
Proof.
  intros Hn. apply is_name_spec in Hn as [Hsep _].
  unfold label_path_of. rewrite basename_join by exact Hsep. reflexivity.
Qed.

Lemma partition_Ok_inv (R : RandomSource) {A} (g g' : rs_state R)
    (ratio : spec_float) (pairs train valid : list A) :
  partition R g ratio pairs = Ok (train, valid, g') ->
  exists k shuffled,
    train_count_of (length pairs) ratio = Ok k /\
    shuffle R g pairs = Ok (shuffled, g') /\ shuffled ≡ₚ pairs /\
    train = slice_to k shuffled /\ valid = slice_from k shuffled /\
    (train ++ valid)%list = shuffled.
Proof.
  unfold partition. destruct (train_count_of (length pairs) ratio) as [k|e]; [|discriminate].
  cbn [mbind result_bind].
  destruct (shuffle_Ok R g pairs) as (shuffled & g1 & Hs & Hp). rewrite Hs.
  intros [= <- <- <-]. exists k, shuffled. repeat split; auto.
  apply slice_to_from.
Qed.

(** A run of [select_split] that returns: the files are untouched and
    the two lists are a cut of a permutation of the valid pairs. *)
Lemma select_split_Ok_inv (R : RandomSource) (E : Env) (images_dir labels_dir : string)
    (ratio : spec_float) (seed : Z) (w w' : world (rs_state R))
    (train valid : list (string * string)) :
  select_split R E images_dir labels_dir ratio seed w = (Ok (train, valid), w') ->
  fs w' = fs w /\
  (train ++ valid)%list ≡ₚ
    pair_of labels_dir <$>
      filter (fun i => has_label (fs w) labels_dir i = true) (image_files_of E images_dir).
Proof.
  rewrite select_split_spec.
  destruct (partition R (rs_seed R seed) ratio _) as [[[t v] g']|e] eqn:Hp; [|discriminate].
  intros [= <- <- <-]. split; [reflexivity|].
  apply partition_Ok_inv in Hp as (k & shuffled & _ & _ & Hperm & _ & _ & Happ).
  rewrite Happ. exact Hperm.
Qed.

(** Discovered pairs have the shape the copy step relies on. *)
Lemma discovered_pairs_shape (E : Env) (images_dir labels_dir : string)
    (m : gmap string node) :
  norm_dir images_dir = true -> has_magic images_dir = false ->
  listing_ok E images_dir ->
  Forall (pair_shape images_dir labels_dir)
    (pair_of labels_dir <$>
       filter (fun i => has_label m labels_dir i = true) (image_files_of E images_dir)).
Proof.
  intros Hd Hm Hok. apply Forall_forall. intros p Hp.
  apply list_elem_of_fmap in Hp as (img & -> & Hin).
  apply list_elem_of_filter in Hin as [_ Hin].
  destruct (image_files_of_elem E images_dir img Hd Hm Hok Hin)
    as (name & -> & _ & Hn & Hg & _).
  destruct (label_name_ok name Hn) as [Hl Ht].
  exists name, ((splitext name).1 +:+ ".txt"). unfold pair_of.
  rewrite label_path_of_join by exact Hn. auto.
Qed.

(** ** The output tree and the copies together *)

Lemma create_dirs_loop_grows {G} (bound : nat) (dirs : list string) (w w' : world G)
    (r : result unit) :
  (forall d, d ∈ dirs -> (String.length d <= bound)%nat) ->
  create_dirs_loop dirs w = (r, w') ->
  grows bound (fs w) (fs w') /\ rng w' = rng w.
Proof.
  revert w. induction dirs as [|d dirs IH]; intros w Hlen.
  - cbn. intros [= _ <-]. split; [apply grows_refl|reflexivity].
  - cbn [create_dirs_loop]. unfold mbind, prog_bind.
    destruct (makedirs d w) as [[[]|e] w1] eqn:Hmk; unfold makedirs in Hmk;
      apply makedirs_rec_grows in Hmk as (Hg & Ho & Hr);
      apply (grows_mono _ bound) in Hg;
      try (apply Hlen; apply list_elem_of_here).
    + unfold print. cbn [fs out rng]. intros Hrest.
      apply IH in Hrest as [Hg2 Hr2].
      * cbn [fs rng] in *. split; [eapply grows_trans; eassumption|congruence].
      * intros d' Hd'. apply Hlen. apply list_elem_of_further. exact Hd'.
    + intros [= _ <-]. auto.
Qed.

Lemma create_dir_structure_grows {G} (base : string) (w w' : world G)
    (r : result (list string)) :
  create_dir_structure base w = (r, w') ->
  grows (String.length (join (join base "train") "images")) (fs w) (fs w') /\
  rng w' = rng w.
Proof.
  unfold create_dir_structure, mbind, prog_bind.
  destruct (create_dirs_loop (output_dirs base) w) as [[[]|e] w1] eqn:Hloop;
    apply (create_dirs_loop_grows (String.length (join (join base "train") "images")))
      in Hloop;
    try (intros d Hd; rewrite (length_output_dirs base d Hd); reflexivity);
    intros [= _ <-]; exact Hloop.
Qed.

Lemma run_ops_distinct (ops : list (string * string)) (m m' : gmap string node) :
  run_ops ops m = Some m' -> forall s d, (s, d) ∈ ops -> s <> d.
Proof.
  revert m. induction ops as [|[s0 d0] rest IH]; intros m Hrun s d Hin.
  - apply elem_of_nil in Hin. contradiction.
  - cbn [run_ops] in Hrun. destruct (m !! s0) as [[|c]|]; try discriminate.
    case_bool_decide as Hne; [discriminate|].
    apply elem_of_cons in Hin as [[= -> ->]|Hin]; [exact Hne|].
    eapply IH; eassumption.
Qed.

Section Materialize.
Variable R : RandomSource.
Variables images_dir labels_dir : string.
Hypothesis images_norm : norm_dir images_dir = true.
Hypothesis labels_norm : norm_dir labels_dir = true.

Let base := dirname images_dir.

(** A run of the materializer that returns, on a tree where no
    directory stands at a destination: every destination holds what its
    source held at the start, and every source holds it still. *)
Lemma materialize_Ok_inv (train_pairs valid_pairs_ : list (string * string))
    (w w' : world (rs_state R)) :
  Forall (pair_shape images_dir labels_dir) (train_pairs ++ valid_pairs_) ->
  (forall s d, (s, d) ∈ all_ops images_dir train_pairs valid_pairs_ -> is_dir (fs w !! d) = false) ->
  materialize R images_dir train_pairs valid_pairs_ w = (Ok tt, w') ->
  forall s d, (s, d) ∈ all_ops images_dir train_pairs valid_pairs_ ->
    (exists c, fs w !! s = Some (File c)) /\
    fs w' !! d = fs w !! s /\
    fs w' !! s = fs w !! s.
Proof.
  intros Hshape Hdirs Hrun.
  apply Forall_app in Hshape as [Hst Hsv].
  set (TI := join (join base "train") "images") in *.
  set (TL := join (join base "train") "labels") in *.
  set (VI := join (join base "valid") "images") in *.
  set (VL := join (join base "valid") "labels") in *.
  set (ops1 := copy_ops train_pairs TI TL).
  set (ops2 := copy_ops valid_pairs_ VI VL).
  assert (Hops : all_ops images_dir train_pairs valid_pairs_ = (ops1 ++ ops2)%list) by reflexivity.
  assert (Hsh : forall o, o ∈ (ops1 ++ ops2)%list -> op_shape images_dir labels_dir o).
  { intros o Ho. apply elem_of_app in Ho as [Ho|Ho].
    - apply (copy_ops_shape images_dir labels_dir "train" train_pairs); auto.
    - apply (copy_ops_shape images_dir labels_dir "valid" valid_pairs_); auto. }
  rewrite Hops in *.
  (* the phases of the run *)
  unfold materialize, mbind, prog_bind, print in Hrun. cbn [fs out rng] in Hrun.
  fold base TI TL VI VL in Hrun.
  destruct (create_dir_structure base _) as [[dirs|e] w1] eqn:Hmk; [|discriminate].
  apply create_dir_structure_grows in Hmk as [Hg Hr1]. cbn [fs rng] in Hg, Hr1.
  cbn [fs out rng] in Hrun.
  destruct (copy_data train_pairs TI TL "Train" _) as [[[]|e] w2] eqn:Hc1; [|discriminate].
  cbn [fs out rng] in Hrun.
  destruct (copy_data valid_pairs_ VI VL "Valid" _) as [[[]|e] w3] eqn:Hc2; [|discriminate].
  injection Hrun as <-. cbn [fs].
  (* no destination is a directory after the directories are made *)
  assert (Hdir1 : forall s d, (s, d) ∈ (ops1 ++ ops2)%list -> is_dir (fs w1 !! d) = false).
  { intros s d Hin. destruct (Hg d) as [->|(_ & _ & Hlen)]; [eauto|].
    pose proof (op_shape_dst_length images_dir labels_dir _ (Hsh _ Hin)) as Hlt.
    cbn [snd] in Hlt. fold base in Hlt. lia. }
  apply copy_data_run in Hc1 as (Hrun1 & _ & _);
    [|cbn [fs]; intros s d Hin; apply (Hdir1 s); apply elem_of_app; left; exact Hin].
  cbn [fs] in Hrun1. fold ops1 in Hrun1.
  assert (Hdir2 : forall s d, (s, d) ∈ ops2 -> is_dir (fs w2 !! d) = false).
  { intros s d Hin.
    rewrite (run_ops_is_dir ops1 (fs w1) (fs w2)); [| |exact Hrun1].
    - apply (Hdir1 s). apply elem_of_app. right. exact Hin.
    - intros s' d' Hin'. apply (Hdir1 s'). apply elem_of_app. left. exact Hin'. }
  apply copy_data_run in Hc2 as (Hrun2 & _ & _); [|cbn [fs]; exact Hdir2].
  cbn [fs] in Hrun2. fold ops2 in Hrun2.
  assert (Hall : run_ops (ops1 ++ ops2) (fs w1) = Some (fs w3)).
  { rewrite run_ops_app, Hrun1. exact Hrun2. }
  assert (HA : forall s d s' d', (s, d) ∈ (ops1 ++ ops2)%list ->
                (s', d') ∈ (ops1 ++ ops2)%list -> d = s' -> d = s).
  { intros s d s' d' H1 H2.
    exact (op_shape_dst_src images_dir labels_dir images_norm labels_norm
             (s, d) (s', d') (Hsh _ H1) (Hsh _ H2)). }
  assert (HB : forall s d s' d', (s, d) ∈ (ops1 ++ ops2)%list ->
                (s', d') ∈ (ops1 ++ ops2)%list -> d = d' -> s = s').
  { intros s d s' d' H1 H2.
    exact (op_shape_dst_dst images_dir labels_dir
             (s, d) (s', d') (Hsh _ H1) (Hsh _ H2)). }
  destruct (run_ops_spec _ _ _ HA HB Hall) as [Hdst Hframe].
  pose proof (run_ops_distinct _ _ _ Hall) as Hne.
  intros s d Hin. destruct (Hdst s d Hin) as [Hd [c Hc]].
  assert (Hs1 : fs w1 !! s = fs w !! s).
  { destruct (Hg s) as [?|(_ & Hs & _)]; [assumption|congruence]. }
  split; [exists c; congruence|]. split; [congruence|].
  rewrite <- Hs1. apply Hframe.
  intros Hsd. apply list_elem_of_fmap in Hsd as ([s' d'] & Heq & Hin'). cbn in Heq. subst d'.
  assert (s = s') by exact (HA s' s s d Hin' Hin eq_refl).
  subst s'. exact (Hne s s Hin' eq_refl).
Qed.
End Materialize.

Lemma op_shape_no_subdirs (images_dir labels_dir : string) (m : gmap string node)
    (o : string * string) :
  no_subdirs (dirname images_dir) m -> op_shape images_dir labels_dir o ->
  is_dir (m !! o.2) = false.
Proof.
  intros Hno (X & n & HX & Hn & [[-> _]|[-> _]]); cbn [snd]; apply Hno; try exact Hn;
    unfold output_dirs; destruct HX as [->| ->]; rewrite !elem_of_cons; auto.
Qed.


Lemma demo_listing_ok (names : list string) :
  Forall (fun n => is_name n = true) names ->
  listing_ok (demo_env names) "/data/images".
Proof.
  intros Hall n Hn. cbn in Hn. rewrite Forall_forall in Hall. apply Hall. exact Hn.
Qed.

Lemma demo_no_subdirs : no_subdirs "/data" demo_fs.
Proof.
  intros d name Hd Hn.
  destruct (demo_fs !! join d name) as [[|c]|] eqn:Hlook; try reflexivity.
  exfalso. pose proof (length_join d name Hn) as Hlen.
  apply elem_of_list_to_map_2 in Hlook.
  assert (Hd18 : String.length d = 18%nat).
  { unfold output_dirs in Hd. rewrite !elem_of_cons, elem_of_nil in Hd.
    destruct Hd as [->|[->|[->|[->|[]]]]]; reflexivity. }
  rewrite !elem_of_cons, elem_of_nil in Hlook.
  repeat (destruct Hlook as [Hlook|Hlook];
          [injection Hlook as Hk; try discriminate; rewrite Hk in Hlen; simpl in Hlen; lia|]).
  exact Hlook.
Qed.



(** ** One stem, two images *)

Lemma cut_at_last_dot_ext (s x : string) :
  contains extsep x = false ->
  cut_at_last_dot (s +:+ String "." x) = (s, String "." x).
Proof.
  intros Hx. induction s as [|a s IH].
  - rewrite app_empty_l. cbn [cut_at_last_dot]. rewrite Hx. reflexivity.
  - rewrite app_cons. cbn [cut_at_last_dot].
    rewrite contains_app, contains_cons.
    rewrite (bool_decide_eq_true_2 ("."%char = extsep)) by reflexivity.
    rewrite orb_true_r. cbn [negb andb]. rewrite IH. reflexivity.
Qed.

(** [splitext] on a visible name [<stem>.<x>] gives the stem back. *)
Lemma splitext_stem (stem x : string) :
  is_name stem = true -> is_hidden stem = false ->
  contains extsep x = false -> contains sep x = false ->
  splitext (stem +:+ String "." x) = (stem, String "." x).
Proof.
  intros Hn Hh Hx Hxs. apply is_name_spec in Hn as [Hsep Hne].
  unfold splitext.
  rewrite cut_no_sep.
  2:{ rewrite contains_app, Hsep, contains_cons, Hxs. reflexivity. }
  rewrite cut_at_last_dot_ext by exact Hx.
  rewrite contains_app, contains_cons.
  rewrite (bool_decide_eq_true_2 ("."%char = extsep)) by reflexivity.
  rewrite orb_true_r. cbn [andb].
  assert (Hall : all_char extsep stem = false).
  { destruct stem as [|a stem]; [congruence|]. cbn in Hh. cbn [all_char].
    rewrite Hh. reflexivity. }
  rewrite Hall. reflexivity.
Qed.

Lemma is_name_app (s t : string) :
  is_name s = true -> contains sep t = false -> is_name (s +:+ t) = true.
Proof.
  intros Hs Ht. apply is_name_spec in Hs as [Hsep Hne]. apply is_name_spec. split.
  - rewrite contains_app, Hsep, Ht. reflexivity.
  - destruct s; [congruence|]. rewrite app_cons. discriminate.
Qed.

Lemma is_hidden_app (s t : string) : s <> "" -> is_hidden (s +:+ t) = is_hidden s.
Proof. destruct s; [congruence|]. reflexivity. Qed.

Section SharedLabel.
Variable E : Env.
Variables images_dir labels_dir stem : string.
Hypothesis images_norm : norm_dir images_dir = true.
Hypothesis images_plain : has_magic images_dir = false.
Hypothesis stem_name : is_name stem = true.
Hypothesis stem_visible : is_hidden stem = false.

Lemma stem_nonempty : stem <> "".
Proof. apply is_name_spec in stem_name as [_ H]. exact H. Qed.

(** A listed [<stem><lit>] is found by the glob for [*<lit>]. *)
Lemma listed_is_globbed (lit : string) :
  is_name (String "*" lit) = true ->
  contains "*" lit = false -> contains "?" lit = false ->
  (stem +:+ lit) ∈ listing E images_dir ->
  join images_dir (stem +:+ lit) ∈ glob E (join images_dir (String "*" lit)).
Proof.
  intros Hn Hs Hq Hin. rewrite glob_star by assumption.
  apply list_elem_of_fmap. exists (stem +:+ lit). split; [reflexivity|].
  apply list_elem_of_filter. split.
  - apply fnmatch_star_literal; eauto.
  - apply list_elem_of_filter. split; [|exact Hin].
    rewrite is_hidden_app by exact stem_nonempty. exact stem_visible.
Qed.

Lemma listed_jpg_is_image_file :
  (stem +:+ ".jpg") ∈ listing E images_dir ->
  join images_dir (stem +:+ ".jpg") ∈ image_files_of E images_dir.
Proof.
  intros Hin. unfold image_files_of. rewrite sorted_Permutation.
  apply elem_of_app. left. apply listed_is_globbed; auto.
Qed.

Lemma listed_jpeg_is_image_file :
  (stem +:+ ".jpeg") ∈ listing E images_dir ->
  join images_dir (stem +:+ ".jpeg") ∈ image_files_of E images_dir.
Proof.
  intros Hin. unfold image_files_of. rewrite sorted_Permutation.
  apply elem_of_app. right. apply listed_is_globbed; auto.
Qed.

Lemma label_of_jpg :
  label_path_of labels_dir (join images_dir (stem +:+ ".jpg"))
  = join labels_dir (stem +:+ ".txt").
Proof.
  rewrite label_path_of_join by (apply is_name_app; [exact stem_name|reflexivity]).
  rewrite (splitext_stem stem "jpg") by auto. reflexivity.
Qed.

Lemma label_of_jpeg :
  label_path_of labels_dir (join images_dir (stem +:+ ".jpeg"))
  = join labels_dir (stem +:+ ".txt").
Proof.
  rewrite label_path_of_join by (apply is_name_app; [exact stem_name|reflexivity]).
  rewrite (splitext_stem stem "jpeg") by auto. reflexivity.
Qed.

Lemma jpg_is_not_jpeg :
  join images_dir (stem +:+ ".jpg") <> join images_dir (stem +:+ ".jpeg").
Proof.
  intros Heq. apply (f_equal basename) in Heq.
  rewrite !basename_join in Heq.
  - apply String.app_inj in Heq. discriminate.
  - rewrite contains_app. apply is_name_spec in stem_name as [-> _]. reflexivity.
  - rewrite contains_app. apply is_name_spec in stem_name as [-> _]. reflexivity.
Qed.
End SharedLabel.

(** ** The console of the copy step *)

Lemma copy2_out {G} (src dst : string) (w w' : world G) (r : result string) :
  copy2 src dst w = (r, w') -> out w' = out w.
Proof.
  unfold copy2. intros H.
  repeat match type of H with
         | context [match ?x with _ => _ end] => destruct x
         end;
    injection H as _ <-; reflexivity.
Qed.

Lemma copy_data_out {G} (pairs : list (string * string))
    (img_out_dir label_out_dir set_name : string) (w w' : world G) :
  copy_data pairs img_out_dir label_out_dir set_name w = (Ok tt, w') ->
  out w' = (out w ++ copied_lines set_name pairs)%list.
Proof.
  revert w. induction pairs as [|[img lbl] rest IH]; intros w.
  - cbn. intros [= <-]. rewrite app_nil_r. reflexivity.
  - cbn [copy_data]. unfold mbind, prog_bind.
    destruct (copy2 img _ w) as [[d1|e] w1] eqn:H1; [|discriminate].
    destruct (copy2 lbl _ w1) as [[d2|e] w2] eqn:H2; [|discriminate].
    apply copy2_out in H1, H2. unfold print. intros Hrest. apply IH in Hrest.
    cbn [out] in Hrest. rewrite Hrest, H2, H1.
    unfold copied_lines. rewrite fmap_cons, <- app_assoc. reflexivity.
Qed.

Lemma create_dirs_loop_out {G} (dirs : list string) (w w' : world G) :
  create_dirs_loop dirs w = (Ok tt, w') ->
  out w' = (out w ++ (MsgDir <$> dirs))%list.
Proof.
  revert w. induction dirs as [|d dirs IH]; intros w.
  - cbn. intros [= <-]. rewrite app_nil_r. reflexivity.
  - cbn [create_dirs_loop]. unfold mbind, prog_bind.
    destruct (makedirs d w) as [[[]|e] w1] eqn:Hmk; [|discriminate].
    unfold makedirs in Hmk. apply makedirs_rec_grows in Hmk as (_ & Ho & _).
    unfold print. intros Hrest. apply IH in Hrest. cbn [out] in Hrest.
    rewrite Hrest, Ho, fmap_cons, <- app_assoc. reflexivity.
Qed.

(** What a run of the materializer that returns has printed. *)
Lemma materialize_Ok_out (R : RandomSource) (images_dir : string)
    (train_pairs valid_pairs_ : list (string * string)) (w w' : world (rs_state R)) :
  materialize R images_dir train_pairs valid_pairs_ w = (Ok tt, w') ->
  out w' = (out w ++ [MsgOutput (dirname images_dir)]
            ++ (MsgDir <$> output_dirs (dirname images_dir))
            ++ [MsgCopyStart "Train"] ++ copied_lines "Train" train_pairs
            ++ [MsgCopyStart "Valid"] ++ copied_lines "Valid" valid_pairs_
            ++ [MsgDone])%list.
Proof.
  unfold materialize, mbind, prog_bind, print. cbn [fs out rng].
  unfold create_dir_structure, mbind, prog_bind.
  destruct (create_dirs_loop _ _) as [[[]|e] w1] eqn:Hmk; [|discriminate].
  apply create_dirs_loop_out in Hmk. cbn [out] in Hmk.
  unfold mret, prog_ret. cbn [fs out rng].
  destruct (copy_data train_pairs _ _ _ _) as [[[]|e] w2] eqn:Hc1; [|discriminate].
  apply copy_data_out in Hc1. cbn [out] in Hc1. cbn [fs out rng].
  destruct (copy_data valid_pairs_ _ _ _ _) as [[[]|e] w3] eqn:Hc2; [|discriminate].
  apply copy_data_out in Hc2. cbn [out] in Hc2.
  intros [= <-]. cbn [out]. rewrite Hc2, Hc1, Hmk.
  rewrite <- !app_assoc. reflexivity.
Qed.

Lemma endswith_join (c : ascii) (d t : string) :
  is_name t = true -> endswith c (join d t) = endswith c t.
Proof.
  intros Ht. apply is_name_spec in Ht as [Hsep Hne]. unfold join.
  destruct t as [|a t]; [congruence|].
  destruct (startswith sep (String a t)); [reflexivity|].
  destruct (bool_decide (d = "") || endswith sep d).
  - apply endswith_app_cons.
  - change (String sep (String a t)) with ("/" +:+ String a t).
    rewrite <- app_assoc_str. apply endswith_app_cons.
Qed.

(** The copies that read [src], when [src] is the image of no pair: one
    per pair whose label is [src]. *)
Lemma copy_ops_sources (pairs : list (string * string))
    (img_out_dir label_out_dir src : string) :
  (forall p, p ∈ pairs -> p.1 <> src) ->
  filter (fun o => o.1 = src) (copy_ops pairs img_out_dir label_out_dir)
  = (fun _ => (src, join label_out_dir (basename src)))
      <$> filter (fun p => p.2 = src) pairs.
Proof.
  induction pairs as [|[img lbl] rest IH]; intros Himg; [reflexivity|].
  assert (Hi : img <> src) by (apply (Himg (img, lbl)); apply list_elem_of_here).
  unfold copy_ops in *. cbn [mbind list_bind]. rewrite filter_app.
  rewrite IH by (intros p Hp; apply Himg; apply list_elem_of_further; exact Hp).
  rewrite !filter_cons, filter_nil. cbn [fst snd].
  destruct (decide (img = src)); [contradiction|].
  destruct (decide (lbl = src)) as [->|]; reflexivity.
Qed.



(** The run on the first machine puts [a.jpg] in the training split and
    [a.jpeg] in the validation split, so [a.txt] lands in both label
    directories. *)
Example shared_label_lands_in_both_splits :
  let run := split_and_copy lcg (demo_env demo_names_1) "/data/images" "/data/labels"
               demo_ratio 42 demo_world in
  fst run = Ok tt /\
  fs (snd run) !! "/data/train/labels/a.txt" = demo_fs !! "/data/labels/a.txt" /\
  fs (snd run) !! "/data/valid/labels/a.txt" = demo_fs !! "/data/labels/a.txt" /\
  out (snd run) =
    [MsgFound "/data/images" 4;
     MsgNoLabel "/data/images/c.jpg" "/data/labels/c.txt";
     MsgValidCount 3; MsgSplitCount 2 1; MsgOutput "/data";
     MsgDir "/data/train/images"; MsgDir "/data/train/labels";
     MsgDir "/data/valid/images"; MsgDir "/data/valid/labels";
     MsgCopyStart "Train"; MsgCopied "Train" "a.jpg" "a.txt";
     MsgCopied "Train" "b.jpg" "b.txt"; MsgCopyStart "Valid";
     MsgCopied "Valid" "a.jpeg" "a.txt"; MsgDone].
Proof. repeat split; vm_compute; reflexivity. Qed.


(** ** Enumeration order and duplicates *)

(** Listing the directories in another order permutes what a glob finds. *)
Lemma glob_Permutation (E1 E2 : Env) (pathname : string) :
  (forall d, listing E1 d ≡ₚ listing E2 d) ->
  (forall p, glob_dirs E1 p ≡ₚ glob_dirs E2 p) ->
  glob E1 pathname ≡ₚ glob E2 pathname.
Proof.
  intros Hl Hg. unfold glob. destruct (path_split pathname) as [d b].
  destruct (has_magic d); [apply Hg|].
  apply fmap_Permutation. apply filter_Permutation.
  destruct (is_hidden b); [apply Hl|]. apply filter_Permutation. apply Hl.
Qed.

Lemma image_files_of_enumeration (E1 E2 : Env) (images_dir : string) :
  (forall d, listing E1 d ≡ₚ listing E2 d) ->
  (forall p, glob_dirs E1 p ≡ₚ glob_dirs E2 p) ->
  image_files_of E1 images_dir = image_files_of E2 images_dir.
Proof.
  intros Hl Hg. apply sorted_perm_eq.
  rewrite (glob_Permutation E1 E2 (join images_dir "*.jpg") Hl Hg).
  rewrite (glob_Permutation E1 E2 (join images_dir "*.jpeg") Hl Hg).
  reflexivity.
Qed.

Lemma jpg_is_not_jpeg_name (s1 s2 : string) : s1 +:+ ".jpg" <> s2 +:+ ".jpeg".
Proof.
  revert s1. induction s2 as [|b s2 IH]; intros s1 Heq.
  - assert (Hlen : String.length s1 = 1%nat).
    { apply (f_equal String.length) in Heq. rewrite !length_app_str in Heq.
      simpl in Heq. lia. }
    destruct s1 as [|a [|a' s1]]; try discriminate Hlen.
    rewrite app_cons, !app_empty_l in Heq. discriminate Heq.
  - destruct s1 as [|a s1].
    + apply (f_equal String.length) in Heq. rewrite !length_app_str in Heq.
      simpl in Heq. lia.
    + rewrite !app_cons in Heq. injection Heq as _ Heq. exact (IH _ Heq).
Qed.

(** A directory that lists no name twice gives no image path twice, and
    so no pair twice. *)
Lemma image_files_of_NoDup (E : Env) (images_dir : string) :
  norm_dir images_dir = true -> has_magic images_dir = false ->
  listing_ok E images_dir -> NoDup (listing E images_dir) ->
  NoDup (image_files_of E images_dir).
Proof.
  intros Hd Hm Hok Hnd. unfold image_files_of. rewrite sorted_Permutation.
  rewrite !glob_star by (assumption || reflexivity).
  assert (Hinj : forall l : list string,
            (forall n, n ∈ l -> n ∈ listing E images_dir) -> NoDup l ->
            NoDup (join images_dir <$> l)).
  { intros l Hsub Hl. apply NoDup_fmap_2_strong; [|exact Hl].
    intros x y Hx Hy Heq.
    apply join_inj in Heq as [_ ?]; auto. }
  assert (Hsub : forall (pat : string) n,
            n ∈ filter (fun n => fnmatch pat n = true)
                  (filter (fun n => is_hidden n = false) (listing E images_dir)) ->
            n ∈ listing E images_dir).
  { intros pat n Hn. apply list_elem_of_filter in Hn as [_ Hn].
    apply list_elem_of_filter in Hn as [_ Hn]. exact Hn. }
  apply NoDup_app. split; [|split].
  - apply Hinj; [apply Hsub|]. do 2 apply NoDup_filter. exact Hnd.
  - intros p Hp1 Hp2.
    apply list_elem_of_fmap in Hp1 as (n1 & -> & Hn1).
    apply list_elem_of_fmap in Hp2 as (n2 & Heq & Hn2).
    apply join_inj in Heq as [_ ->]; eauto.
    apply list_elem_of_filter in Hn1 as [Hm1 _].
    apply list_elem_of_filter in Hn2 as [Hm2 _].
    apply fnmatch_star_literal in Hm1 as [s1 Hs1]; [|reflexivity..].
    apply fnmatch_star_literal in Hm2 as [s2 Hs2]; [|reflexivity..].
    rewrite Hs1 in Hs2. exact (jpg_is_not_jpeg_name _ _ Hs2).
  - apply Hinj; [apply Hsub|]. do 2 apply NoDup_filter. exact Hnd.
Qed.

Lemma discovered_pairs_NoDup (E : Env) (images_dir labels_dir : string)
    (m : gmap string node) :
  norm_dir images_dir = true -> has_magic images_dir = false ->
  listing_ok E images_dir -> NoDup (listing E images_dir) ->
  NoDup (pair_of labels_dir <$>
           filter (fun i => has_label m labels_dir i = true) (image_files_of E images_dir)).
Proof.
  intros Hd Hm Hok Hnd. apply (NoDup_fmap_2 _). apply NoDup_filter.
  apply image_files_of_NoDup; assumption.
Qed.

(** ** An images directory with wildcards in its name

    The images directory is [/data/[ab]]; the globs take the brackets
    for a character class and return files of [/data/a] and [/data/b]:
    the image inside [/data/[ab]] is never found, and two sources with
    one file name land on one destination, which keeps the bytes of the
    one copied last. *)
Example wildcard_directory_mixes_sources :
  let run := split_and_copy lcg demo_env_wild "/data/[ab]" "/data/labels" ratio_one 42
               demo_world_wild in
  has_magic "/data/[ab]" = true /\
  fst (select_split lcg demo_env_wild "/data/[ab]" "/data/labels" ratio_one 42 demo_world_wild)
    = Ok ([("/data/b/x.jpg", "/data/labels/x.txt"); ("/data/a/x.jpg", "/data/labels/x.txt")],
          []) /\
  fst run = Ok tt /\
  fs (snd run) !! "/data/train/images/x.jpg" = fs demo_world_wild !! "/data/a/x.jpg" /\
  fs (snd run) !! "/data/train/images/x.jpg" <> fs demo_world_wild !! "/data/b/x.jpg".
Proof.
  intros run. split; [reflexivity|]. split; [vm_compute; reflexivity|].
  split; [vm_compute; reflexivity|]. split; [vm_compute; reflexivity|].
  vm_compute. intros [=].
Qed.

(** * Further properties of the script

    ** The pairing loop as a whole *)

Lemma length_filter_bool {A} (f : A -> bool) (l : list A) :
  (length (filter (fun a => f a = true) l) + length (filter (fun a => f a = false) l))%nat
  = length l.
Proof.
  induction l as [|a l IH]; [reflexivity|].
  rewrite !filter_cons. destruct (f a).
  - destruct (decide (true = true)); [|congruence].
    destruct (decide (true = false)); [congruence|]. cbn [length]. lia.
  - destruct (decide (false = true)); [congruence|].
    destruct (decide (false = false)); [|congruence]. cbn [length]. lia.
Qed.

(** X1: the pairing loop keeps what it was given and appends, in the
    order of the image list, one pair per image whose label exists;
    every pair it adds carries the label path derived from its image and
    that label is on disk; and the pairs added and the warnings printed
    add up to the number of images. *)
Theorem pairing_accounts_for_every_image {G} (labels_dir : string)
    (image_files : list string) (acc : list (string * string)) (w : world G) :
  exists added warnings,
    pair_loop labels_dir image_files acc w
      = (Ok (acc ++ added)%list, World (fs w) (out w ++ warnings)%list (rng w)) /\
    added.*1 = filter (fun i => has_label (fs w) labels_dir i = true) image_files /\
    (forall p, p ∈ added ->
       p.2 = label_path_of labels_dir p.1 /\ is_Some (fs w !! p.2)) /\
    (length added + length warnings)%nat = length image_files.
Proof.
  eexists _, _. split; [apply pair_loop_spec|]. split; [apply fst_pair_of|]. split.
  - intros p Hp. apply list_elem_of_fmap in Hp as (i & -> & Hi).
    apply list_elem_of_filter in Hi as [Hi _]. cbn [pair_of fst snd].
    split; [reflexivity|]. apply is_some_node_true. exact Hi.
  - rewrite !length_fmap. apply length_filter_bool.
Qed.

(** ** Seeding, discovery and partition: what they leave behind *)


(** ** What discovery finds *)

(** X3: for an images directory whose path is normalised and free of
    glob wildcards, the image list of lines 69-73 holds exactly the
    paths [images_dir/<name>] of the listed names that are not hidden
    and end in [.jpg] or [.jpeg]. *)
Theorem discovery_finds_exactly_the_visible_jpg_and_jpeg_names
    (E : Env) (images_dir img : string) :
  norm_dir images_dir = true -> has_magic images_dir = false ->
  img ∈ image_files_of E images_dir <->
  exists stem ext,
    (ext = ".jpg" \/ ext = ".jpeg") /\
    (stem +:+ ext) ∈ listing E images_dir /\
    is_hidden (stem +:+ ext) = false /\
    img = join images_dir (stem +:+ ext).
Proof.
  intros Hd Hm. unfold image_files_of. rewrite sorted_Permutation, elem_of_app.
  rewrite !glob_star by (assumption || reflexivity).
  assert (Hone : forall lit,
            contains "*" lit = false -> contains "?" lit = false ->
            img ∈ join images_dir <$>
                    filter (fun n => fnmatch (String "*" lit) n = true)
                      (filter (fun n => is_hidden n = false) (listing E images_dir)) <->
            exists stem, (stem +:+ lit) ∈ listing E images_dir /\
                         is_hidden (stem +:+ lit) = false /\
                         img = join images_dir (stem +:+ lit)).
  { intros lit Hs Hq. rewrite list_elem_of_fmap. split.
    - intros (n & -> & Hn). apply list_elem_of_filter in Hn as [Hmatch Hn].
      apply list_elem_of_filter in Hn as [Hhid Hn].
      apply fnmatch_star_literal in Hmatch as [stem ->]; [|assumption..]. eauto.
    - intros (stem & Hin & Hhid & ->). exists (stem +:+ lit). split; [reflexivity|].
      apply list_elem_of_filter. split; [apply fnmatch_star_literal; eauto|].
      apply list_elem_of_filter. split; assumption. }
  rewrite (Hone ".jpg"), (Hone ".jpeg") by reflexivity. split.
  - intros [(stem & ? & ? & ?)|(stem & ? & ? & ?)]; eauto 10.
  - intros (stem & ext & [->| ->] & ? & ? & ?); eauto 10.
Qed.

Lemma discovery_finds_exactly_the_visible_jpg_and_jpeg_names_witness :
  let E := demo_env demo_names_1 in
  norm_dir "/data/images" = true /\ has_magic "/data/images" = false /\
  ("/data/images/a.jpeg" ∈ image_files_of E "/data/images" <->
   exists stem ext,
     (ext = ".jpg" \/ ext = ".jpeg") /\
     (stem +:+ ext) ∈ listing E "/data/images" /\
     is_hidden (stem +:+ ext) = false /\
     "/data/images/a.jpeg" = join "/data/images" (stem +:+ ext)).
Proof.
  intros E. split; [reflexivity|]. split; [reflexivity|].
  apply (discovery_finds_exactly_the_visible_jpg_and_jpeg_names E "/data/images"
           "/data/images/a.jpeg"); reflexivity.
Defined.

(** X4: the match is on the lower-case extensions only: a listed name
    that does not end in the letter [g], such as [<stem>.JPG],
    [<stem>.JPEG] or [<stem>.png], is never in the image list, although
    the comment of line 68 says the search ignores case. *)
Theorem names_not_ending_in_g_are_not_discovered
    (E : Env) (images_dir name : string) :
  norm_dir images_dir = true -> has_magic images_dir = false ->
  listing_ok E images_dir ->
  is_name name = true -> endswith "g" name = false ->
  join images_dir name ∉ image_files_of E images_dir.
Proof.
  intros Hd Hm Hok Hn Hg Hin.
  destruct (image_files_of_elem E images_dir _ Hd Hm Hok Hin)
    as (name' & Heq & _ & Hn' & Hg' & _).
  apply join_inj in Heq as [_ ->]; auto. congruence.
Qed.

Lemma names_not_ending_in_g_are_not_discovered_witness :
  let E := demo_env ["a.JPG"; "b.jpg"; "c.JPEG"] in
  norm_dir "/data/images" = true /\ has_magic "/data/images" = false /\
  listing_ok E "/data/images" /\
  is_name "a.JPG" = true /\ endswith "g" "a.JPG" = false /\
  join "/data/images" "a.JPG" ∉ image_files_of E "/data/images".
Proof.
  intros E.
  assert (Hok : listing_ok E "/data/images") by (apply demo_listing_ok; repeat constructor).
  split; [reflexivity|]. split; [reflexivity|]. split; [exact Hok|].
  split; [reflexivity|]. split; [reflexivity|].
  exact (names_not_ending_in_g_are_not_discovered E "/data/images" "a.JPG"
           eq_refl eq_refl Hok eq_refl eq_refl).
Defined.

(** X5: when the images directory lists no name twice, discovery gives
    no image path twice and the pairing loop gives no pair twice, and no
    image is in two pairs. *)
Theorem discovery_gives_distinct_pairs
    (E : Env) (images_dir labels_dir : string) {G} (w : world G) :
  norm_dir images_dir = true -> has_magic images_dir = false ->
  listing_ok E images_dir -> NoDup (listing E images_dir) ->
  NoDup (image_files_of E images_dir) /\
  exists valid_pairs w',
    pair_loop labels_dir (image_files_of E images_dir) [] w = (Ok valid_pairs, w') /\
    NoDup valid_pairs /\ NoDup valid_pairs.*1.
Proof.
  intros Hd Hm Hok Hnd.
  pose proof (image_files_of_NoDup E images_dir Hd Hm Hok Hnd) as Himg.
  split; [exact Himg|].
  eexists _, _. split; [apply pair_loop_spec|]. cbn [app]. split.
  - apply discovered_pairs_NoDup; assumption.
  - rewrite fst_pair_of. apply NoDup_filter. exact Himg.
Qed.

Lemma discovery_gives_distinct_pairs_witness :
  let E := demo_env demo_names_1 in
  norm_dir "/data/images" = true /\ has_magic "/data/images" = false /\
  listing_ok E "/data/images" /\ NoDup (listing E "/data/images") /\
  NoDup (image_files_of E "/data/images") /\
  exists valid_pairs w',
    pair_loop "/data/labels" (image_files_of E "/data/images") [] demo_world
      = (Ok valid_pairs, w') /\
    NoDup valid_pairs /\ NoDup valid_pairs.*1.
Proof.
  intros E.
  assert (Hok : listing_ok E "/data/images") by (apply demo_listing_ok; repeat constructor).
  assert (Hnd : NoDup (listing E "/data/images")).
  { apply (bool_decide_unpack _). vm_compute. exact I. }
  split; [reflexivity|]. split; [reflexivity|]. split; [exact Hok|]. split; [exact Hnd|].
  exact (discovery_gives_distinct_pairs E "/data/images" "/data/labels" demo_world
           eq_refl eq_refl Hok Hnd).
Defined.

(** ** The two ends of the ratio *)

Lemma digits2_pos_unique (x : positive) (d : Z) :
  2 ^ (d - 1) <= Z.pos x < 2 ^ d -> Z.pos (digits2_pos x) = d.
Proof.
  intros [Hlo Hhi]. pose proof (digits2_pos_bounds x) as [Hlo' Hhi'].
  set (d' := Z.pos (digits2_pos x)) in *.
  assert (Hd' : 0 < d') by (subst d'; lia).
  assert (Hd : 0 < d).
  { destruct (Z.lt_ge_cases 0 d) as [?|Hneg]; [assumption|].
    assert (2 ^ d <= 2 ^ 0) by (destruct (Z.eq_dec d 0) as [->|?];
      [lia|rewrite Z.pow_neg_r by lia; simpl; lia]).
    simpl in *. lia. }
  destruct (Z.lt_trichotomy d d') as [Hlt|[Heq|Hgt]]; [|exact (eq_sym Heq)|].
  - assert (2 ^ d <= 2 ^ (d' - 1)) by (apply Z.pow_le_mono_r; lia). lia.
  - assert (2 ^ d' <= 2 ^ (d - 1)) by (apply Z.pow_le_mono_r; lia). lia.
Qed.

(** The double of an int below [2^53] has a full mantissa. *)
Lemma float_of_int_canonical (p : positive) :
  Z.pos p < 2 ^ 53 ->
  exists mz ez,
    float_of_int (Z.pos p) = Ok (S754_finite false mz ez) /\
    -52 <= ez <= 0 /\ Z.pos mz = Z.pos p * 2 ^ (- ez) /\
    Z.pos (digits2_pos mz) = 53.
Proof.
  intros Hp. destruct (float_of_int_small p Hp) as (mz & ez & Hf & Hez & Hmz).
  exists mz, ez. split; [exact Hf|].
  (* the exponent is [digits p - 53] *)
  unfold float_of_int, binary_normalize, binary_round in Hf.
  rewrite fexp64_unfold in Hf.
  pose proof (digits2_pos_bounds p) as [Hlo Hhi].
  set (d := Z.pos (digits2_pos p)) in *.
  assert (Hd : 0 < d <= 53).
  { split; [subst d; lia|].
    destruct (Z.le_gt_cases d 53) as [?|Hgt]; [assumption|].
    assert (2 ^ 53 <= 2 ^ (d - 1)) by (apply Z.pow_le_mono_r; lia). lia. }
  replace (Z.max (d + 0 - 53) (-1074)) with (d - 53) in Hf by lia.
  assert (Hez' : ez = d - 53).
  { unfold shl_align in Hf. destruct (d - 53 - 0) as [|q|q] eqn:Hq; try lia.
    - rewrite binary_round_aux_exact in Hf;
        [injection Hf as _ <-; lia|rewrite fexp64_unfold; simpl Zdigits2; fold d; lia|lia].
    - rewrite Pos2Nat.inj_iter in Hf.
      change (nat_rect (fun _ => positive) p (fun _ => xO) (Pos.to_nat q))
        with (Nat.iter (Pos.to_nat q) xO p) in Hf.
      destruct (iter_xO_spec (Pos.to_nat q) p) as [_ Hdig].
      rewrite positive_nat_Z in Hdig. fold d in Hdig.
      rewrite binary_round_aux_exact in Hf;
        [injection Hf as _ <-; lia
        |rewrite fexp64_unfold; simpl Zdigits2; rewrite Hdig; lia|lia]. }
  split; [lia|]. split; [exact Hmz|].
  apply digits2_pos_unique. rewrite Hmz. subst ez.
  replace (- (d - 53)) with (53 - d) by lia.
  assert (Hp2 : 0 < 2 ^ (53 - d)) by (apply Z.pow_pos_nonneg; lia).
  split.
  - replace (53 - 1) with ((d - 1) + (53 - d)) by lia. rewrite Z.pow_add_r by lia. nia.
  - replace 53 with (d + (53 - d)) at 2 by lia. rewrite Z.pow_add_r by lia. nia.
Qed.

(** Multiplying the double of a count by 1.0 gives it back. *)
Lemma float_mul_one (mz : positive) (ez : Z) :
  -52 <= ez <= 0 -> Z.pos (digits2_pos mz) = 53 ->
  float_mul (S754_finite false mz ez) ratio_one = S754_finite false mz ez.
Proof.
  intros Hez Hdig. unfold float_mul, ratio_one. cbn [SFmul xorb].
  set (M := (mz * 4503599627370496)%positive).
  assert (HM : Z.pos M = Z.pos mz * 2 ^ 52) by (subst M; rewrite Pos2Z.inj_mul; reflexivity).
  pose proof (digits2_pos_bounds mz) as [Hlo Hhi]. rewrite Hdig in Hlo, Hhi.
  assert (HdM : Z.pos (digits2_pos M) = 105).
  { apply digits2_pos_unique. rewrite HM.
    change (2 ^ (105 - 1)) with (2 ^ 52 * 2 ^ 52).
    change (2 ^ 105) with (2 ^ 53 * 2 ^ 52).
    change (2 ^ (53 - 1)) with (2 ^ 52) in Hlo.
    assert (0 < 2 ^ 52) by reflexivity. nia. }
  unfold binary_round_aux.
  destruct (shr_fexp_exact_spec (Z.pos M) (ez + -52) ltac:(lia)) as (mrs & Hshr & Hcase).
  rewrite fexp64_unfold in Hshr, Hcase. simpl Zdigits2 in Hshr, Hcase.
  rewrite HdM in Hshr, Hcase.
  replace (Z.max (105 + (ez + -52) - 53) (-1074) - (ez + -52)) with 52 in Hshr, Hcase by lia.
  replace (Z.max (ez + -52) (ez + -52 + 52)) with ez in Hshr by lia.
  rewrite Hshr. destruct Hcase as [[? _]|(_ & Hm & Hloc)]; [lia|].
  assert (Hq : Z.pos M / 2 ^ 52 = Z.pos mz).
  { rewrite HM. apply Z.div_mul. discriminate. }
  assert (Hexact : loc_of_shr_record mrs = loc_Exact).
  { destruct (loc_of_shr_record mrs) eqn:Hl; [reflexivity|].
    exfalso. apply Hloc; [discriminate|]. rewrite HM. apply Z.mod_mul. discriminate. }
  rewrite Hexact, Hm, Hq. cbn [round_nearest_even].
  destruct (shr_fexp_exact_spec (Z.pos mz) ez ltac:(lia)) as (mrs2 & Hshr2 & Hcase2).
  rewrite fexp64_unfold in Hshr2, Hcase2. simpl Zdigits2 in Hshr2, Hcase2.
  rewrite Hdig in Hshr2, Hcase2.
  replace (Z.max (53 + ez - 53) (-1074) - ez) with 0 in Hshr2, Hcase2 by lia.
  replace (Z.max ez (ez + 0)) with ez in Hshr2 by lia.
  rewrite Hshr2. destruct Hcase2 as [[_ ->]|[? _]]; [|lia].
  cbn [shr_m]. change (emax64 - prec64) with 971.
  destruct (Z.leb_spec ez 971); [reflexivity|lia].
Qed.

Lemma train_count_of_one (total : nat) :
  Z.of_nat total < 2 ^ 53 -> train_count_of total ratio_one = Ok (Z.of_nat total).
Proof.
  intros Htot. unfold train_count_of.
  destruct (Z.of_nat total) as [|p|p] eqn:Hn; [reflexivity| |lia].
  destruct (float_of_int_canonical p Htot) as (mz & ez & Hf & Hez & Hmz & Hdig).
  rewrite Hf. cbn [mbind result_bind]. rewrite float_mul_one by assumption.
  cbn [int_of_float]. f_equal.
  assert (Hp2 : 0 < 2 ^ (- ez)) by (apply Z.pow_pos_nonneg; lia).
  destruct (Z.leb_spec 0 ez) as [?|?].
  - assert (ez = 0) by lia. subst ez. simpl in Hmz. simpl. lia.
  - rewrite Hmz. apply Z.div_mul. lia.
Qed.





(** ** [create_dir_structure]: progress and frame *)

Lemma is_dir_true (n : option node) : is_dir n = true <-> n = Some Dir.
Proof. destruct n as [[|c]|]; simpl; split; congruence. Qed.

Lemma mkdir_or_exists_Ok {G} (name : string) (v v' : world G) :
  match mkdir name v with
  | (Ok tt, v1) => (Ok tt, v1)
  | (Raise e, v1) => if is_dir (fs v1 !! name) then (Ok tt, v1) else (Raise e, v1)
  end = (Ok tt, v') ->
  fs v' !! name = Some Dir.
Proof.
  unfold mkdir. destruct (fs v !! name) as [n|] eqn:Hn.
  - rewrite Hn. destruct n as [|c]; cbn [is_dir]; intros [= <-]; exact Hn.
  - destruct (fs v !! dirname name) as [[|c]|] eqn:Hp.
    + intros [= <-]. cbn [fs]. apply lookup_insert_eq.
    + rewrite Hn. cbn [is_dir]. intros [=].
    + rewrite Hn. cbn [is_dir]. intros [=].
Qed.

(** When [makedirs] returns, its argument is a directory. *)
Lemma makedirs_Ok_is_dir {G} (d t : string) (w w' : world G) :
  norm_dir d = true -> is_name t = true -> t <> "." ->
  makedirs (join d t) w = (Ok tt, w') ->
  fs w' !! join d t = Some Dir.
Proof.
  intros Hd Ht Hdot. pose proof Ht as Ht'. apply is_name_spec in Ht' as [Hsep Hne].
  unfold makedirs. cbn [makedirs_rec]. rewrite path_split_join by assumption.
  rewrite (bool_decide_eq_false_2 (t = "")) by assumption.
  rewrite (bool_decide_eq_false_2 (t = ".")) by assumption.
  destruct (bool_decide (d ≠ "") && bool_decide (t ≠ "") && negb (is_some_node (fs w !! d))).
  - destruct (makedirs_rec (String.length (join d t)) d w) as [[[]|e] w1];
      [intros H; exact (mkdir_or_exists_Ok _ _ _ H)|].
    destruct e; try (intros Hx; discriminate Hx).
    intros H; exact (mkdir_or_exists_Ok _ _ _ H).
  - intros H; exact (mkdir_or_exists_Ok _ _ _ H).
Qed.

Lemma output_dirs_shape (base d : string) :
  d ∈ output_dirs base ->
  exists s t, d = join (join base s) t /\ is_name s = true /\ is_name t = true /\ t <> ".".
Proof.
  unfold output_dirs. rewrite !elem_of_cons, elem_of_nil.
  intros [->|[->|[->|[->|[]]]]]; eexists _, _; (split; [reflexivity|]);
    repeat split; discriminate.
Qed.

Lemma create_dirs_loop_progress {G} (base : string) (dirs : list string)
    (w w' : world G) (r : result unit) :
  (forall d, d ∈ dirs -> d ∈ output_dirs base) ->
  create_dirs_loop dirs w = (r, w') ->
  exists done rest,
    dirs = (done ++ rest)%list /\
    out w' = (out w ++ (MsgDir <$> done))%list /\
    (forall d, d ∈ done -> fs w' !! d = Some Dir) /\
    (r = Ok tt -> rest = []) /\
    (forall e, r = Raise e -> rest <> []).
Proof.
  revert w. induction dirs as [|d dirs IH]; intros w Hin.
  - cbn. intros [= <- <-]. exists [], [].
    split; [reflexivity|]. split; [symmetry; apply app_nil_r|]. split; [|split].
    + intros d Hd. apply elem_of_nil in Hd. contradiction.
    + reflexivity.
    + discriminate.
  - cbn [create_dirs_loop]. unfold mbind, prog_bind.
    destruct (makedirs d w) as [[[]|e] w1] eqn:Hmk.
    + unfold print. intros Hrest.
      pose proof Hrest as Hgrow.
      apply (create_dirs_loop_grows (String.length (join (join base "train") "images")))
        in Hgrow as [Hgrow _].
      2:{ intros d' Hd'. rewrite (length_output_dirs base d'); [reflexivity|].
          apply Hin. apply list_elem_of_further. exact Hd'. }
      apply IH in Hrest as (done & rest & -> & Hout & Hdone & Hok & Herr).
      2:{ intros d' Hd'. apply Hin. apply list_elem_of_further. exact Hd'. }
      cbn [fs out] in *.
      assert (Hd : fs w1 !! d = Some Dir).
      { destruct (output_dirs_shape base d) as (s & t & -> & Hs & Ht & Hdot);
          [apply Hin; apply list_elem_of_here|].
        apply is_name_spec in Hs as [? ?].
        eapply makedirs_Ok_is_dir; eauto using norm_dir_join. }
      exists (d :: done), rest. split; [reflexivity|]. split.
      * rewrite Hout, fmap_cons, <- app_assoc. unfold makedirs in Hmk.
        apply makedirs_rec_grows in Hmk as (_ & -> & _). reflexivity.
      * split; [|split; assumption].
        intros d' Hd'. apply elem_of_cons in Hd' as [->|Hd']; [|auto].
        destruct (Hgrow d) as [->|(Hnone & _)]; [exact Hd|congruence].
    + intros [= <- <-]. exists [], (d :: dirs).
      unfold makedirs in Hmk.
      apply makedirs_rec_grows in Hmk as (_ & -> & _).
      split; [reflexivity|]. split; [symmetry; apply app_nil_r|]. split; [|split].
      * intros d' Hd'. apply elem_of_nil in Hd'. contradiction.
      * discriminate.
      * discriminate.
Qed.

(** X8: whatever [create_dir_structure] returns, every file and
    directory that was there is still there unchanged, anything new is a
    directory, and the lines it printed name a leading part of the four
    output directories, each of which is a directory afterwards; when it
    returns normally that part is all four. *)
Theorem create_dir_structure_only_adds_directories {G} (base_dir : string)
    (w : world G) :
  exists done rest,
    let run := create_dir_structure base_dir w in
    output_dirs base_dir = (done ++ rest)%list /\
    out (snd run) = (out w ++ (MsgDir <$> done))%list /\
    rng (snd run) = rng w /\
    (forall d, d ∈ done -> fs (snd run) !! d = Some Dir) /\
    (forall p n, fs w !! p = Some n -> fs (snd run) !! p = Some n) /\
    (forall p, fs w !! p = None ->
       fs (snd run) !! p = None \/ fs (snd run) !! p = Some Dir) /\
    (forall dirs, fst run = Ok dirs -> rest = [] /\ dirs = output_dirs base_dir) /\
    (forall e, fst run = Raise e -> rest <> []).
Proof.
  destruct (create_dir_structure base_dir w) as [r w'] eqn:Hrun.
  pose proof (create_dir_structure_grows base_dir w w' r Hrun) as [Hgrow Hrng].
  unfold create_dir_structure, mbind, prog_bind in Hrun.
  destruct (create_dirs_loop (output_dirs base_dir) w) as [r1 w1] eqn:Hloop.
  destruct (create_dirs_loop_progress base_dir _ _ _ _ (fun d H => H) Hloop)
    as (done & rest & Hsplit & Hout & Hdone & Hok & Herr).
  assert (Hw : w' = w1) by (destruct r1 as [[]|e]; injection Hrun as _ <-; reflexivity).
  subst w1. exists done, rest. cbn [fst snd].
  split; [exact Hsplit|]. split; [exact Hout|]. split; [exact Hrng|].
  split; [exact Hdone|]. split; [|split; [|split]].
  - intros p n Hp. destruct (Hgrow p) as [->|(Hnone & _)]; congruence.
  - intros p Hp. destruct (Hgrow p) as [->|(_ & Hdir & _)]; auto.
  - intros dirs ->. destruct r1 as [[]|e]; [|discriminate].
    injection Hrun as <-. split; [apply Hok|]; reflexivity.
  - intros e ->. destruct r1 as [[]|e1]; [discriminate|].
    apply (Herr e1). reflexivity.
Qed.

(** X9: a regular file that stands where [train] or [train/images]
    should be makes [create_dir_structure] raise on the first directory,
    with [exist_ok] of no help: [NotADirectoryError] when [train] is the
    file, [FileExistsError] when [train/images] is; nothing is printed
    and nothing is changed. *)
Theorem create_dir_structure_blocked_by_a_file {G} (base_dir : string)
    (w : world G) (content : list Byte.byte) :
  let train := join base_dir "train" in
  let train_images := join train "images" in
  (fs w !! train = Some (File content) /\ fs w !! train_images = None) \/
  (fs w !! train = Some Dir /\ fs w !! train_images = Some (File content)) ->
  exists e,
    create_dir_structure base_dir w = (Raise e, w) /\
    ((fs w !! train = Some (File content) /\ e = NotADirectoryError train_images) \/
     (fs w !! train_images = Some (File content) /\ e = FileExistsError train_images)).
Proof.
  intros train train_images Hcase.
  assert (Hn : norm_dir train = true) by (apply norm_dir_join; [reflexivity|discriminate]).
  unfold create_dir_structure, output_dirs. cbn [create_dirs_loop].
  unfold mbind, prog_bind. fold train train_images.
  unfold makedirs. cbn [makedirs_rec]. unfold train_images at 1.
  rewrite path_split_join by (assumption || reflexivity || discriminate).
  fold train_images. cbn [bool_decide decide_rel].
  rewrite (bool_decide_eq_false_2 ("images" = "")) by discriminate.
  destruct Hcase as [[HT HTI]|[HT HTI]]; rewrite HT; cbn [is_some_node negb];
    rewrite andb_false_r; unfold mkdir; rewrite HTI.
  - unfold train_images at 1. rewrite dirname_join by (assumption || reflexivity || discriminate).
    rewrite HT. rewrite HTI. cbn [is_dir]. eexists. split; [reflexivity|]. left. auto.
  - rewrite HTI. cbn [is_dir]. eexists. split; [reflexivity|]. right. auto.
Qed.

Lemma create_dir_structure_blocked_by_a_file_witness :
  let w : world (rs_state lcg) :=
    World (<["/data/train" := File (bytes_of "not a directory")]> demo_fs) [] 0 in
  ((fs w !! "/data/train" = Some (File (bytes_of "not a directory")) /\
    fs w !! "/data/train/images" = None) \/
   (fs w !! "/data/train" = Some Dir /\
    fs w !! "/data/train/images" = Some (File (bytes_of "not a directory")))) /\
  exists e,
    create_dir_structure "/data" w = (Raise e, w) /\
    ((fs w !! "/data/train" = Some (File (bytes_of "not a directory")) /\
      e = NotADirectoryError "/data/train/images") \/
     (fs w !! "/data/train/images" = Some (File (bytes_of "not a directory")) /\
      e = FileExistsError "/data/train/images")).
Proof.
  intros w.
  assert (H : (fs w !! "/data/train" = Some (File (bytes_of "not a directory")) /\
               fs w !! "/data/train/images" = None) \/
              (fs w !! "/data/train" = Some Dir /\
               fs w !! "/data/train/images" = Some (File (bytes_of "not a directory")))).
  { left. split; vm_compute; reflexivity. }
  split; [exact H|].
  exact (create_dir_structure_blocked_by_a_file "/data" w (bytes_of "not a directory") H).
Defined.

(** ** When the copies go through *)

Lemma is_file_true (n : option node) : is_file n = true <-> exists c, n = Some (File c).
Proof.
  destruct n as [[|c]|]; simpl; split; try discriminate; eauto.
  - intros [c [=]].
  - intros [c [=]].
Qed.

Lemma is_file_insert_file (m : gmap string node) (d p : string) (c : list Byte.byte) :
  is_file (m !! p) = true -> is_file (<[d := File c]> m !! p) = true.
Proof.
  intros Hp. destruct (decide (d = p)) as [->|Hne].
  - rewrite lookup_insert_eq. reflexivity.
  - rewrite lookup_insert_ne by exact Hne. exact Hp.
Qed.

Lemma copy_ready_insert (m : gmap string node) (d : string) (c : list Byte.byte)
    (op : string * string) :
  is_dir (m !! d) = false -> copy_ready m op -> copy_ready (<[d := File c]> m) op.
Proof.
  intros Hd (Hne & Hs & Hdst & Hpar). unfold copy_ready.
  rewrite !is_dir_insert_file by exact Hd.
  split; [exact Hne|]. split; [apply is_file_insert_file; exact Hs|]. split; assumption.
Qed.

(** A copy that is ready writes the content of its source at its
    destination and changes nothing else. *)
Lemma copy2_ready {G} (src dst : string) (w : world G) :
  copy_ready (fs w) (src, dst) ->
  exists c, fs w !! src = Some (File c) /\
            copy2 src dst w = (Ok dst, World (<[dst := File c]> (fs w)) (out w) (rng w)).
Proof.
  intros (Hne & Hs & Hd & Hpar). cbn [fst snd] in *.
  apply is_file_true in Hs as [c Hs]. apply is_dir_true in Hpar.
  exists c. split; [exact Hs|].
  unfold copy2. rewrite Hd, Hs. rewrite bool_decide_eq_false_2 by exact Hne.
  destruct (fs w !! dst) as [[|c']|]; [discriminate|reflexivity|].
  rewrite Hpar. reflexivity.
Qed.

(** [copy_data] on pairs whose copies are all ready: it returns, prints
    one line for each pair, and leaves directories directories and
    regular files regular files. *)
Lemma copy_data_ready {G} (pairs : list (string * string))
    (img_out_dir label_out_dir set_name : string) (w : world G) :
  (forall op, op ∈ copy_ops pairs img_out_dir label_out_dir -> copy_ready (fs w) op) ->
  exists m',
    copy_data pairs img_out_dir label_out_dir set_name w
      = (Ok tt, World m' (out w ++ copied_lines set_name pairs)%list (rng w)) /\
    (forall p, is_dir (m' !! p) = is_dir (fs w !! p)) /\
    (forall p, is_file (fs w !! p) = true -> is_file (m' !! p) = true) /\
    (forall p, is_Some (fs w !! p) -> is_Some (m' !! p)).
Proof.
  revert w. induction pairs as [|[img lbl] rest IH]; intros w Hready.
  - exists (fs w). cbn. unfold mret, prog_ret. rewrite app_nil_r.
    destruct w; cbn. auto.
  - set (d1 := join img_out_dir (basename img)).
    set (d2 := join label_out_dir (basename lbl)).
    assert (Hin : forall op, op ∈ copy_ops rest img_out_dir label_out_dir ->
                             op ∈ copy_ops ((img, lbl) :: rest) img_out_dir label_out_dir).
    { intros op Hop. unfold copy_ops. cbn [mbind list_bind]. fold d1 d2.
      apply elem_of_app. right. exact Hop. }
    assert (H1 : copy_ready (fs w) (img, d1)).
    { apply Hready. unfold copy_ops. cbn [mbind list_bind]. fold d1.
      apply list_elem_of_here. }
    assert (H2 : copy_ready (fs w) (lbl, d2)).
    { apply Hready. unfold copy_ops. cbn [mbind list_bind]. fold d2.
      apply list_elem_of_further, list_elem_of_here. }
    pose proof H1 as (_ & _ & Hd1 & _). pose proof H2 as (_ & _ & Hd2 & _).
    cbn [fst snd] in Hd1, Hd2.
    destruct (copy2_ready img d1 w H1) as (c1 & Hc1 & Hrun1).
    set (w1 := World (<[d1 := File c1]> (fs w)) (out w) (rng w)) in *.
    assert (H2' : copy_ready (fs w1) (lbl, d2)) by (apply copy_ready_insert; assumption).
    destruct (copy2_ready lbl d2 w1 H2') as (c2 & Hc2 & Hrun2).
    set (w2 := World (<[d2 := File c2]> (fs w1)) (out w1) (rng w1)) in *.
    assert (Hd2' : is_dir (fs w1 !! d2) = false).
    { cbn [fs w1]. rewrite is_dir_insert_file by exact Hd1. exact Hd2. }
    destruct (IH (World (fs w2) (out w2 ++ [MsgCopied set_name (basename img) (basename lbl)])%list
                    (rng w2))) as (m' & Hrun & Hdir & Hfile & Hsome).
    { intros op Hop. cbn [fs w2 w1].
      apply copy_ready_insert; [exact Hd2'|].
      apply copy_ready_insert; [exact Hd1|]. apply Hready, Hin, Hop. }
    exists m'. split; [|split; [|split]].
    + cbn [copy_data]. unfold mbind, prog_bind. fold d1 d2.
      rewrite Hrun1. fold w1. rewrite Hrun2. fold w2. unfold print. rewrite Hrun.
      cbn [out rng w2 w1]. unfold copied_lines. rewrite fmap_cons, <- app_assoc.
      reflexivity.
    + intros p. rewrite Hdir. cbn [fs w2 w1].
      rewrite is_dir_insert_file by exact Hd2'. apply is_dir_insert_file. exact Hd1.
    + intros p Hp. apply Hfile. cbn [fs w2 w1].
      apply is_file_insert_file, is_file_insert_file. exact Hp.
    + intros p Hp. apply Hsome. cbn [fs w2 w1].
      destruct (decide (d2 = p)) as [->|Hne2]; [rewrite lookup_insert_eq; eauto|].
      rewrite lookup_insert_ne by exact Hne2.
      destruct (decide (d1 = p)) as [->|Hne1]; [rewrite lookup_insert_eq; eauto|].
      rewrite lookup_insert_ne by exact Hne1. exact Hp.
Qed.

Lemma copy_ready_mono (m m' : gmap string node) (op : string * string) :
  (forall p, is_dir (m' !! p) = is_dir (m !! p)) ->
  (forall p, is_file (m !! p) = true -> is_file (m' !! p) = true) ->
  copy_ready m op -> copy_ready m' op.
Proof.
  intros Hdir Hfile (Hne & Hs & Hd & Hpar). unfold copy_ready.
  rewrite !Hdir. auto.
Qed.

Lemma endswith_rstrip (c : ascii) (s : string) : endswith c (rstrip c s) = false.
Proof.
  induction s as [|a s IH]; [reflexivity|].
  rewrite rstrip_cons. destruct (rstrip c s) as [|b r].
  - rewrite (bool_decide_eq_true_2 ("" = "")) by reflexivity. rewrite andb_true_r.
    destruct (bool_decide (a = c)) eqn:Ha; [reflexivity|]. cbn [endswith]. exact Ha.
  - rewrite (bool_decide_eq_false_2 (String b r = "")) by discriminate.
    rewrite andb_false_r, endswith_cons. exact IH.
Qed.

(** What [dirname] returns has no trailing slash, unless it is made of
    slashes only. *)
Lemma norm_dir_dirname (p : string) : norm_dir (dirname p) = true.
Proof.
  unfold dirname, path_split. destruct (cut_after_last_sep p) as [h t]. cbn [fst].
  unfold strip_head, norm_dir.
  destruct (all_char sep h) eqn:Hall.
  - rewrite andb_false_r, Hall. apply orb_true_r.
  - case_bool_decide as Hne; cbn [andb negb].
    + rewrite endswith_rstrip. reflexivity.
    + subst h. discriminate.
Qed.

Section MaterializeReady.
Variable R : RandomSource.
Variables images_dir labels_dir : string.
Hypothesis images_norm : norm_dir images_dir = true.
Hypothesis labels_norm : norm_dir labels_dir = true.

Let base := dirname images_dir.

Lemma out_dir_in_tree (split kind : string) :
  split = "train" \/ split = "valid" -> kind = "images" \/ kind = "labels" ->
  join (join base split) kind ∈ tree_dirs base.
Proof.
  unfold tree_dirs, output_dirs. cbn [app].
  intros [->| ->] [->| ->]; rewrite !elem_of_cons; auto 8.
Qed.

(** A copy of the run's shape is ready once the output directories are
    made, if its source is a regular file, no directory stands at its
    destination and the labels directory is not an output labels
    directory. *)
Lemma op_shape_ready (m0 m : gmap string node) (o : string * string) :
  op_shape images_dir labels_dir o ->
  labels_dir <> join (join base "train") "labels" ->
  labels_dir <> join (join base "valid") "labels" ->
  tree_ok base m0 -> no_subdirs base m0 ->
  grows (String.length (join (join base "train") "images")) m0 m ->
  (forall d, d ∈ tree_dirs base -> m !! d = Some Dir) ->
  is_file (m0 !! o.1) = true ->
  copy_ready m o.
Proof.
  intros Hsh Ht Hv [_ Htree] Hno Hg Hdirs Hsrc.
  pose proof (op_shape_dst_length images_dir labels_dir o Hsh) as Hlen. fold base in Hlen.
  pose proof (op_shape_no_subdirs images_dir labels_dir m0 o Hno Hsh) as Hdst.
  assert (Hpar : m !! dirname o.2 = Some Dir).
  { destruct Hsh as (X & n & HX & Hn & [[-> _]|[-> _]]); cbn [snd]; fold base;
      pose proof Hn as Hn'; apply is_name_spec in Hn' as [? ?];
      (rewrite dirname_join;
       [|apply (out_dir_norm images_dir); [apply split_is_name; exact HX|reflexivity]
        |assumption|assumption]);
      apply Hdirs, out_dir_in_tree; auto. }
  assert (Hne : o.1 <> o.2).
  { destruct Hsh as (X & n & HX & Hn & [[-> _]|[-> _]]); cbn [fst snd]; fold base;
      intros Heq; apply join_inj in Heq as [Hd _];
      try assumption;
      try (apply (out_dir_norm images_dir); [apply split_is_name; exact HX|reflexivity]).
    - symmetry in Hd.
      exact (out_dir_not_images_dir images_dir X "images" (split_is_name X HX) eq_refl Hd).
    - destruct HX as [->| ->]; contradiction. }
  split; [exact Hne|]. split; [|split].
  - destruct (Hg o.1) as [->|(Hnone & _)]; [exact Hsrc|].
    rewrite Hnone in Hsrc. discriminate.
  - destruct (Hg o.2) as [->|(_ & _ & Hle)]; [exact Hdst|lia].
  - rewrite Hpar. reflexivity.
Qed.

(** The materializer on pairs of the run's shape, over a tree that is
    ready for it: it returns, having printed its lines in order, the six
    directories of the output tree are there, and nothing that was there
    is gone. *)
Lemma materialize_ready (train_pairs valid_pairs_ : list (string * string))
    (w : world (rs_state R)) :
  Forall (pair_shape images_dir labels_dir) (train_pairs ++ valid_pairs_) ->
  tree_ok base (fs w) -> no_subdirs base (fs w) ->
  labels_dir <> join (join base "train") "labels" ->
  labels_dir <> join (join base "valid") "labels" ->
  (forall o, o ∈ all_ops images_dir train_pairs valid_pairs_ -> is_file (fs w !! o.1) = true) ->
  exists m m',
    materialize R images_dir train_pairs valid_pairs_ w
      = (Ok tt,
         World m'
           (out w ++ [MsgOutput base]
              ++ (MsgDir <$> output_dirs base)
              ++ [MsgCopyStart "Train"] ++ copied_lines "Train" train_pairs
              ++ [MsgCopyStart "Valid"] ++ copied_lines "Valid" valid_pairs_
              ++ [MsgDone])%list
           (rng w)) /\
    (forall p, m !! p = if bool_decide (p ∈ tree_dirs base) then Some Dir else fs w !! p) /\
    run_ops (all_ops images_dir train_pairs valid_pairs_) m = Some m' /\
    (forall p, is_dir (m' !! p) = is_dir (m !! p)) /\
    (forall p, is_file (m !! p) = true -> is_file (m' !! p) = true) /\
    (forall d, d ∈ tree_dirs base -> m' !! d = Some Dir) /\
    (forall p, is_Some (fs w !! p) -> is_Some (m' !! p)).
Proof.
  intros Hshape Htree Hno Ht Hv Hsrc.
  apply Forall_app in Hshape as [Hst Hsv].
  set (TI := join (join base "train") "images") in *.
  set (TL := join (join base "train") "labels") in *.
  set (VI := join (join base "valid") "images") in *.
  set (VL := join (join base "valid") "labels") in *.
  set (ops1 := copy_ops train_pairs TI TL).
  set (ops2 := copy_ops valid_pairs_ VI VL).
  assert (Hops : all_ops images_dir train_pairs valid_pairs_ = (ops1 ++ ops2)%list) by reflexivity.
  assert (Hsh : forall o, o ∈ (ops1 ++ ops2)%list -> op_shape images_dir labels_dir o).
  { intros o Ho. apply elem_of_app in Ho as [Ho|Ho].
    - apply (copy_ops_shape images_dir labels_dir "train" train_pairs); auto.
    - apply (copy_ops_shape images_dir labels_dir "valid" valid_pairs_); auto. }
  rewrite Hops in Hsrc.
  set (w0 := World (fs w) (out w ++ [MsgOutput base])%list (rng w)).
  destruct (create_dir_structure_run base w0 (norm_dir_dirname images_dir) Htree)
    as (m & Hmk & _ & Hm).
  pose proof (create_dir_structure_grows base w0 _ _ Hmk) as [Hg _]. cbn [fs] in Hg.
  assert (Hdirs : forall d, d ∈ tree_dirs base -> m !! d = Some Dir).
  { intros d Hd. rewrite Hm. rewrite bool_decide_eq_true_2 by exact Hd. reflexivity. }
  assert (Hready : forall o, o ∈ (ops1 ++ ops2)%list -> copy_ready m o).
  { intros o Ho. apply (op_shape_ready (fs w)); auto. }
  set (w1 := World m (out w0 ++ (MsgDir <$> output_dirs base) ++ [MsgCopyStart "Train"])%list
               (rng w0)).
  destruct (copy_data_ready train_pairs TI TL "Train" w1) as (m1 & Hc1 & Hdir1 & Hfile1 & Hsome1).
  { intros o Ho. apply Hready, elem_of_app. left. exact Ho. }
  set (w2 := World m1 (out w1 ++ copied_lines "Train" train_pairs
                         ++ [MsgCopyStart "Valid"])%list (rng w1)).
  destruct (copy_data_ready valid_pairs_ VI VL "Valid" w2) as (m2 & Hc2 & Hdir2 & Hfile2 & Hsome2).
  { intros o Ho. apply (copy_ready_mono m); [exact Hdir1|exact Hfile1|].
    apply Hready, elem_of_app. right. exact Ho. }
  exists m, m2. split; [|split; [exact Hm|split; [|split; [|split; [|split]]]]].
  - unfold materialize, mbind, prog_bind, print. cbn [fs out rng].
    fold base TI TL VI VL w0. rewrite Hmk. cbn [fs out rng].
    replace (World m ((out w0 ++ (MsgDir <$> output_dirs base)) ++ [MsgCopyStart "Train"])%list
               (rng w0)) with w1
      by (unfold w1; rewrite app_assoc; reflexivity).
    rewrite Hc1. cbn [fs out rng].
    replace (World m1 ((out w1 ++ copied_lines "Train" train_pairs)
                         ++ [MsgCopyStart "Valid"])%list (rng w1)) with w2
      by (unfold w2; rewrite app_assoc; reflexivity).
    rewrite Hc2. cbn [fs out rng w2 w1 w0].
    rewrite <- !app_assoc. reflexivity.
  - rewrite Hops, run_ops_app.
    apply copy_data_run in Hc1 as (Hrun1 & _ & _).
    2:{ intros s d Ho. cbn [fs w1].
        destruct (Hready (s, d)) as (_ & _ & Hd & _); [|exact Hd].
        apply elem_of_app. left. exact Ho. }
    apply copy_data_run in Hc2 as (Hrun2 & _ & _).
    2:{ intros s d Ho. cbn [fs w2]. rewrite Hdir1.
        destruct (Hready (s, d)) as (_ & _ & Hd & _); [|exact Hd].
        apply elem_of_app. right. exact Ho. }
    cbn [fs w1 w2] in Hrun1, Hrun2. fold ops1 in Hrun1. fold ops2 in Hrun2.
    rewrite Hrun1. exact Hrun2.
  - intros p. rewrite Hdir2. cbn [fs w2]. rewrite Hdir1. reflexivity.
  - intros p Hp. apply Hfile2. cbn [fs w2]. apply Hfile1. exact Hp.
  - intros d Hd. apply is_dir_true. rewrite Hdir2. cbn [fs w2]. rewrite Hdir1. cbn [fs w1].
    rewrite (Hdirs d Hd). reflexivity.
  - intros p Hp. apply Hsome2. cbn [fs w2]. apply Hsome1. cbn [fs w1].
    destruct (Hg p) as [Heq|(Hnone & _)]; [rewrite Heq; exact Hp|].
    change (fs w !! p = None) in Hnone. rewrite Hnone in Hp. destruct Hp; discriminate.
Qed.
End MaterializeReady.

Lemma copy_ops_elem (pairs : list (string * string)) (img_out_dir label_out_dir : string)
    (o : string * string) :
  o ∈ copy_ops pairs img_out_dir label_out_dir ->
  exists p, p ∈ pairs /\ (o.1 = p.1 \/ o.1 = p.2).
Proof.
  unfold copy_ops. intros Ho. apply list_elem_of_bind in Ho as ([img lbl] & Ho & Hp).
  exists (img, lbl). split; [exact Hp|].
  rewrite !elem_of_cons, elem_of_nil in Ho. destruct Ho as [->|[->|[]]]; cbn; auto.
Qed.

Lemma is_file_of_some (n : option node) :
  is_some_node n = true -> is_dir n = false -> is_file n = true.
Proof. destruct n as [[|c]|]; simpl; congruence. Qed.

(** A run of [split_and_copy] on a well-formed dataset, in full: the
    split is the partition of the valid pairs, the directories are made,
    and the files are what the copies of [all_ops] leave. *)
Lemma split_and_copy_ready
    (R : RandomSource) (E : Env) (images_dir labels_dir : string)
    (train_ratio : spec_float) (seed : Z) (w : world (rs_state R)) :
  let base_dir := dirname images_dir in
  let valid_pairs :=
    pair_of labels_dir <$>
      filter (fun i => has_label (fs w) labels_dir i = true) (image_files_of E images_dir) in
  norm_dir images_dir = true -> norm_dir labels_dir = true ->
  has_magic images_dir = false -> listing_ok E images_dir ->
  tree_ok base_dir (fs w) -> no_subdirs base_dir (fs w) ->
  labels_dir <> join (join base_dir "train") "labels" ->
  labels_dir <> join (join base_dir "valid") "labels" ->
  (forall img, img ∈ image_files_of E images_dir ->
     is_file (fs w !! img) = true /\
     is_dir (fs w !! label_path_of labels_dir img) = false) ->
  in_unit_interval train_ratio = true ->
  Z.of_nat (length (image_files_of E images_dir)) < 2 ^ 53 ->
  exists train_pairs valid_pairs_ g' w1 m m',
    partition R (rs_seed R seed) train_ratio valid_pairs = Ok (train_pairs, valid_pairs_, g') /\
    select_split R E images_dir labels_dir train_ratio seed w
      = (Ok (train_pairs, valid_pairs_), w1) /\
    fs w1 = fs w /\
    split_and_copy R E images_dir labels_dir train_ratio seed w
      = (Ok tt,
         World m'
           (out w1 ++ [MsgOutput base_dir]
              ++ (MsgDir <$> output_dirs base_dir)
              ++ [MsgCopyStart "Train"] ++ copied_lines "Train" train_pairs
              ++ [MsgCopyStart "Valid"] ++ copied_lines "Valid" valid_pairs_
              ++ [MsgDone])%list
           (rng w1)) /\
    Forall (pair_shape images_dir labels_dir) (train_pairs ++ valid_pairs_) /\
    (forall p, m !! p = if bool_decide (p ∈ tree_dirs base_dir) then Some Dir else fs w !! p) /\
    run_ops (all_ops images_dir train_pairs valid_pairs_) m = Some m' /\
    (forall p, is_dir (m' !! p) = is_dir (m !! p)) /\
    (forall p, is_file (m !! p) = true -> is_file (m' !! p) = true) /\
    (forall d, d ∈ tree_dirs base_dir -> m' !! d = Some Dir) /\
    (forall p, is_Some (fs w !! p) -> is_Some (m' !! p)).
Proof.
  intros base_dir valid_pairs Hin Hln Hmagic Hlist Htree Hno Ht Hv Hfiles Hratio Htotal.
  set (image_files := image_files_of E images_dir) in *.
  assert (Hlen : (length valid_pairs <= length image_files)%nat).
  { unfold valid_pairs. rewrite length_fmap.
    pose proof (length_filter_bool (has_label (fs w) labels_dir) image_files). lia. }
  destruct (train_count_of_bounds (length valid_pairs) train_ratio ltac:(lia) Hratio)
    as (ft & k & _ & _ & _ & Hk & _ & _).
  destruct (shuffle_Ok R (rs_seed R seed) valid_pairs) as (shuffled & g' & Hsh & Hperm).
  pose proof (partition_unfold R _ _ _ _ _ _ Hk Hsh) as Hpart.
  pose proof (select_split_spec R E images_dir labels_dir train_ratio seed w) as Hsel.
  cbv zeta in Hsel. fold image_files valid_pairs in Hsel. rewrite Hpart in Hsel.
  set (train_pairs := slice_to k shuffled) in *.
  set (valid_pairs_ := slice_from k shuffled) in *.
  match type of Hsel with _ = (_, ?x) => set (w1 := x) in * end.
  assert (Hmem : forall p, p ∈ (train_pairs ++ valid_pairs_)%list -> p ∈ valid_pairs).
  { intros p Hp. unfold train_pairs, valid_pairs_ in Hp.
    rewrite slice_to_from in Hp. rewrite <- Hperm. exact Hp. }
  assert (Hshape : Forall (pair_shape images_dir labels_dir) (train_pairs ++ valid_pairs_)).
  { apply Forall_forall. intros p Hp. apply Hmem in Hp.
    pose proof (discovered_pairs_shape E images_dir labels_dir (fs w) Hin Hmagic Hlist) as Hall.
    rewrite Forall_forall in Hall. apply Hall. exact Hp. }
  assert (Hsrc : forall o, o ∈ all_ops images_dir train_pairs valid_pairs_ ->
                           is_file (fs w1 !! o.1) = true).
  { intros o Ho. unfold all_ops in Ho.
    assert (Hp : exists p, p ∈ (train_pairs ++ valid_pairs_)%list /\ (o.1 = p.1 \/ o.1 = p.2)).
    { apply elem_of_app in Ho as [Ho|Ho]; apply copy_ops_elem in Ho as (p & Hp & Hor);
        exists p; (split; [|exact Hor]); apply elem_of_app; auto. }
    destruct Hp as (p & Hp & Hor). apply Hmem in Hp.
    apply list_elem_of_fmap in Hp as (img & -> & Himg).
    apply list_elem_of_filter in Himg as [Hlabel Himg].
    destruct (Hfiles img Himg) as [Hfi Hfl]. cbn [fs w1].
    destruct Hor as [->| ->]; cbn [pair_of fst snd]; [exact Hfi|].
    apply is_file_of_some; [exact Hlabel|exact Hfl]. }
  destruct (materialize_ready R images_dir labels_dir Hin Hln train_pairs valid_pairs_ w1
              Hshape Htree Hno Ht Hv Hsrc)
    as (m & m' & Hmat & Hm & Hrun & Hdir & Hfile & Hdirs & Hsome).
  exists train_pairs, valid_pairs_, g', w1, m, m'.
  split; [exact Hpart|]. split; [exact Hsel|]. split; [reflexivity|]. split.
  { unfold split_and_copy, mbind, prog_bind. rewrite Hsel. exact Hmat. }
  split; [exact Hshape|]. auto 10.
Qed.


Lemma demo_tree_ok : tree_ok "/data" demo_fs.
Proof.
  split; [vm_compute; reflexivity|].
  intros d Hd. unfold tree_dirs, output_dirs in Hd. cbn [app] in Hd.
  rewrite !elem_of_cons, elem_of_nil in Hd.
  destruct Hd as [->|[->|[->|[->|[->|[->|[]]]]]]];
    vm_compute; first [left; reflexivity | right; reflexivity].
Qed.


(** ** Edge cases of a whole run *)

(** X11: when the two globs find nothing, and the output tree is free
    or already made, [split_and_copy] returns for every finite ratio:
    it prints the three counts as zero, makes the output tree, prints
    the two copy headings with no copy between them, and changes nothing
    else. *)
Theorem split_and_copy_on_no_images
    (R : RandomSource) (E : Env) (images_dir labels_dir : string)
    (train_ratio : spec_float) (seed : Z) (w : world (rs_state R)) :
  let base_dir := dirname images_dir in
  image_files_of E images_dir = [] ->
  is_finite train_ratio = true ->
  tree_ok base_dir (fs w) ->
  exists m',
    split_and_copy R E images_dir labels_dir train_ratio seed w
      = (Ok tt,
         World m'
           (out w ++ [MsgFound images_dir 0; MsgValidCount 0; MsgSplitCount 0 0;
                      MsgOutput base_dir]
              ++ (MsgDir <$> output_dirs base_dir)
              ++ [MsgCopyStart "Train"; MsgCopyStart "Valid"; MsgDone])%list
           (rs_seed R seed)) /\
    forall p, m' !! p = if bool_decide (p ∈ tree_dirs base_dir) then Some Dir else fs w !! p.
Proof.
  intros base_dir Hnone Hfin Htree.
  pose proof (select_split_spec R E images_dir labels_dir train_ratio seed w) as Hsel.
  cbv zeta in Hsel. rewrite Hnone in Hsel. rewrite !filter_nil in Hsel.
  cbn [fmap list_fmap length app] in Hsel.
  assert (Hpart : partition R (rs_seed R seed) train_ratio (@nil (string * string))
                  = Ok ([], [], rs_seed R seed)).
  { unfold partition, train_count_of. cbn [length].
    destruct train_ratio; try discriminate; reflexivity. }
  rewrite Hpart in Hsel. cbn [length] in Hsel.
  match type of Hsel with _ = (_, ?x) => set (w1 := x) in * end.
  set (w2 := World (fs w1) (out w1 ++ [MsgOutput base_dir])%list (rng w1)).
  destruct (create_dir_structure_run base_dir w2 (norm_dir_dirname images_dir) Htree)
    as (m & Hmk & _ & Hm).
  exists m. split; [|exact Hm].
  unfold split_and_copy, mbind, prog_bind. rewrite Hsel.
  unfold materialize, mbind, prog_bind, print. cbn [fs out rng].
  fold base_dir w2. rewrite Hmk. cbn [copy_data]. unfold mret, prog_ret.
  cbn [fs out rng w2 w1]. rewrite <- !app_assoc. reflexivity.
Qed.

Lemma split_and_copy_on_no_images_witness :
  let E := demo_env ["A.JPG"; ".b.jpg"; "notes.txt"] in
  image_files_of E "/data/images" = [] /\
  is_finite demo_ratio = true /\
  tree_ok (dirname "/data/images") (fs demo_world) /\
  exists m',
    split_and_copy lcg E "/data/images" "/data/labels" demo_ratio 42 demo_world
      = (Ok tt,
         World m'
           (out demo_world
              ++ [MsgFound "/data/images" 0; MsgValidCount 0; MsgSplitCount 0 0;
                  MsgOutput (dirname "/data/images")]
              ++ (MsgDir <$> output_dirs (dirname "/data/images"))
              ++ [MsgCopyStart "Train"; MsgCopyStart "Valid"; MsgDone])%list
           (rs_seed lcg 42)) /\
    forall p, m' !! p = if bool_decide (p ∈ tree_dirs (dirname "/data/images"))
                        then Some Dir else fs demo_world !! p.
Proof.
  intros E.
  assert (H1 : image_files_of E "/data/images" = []) by (vm_compute; reflexivity).
  assert (H2 : is_finite demo_ratio = true) by reflexivity.
  assert (H3 : tree_ok (dirname "/data/images") (fs demo_world)) by exact demo_tree_ok.
  split; [exact H1|]. split; [exact H2|]. split; [exact H3|].
  exact (split_and_copy_on_no_images lcg E "/data/images" "/data/labels" demo_ratio 42
           demo_world H1 H2 H3).
Defined.

Lemma train_count_of_not_finite (total : nat) (train_ratio : spec_float) :
  is_finite train_ratio = false ->
  exists e, train_count_of total train_ratio = Raise e /\
            (e = OverflowError \/ e = ValueError).
Proof.
  intros Hfin. unfold train_count_of, float_of_int.
  destruct (binary_normalize prec64 emax64 (Z.of_nat total) 0 false) as [s|s| |s m e];
    destruct train_ratio as [s'|s'| |s' m' e']; try discriminate Hfin;
    cbn; eauto.
Qed.

(** X12: the ratio is not checked: with an infinite or NaN ratio, which
    the float parser of the command line accepts, [split_and_copy]
    raises [OverflowError] or [ValueError] at [int(total * train_ratio)],
    whatever the dataset, the empty one included. The two counts are
    printed by then; no directory is made and no file is copied. *)
Theorem split_and_copy_raises_on_a_ratio_that_is_not_finite
    (R : RandomSource) (E : Env) (images_dir labels_dir : string)
    (train_ratio : spec_float) (seed : Z) (w : world (rs_state R)) :
  is_finite train_ratio = false ->
  exists e w',
    split_and_copy R E images_dir labels_dir train_ratio seed w = (Raise e, w') /\
    (e = OverflowError \/ e = ValueError) /\
    fs w' = fs w /\
    exists warnings n_valid,
      out w' = (out w ++ MsgFound images_dir (length (image_files_of E images_dir))
                  :: warnings ++ [MsgValidCount n_valid])%list.
Proof.
  intros Hfin.
  pose proof (select_split_spec R E images_dir labels_dir train_ratio seed w) as Hsel.
  cbv zeta in Hsel.
  match type of Hsel with
  | context [partition R _ _ ?vp] =>
      destruct (train_count_of_not_finite (length vp) train_ratio Hfin) as (e & He & Hor);
      assert (Hpart : partition R (rs_seed R seed) train_ratio vp = Raise e)
        by (unfold partition; rewrite He; reflexivity)
  end.
  rewrite Hpart in Hsel.
  eexists e, _. split; [|split; [exact Hor|split]].
  - unfold split_and_copy, mbind, prog_bind. rewrite Hsel. reflexivity.
  - reflexivity.
  - eexists _, _. cbn [out app]. reflexivity.
Qed.

Lemma split_and_copy_raises_on_a_ratio_that_is_not_finite_witness :
  is_finite (S754_infinity false) = false /\
  exists e w',
    split_and_copy lcg (demo_env demo_names_1) "/data/images" "/data/labels"
      (S754_infinity false) 42 demo_world = (Raise e, w') /\
    (e = OverflowError \/ e = ValueError) /\
    fs w' = fs demo_world /\
    exists warnings n_valid,
      out w' = (out demo_world
                  ++ MsgFound "/data/images"
                       (length (image_files_of (demo_env demo_names_1) "/data/images"))
                  :: warnings ++ [MsgValidCount n_valid])%list.
Proof.
  assert (H : is_finite (S754_infinity false) = false) by reflexivity.
  split; [exact H|].
  exact (split_and_copy_raises_on_a_ratio_that_is_not_finite lcg (demo_env demo_names_1)
           "/data/images" "/data/labels" (S754_infinity false) 42 demo_world H).
Defined.

(** ** [copy_data]: what a run leaves behind, finished or not *)

(** [copy2] removes nothing and leaves directories directories, whether
    it returns or raises. *)
Lemma copy2_frame {G} (src dst : string) (w w' : world G) (r : result string) :
  copy2 src dst w = (r, w') ->
  rng w' = rng w /\
  (forall q, is_Some (fs w !! q) -> is_Some (fs w' !! q)) /\
  (forall q, fs w !! q = Some Dir -> fs w' !! q = Some Dir).
Proof.
  unfold copy2. set (d := if is_dir (fs w !! dst) then join dst (basename src) else dst).
  assert (Hins : forall c, is_dir (fs w !! d) = false ->
            rng (World (<[d := File c]> (fs w)) (out w) (rng w)) = rng w /\
            (forall q, is_Some (fs w !! q) ->
                       is_Some (fs (World (<[d := File c]> (fs w)) (out w) (rng w)) !! q)) /\
            (forall q, fs w !! q = Some Dir ->
                       fs (World (<[d := File c]> (fs w)) (out w) (rng w)) !! q = Some Dir)).
  { intros c Hd. cbn [fs rng]. split; [reflexivity|]. split; intros q Hq.
    - destruct (decide (d = q)) as [->|Hne]; [rewrite lookup_insert_eq; eauto|].
      rewrite lookup_insert_ne by exact Hne. exact Hq.
    - destruct (decide (d = q)) as [->|Hne]; [rewrite Hq in Hd; discriminate|].
      rewrite lookup_insert_ne by exact Hne. exact Hq. }
  destruct (fs w !! src) as [[|c]|]; [| |intros [= _ <-]; auto].
  - case_bool_decide; intros [= _ <-]; auto.
  - case_bool_decide; [intros [= _ <-]; auto|].
    destruct (fs w !! d) as [[|c']|] eqn:Hd.
    + intros [= _ <-]; auto.
    + intros [= _ <-]. apply Hins. first [rewrite Hd; reflexivity | reflexivity].
    + destruct (fs w !! dirname d) as [[|c']|]; intros [= _ <-]; auto.
Qed.

(** X13: [copy_data] has no rollback. Whatever it returns, it has
    printed one line for each pair of a leading part of its list, in
    order, and nothing for the rest; no path that existed is gone and
    every directory is still a directory. It returns normally exactly
    when that leading part is the whole list. *)
Theorem copy_data_reports_a_prefix_and_removes_nothing {G}
    (pairs : list (string * string)) (img_out_dir label_out_dir set_name : string)
    (w : world G) :
  exists done rest,
    let run := copy_data pairs img_out_dir label_out_dir set_name w in
    pairs = (done ++ rest)%list /\
    out (snd run) = (out w ++ copied_lines set_name done)%list /\
    rng (snd run) = rng w /\
    (forall q, is_Some (fs w !! q) -> is_Some (fs (snd run) !! q)) /\
    (forall q, fs w !! q = Some Dir -> fs (snd run) !! q = Some Dir) /\
    (fst run = Ok tt <-> rest = []).
Proof.
  revert w. induction pairs as [|[img lbl] pairs IH]; intros w.
  - exists [], []. cbn. unfold mret, prog_ret. cbn. rewrite app_nil_r.
    split; [reflexivity|]. split; [reflexivity|]. split; [reflexivity|].
    split; [auto|]. split; [auto|]. split; reflexivity.
  - cbn [copy_data]. unfold mbind, prog_bind.
    destruct (copy2 img (join img_out_dir (basename img)) w) as [[d1|e1] w1] eqn:H1.
    + pose proof (copy2_out _ _ _ _ _ H1) as Ho1.
      apply copy2_frame in H1 as (Hr1 & Hs1 & Hd1).
      destruct (copy2 lbl (join label_out_dir (basename lbl)) w1) as [[d2|e2] w2] eqn:H2.
      * pose proof (copy2_out _ _ _ _ _ H2) as Ho2.
        apply copy2_frame in H2 as (Hr2 & Hs2 & Hd2).
        unfold print.
        destruct (IH (World (fs w2)
                        (out w2 ++ [MsgCopied set_name (basename img) (basename lbl)])%list
                        (rng w2)))
          as (done & rest & Hsplit & Hout & Hrng & Hsome & Hdir & Hok).
        cbn [fs out rng] in *.
        exists ((img, lbl) :: done), rest.
        split; [rewrite Hsplit; reflexivity|]. split.
        { rewrite Hout, Ho2, Ho1. unfold copied_lines.
          rewrite fmap_cons, <- app_assoc. reflexivity. }
        split; [congruence|]. split; [auto|]. split; [auto|]. exact Hok.
      * exists [], ((img, lbl) :: pairs). cbn [fst snd app copied_lines fmap list_fmap].
        pose proof (copy2_out _ _ _ _ _ H2) as Ho2.
        apply copy2_frame in H2 as (Hr2 & Hs2 & Hd2).
        rewrite app_nil_r. split; [reflexivity|]. split; [congruence|].
        split; [congruence|]. split; [auto|]. split; [auto|].
        split; discriminate.
    + exists [], ((img, lbl) :: pairs). cbn [fst snd app copied_lines fmap list_fmap].
      pose proof (copy2_out _ _ _ _ _ H1) as Ho1.
      apply copy2_frame in H1 as (Hr1 & Hs1 & Hd1).
      rewrite app_nil_r. split; [reflexivity|]. split; [congruence|].
      split; [congruence|]. split; [auto|]. split; [auto|].
      split; discriminate.
Qed.

(** X14: a label that already lies in the output labels directory
    cannot be copied: [copy2] raises [SameFileError]. The image of the
    pair has been copied by then and stays; no line is printed for the
    pair and the pairs after it are not tried. *)
Theorem copy_data_raises_on_a_label_in_its_own_destination {G}
    (img_path label_path : string) (rest : list (string * string))
    (img_out_dir label_out_dir set_name : string) (w : world G) :
  let dest_img_path := join img_out_dir (basename img_path) in
  copy_ready (fs w) (img_path, dest_img_path) ->
  is_file (fs w !! label_path) = true ->
  join label_out_dir (basename label_path) = label_path ->
  exists content,
    fs w !! img_path = Some (File content) /\
    copy_data ((img_path, label_path) :: rest) img_out_dir label_out_dir set_name w
      = (Raise (SameFileError label_path label_path),
         World (<[dest_img_path := File content]> (fs w)) (out w) (rng w)).
Proof.
  intros dest_img_path Hready Hlabel Hsame.
  pose proof Hready as (_ & _ & Hd & _). cbn [snd] in Hd.
  destruct (copy2_ready img_path dest_img_path w Hready) as (content & Hsrc & Hrun).
  exists content. split; [exact Hsrc|].
  cbn [copy_data]. unfold mbind, prog_bind. fold dest_img_path. rewrite Hrun.
  rewrite Hsame. unfold copy2. cbn [fs out rng].
  pose proof (is_file_insert_file (fs w) dest_img_path label_path content Hlabel) as Hl1.
  destruct (<[dest_img_path := File content]> (fs w) !! label_path) as [[|c]|] eqn:Hlook;
    try discriminate Hl1.
  cbn [is_dir]. rewrite bool_decide_eq_true_2 by reflexivity. reflexivity.
Qed.

Lemma copy_data_raises_on_a_label_in_its_own_destination_witness :
  let w : world (rs_state lcg) :=
    World (<["/data/train/images" := Dir]> (<["/data/train" := Dir]> demo_fs)) [] 0 in
  copy_ready (fs w) ("/data/images/a.jpg", join "/data/train/images" (basename "/data/images/a.jpg")) /\
  is_file (fs w !! "/data/labels/a.txt") = true /\
  join "/data/labels" (basename "/data/labels/a.txt") = "/data/labels/a.txt" /\
  exists content,
    fs w !! "/data/images/a.jpg" = Some (File content) /\
    copy_data [("/data/images/a.jpg", "/data/labels/a.txt");
               ("/data/images/b.jpg", "/data/labels/b.txt")]
      "/data/train/images" "/data/labels" "Train" w
      = (Raise (SameFileError "/data/labels/a.txt" "/data/labels/a.txt"),
         World (<[join "/data/train/images" (basename "/data/images/a.jpg") := File content]>
                  (fs w)) (out w) (rng w)).
Proof.
  intros w.
  assert (H1 : copy_ready (fs w)
                 ("/data/images/a.jpg",
                  join "/data/train/images" (basename "/data/images/a.jpg"))).
  { repeat split; try (vm_compute; reflexivity). vm_compute. discriminate. }
  assert (H2 : is_file (fs w !! "/data/labels/a.txt") = true) by (vm_compute; reflexivity).
  assert (H3 : join "/data/labels" (basename "/data/labels/a.txt") = "/data/labels/a.txt")
    by (vm_compute; reflexivity).
  split; [exact H1|]. split; [exact H2|]. split; [exact H3|].
  exact (copy_data_raises_on_a_label_in_its_own_destination
           "/data/images/a.jpg" "/data/labels/a.txt"
           [("/data/images/b.jpg", "/data/labels/b.txt")]
           "/data/train/images" "/data/labels" "Train" w H1 H2 H3).
Defined.

(** ** [main] *)

(** X15: [main] checks the images directory first, then the labels
    directory, and names the first that is no directory, also when both
    are none and also when a regular file stands there; with both in
    place it prints the five parameter lines and then does what
    [split_and_copy] does on the absolute paths. *)
Theorem main_checks_images_dir_then_labels_dir_then_runs
    (R : RandomSource) (E : Env) (args : Args) (w : world (rs_state R)) :
  let images_dir := abspath E (arg_images_dir args) in
  let labels_dir := abspath E (arg_labels_dir args) in
  (is_dir (fs w !! images_dir) = false ->
     main R E args w
     = (Raise (FileNotFoundError (images_dir_missing +:+ images_dir)), w)) /\
  (is_dir (fs w !! images_dir) = true -> is_dir (fs w !! labels_dir) = false ->
     main R E args w
     = (Raise (FileNotFoundError (labels_dir_missing +:+ labels_dir)), w)) /\
  (is_dir (fs w !! images_dir) = true -> is_dir (fs w !! labels_dir) = true ->
     main R E args w
     = split_and_copy R E images_dir labels_dir (arg_train_ratio args) (arg_seed args)
         (World (fs w)
            (out w ++ [MsgParams; MsgImagesDir images_dir; MsgLabelsDir labels_dir;
                       MsgTrainRatio (arg_train_ratio args); MsgSeed (arg_seed args)])%list
            (rng w))).
Proof.
  intros images_dir labels_dir.
  unfold main. fold images_dir labels_dir.
  unfold mbind, prog_bind, path_isdir, raise, print.
  split; [|split].
  - intros Hi. rewrite Hi. reflexivity.
  - intros Hi Hl. rewrite Hi. cbn [negb]. rewrite Hl. reflexivity.
  - intros Hi Hl. rewrite Hi. cbn [negb]. rewrite Hl. cbn [negb fs out rng].
    rewrite <- !app_assoc. reflexivity.
Qed.

(** ** Running the script a second time *)

Lemma tree_dirs_length (base d : string) :
  d ∈ tree_dirs base ->
  (String.length d <= String.length (join (join base "train") "images"))%nat.
Proof.
  unfold tree_dirs. cbn [app]. rewrite !elem_of_cons.
  pose proof (length_join (join base "train") "images" eq_refl) as H1.
  pose proof (length_join_exact base "train" eq_refl) as H2.
  pose proof (length_join_exact base "valid" eq_refl) as H3.
  cbn [String.length] in H2, H3.
  intros [->|[->|Hd]]; [lia|lia|].
  rewrite (length_output_dirs base d Hd). lia.
Qed.

(** A name with a dot in it, in a normalized directory, is none of the
    six directories of the output tree. *)
Lemma dotted_name_not_in_tree (base d name : string) :
  norm_dir base = true -> norm_dir d = true ->
  is_name name = true -> contains extsep name = true ->
  join d name ∉ tree_dirs base.
Proof.
  intros Hb Hd Hn Hdot Hin.
  assert (H1 : forall s, is_name s = true -> contains extsep s = false ->
                         join d name <> join base s).
  { intros s Hs Hc Heq. apply join_inj in Heq as [_ ->]; try assumption. congruence. }
  assert (H2 : forall s t, is_name s = true -> is_name t = true ->
                           contains extsep t = false ->
                           join d name <> join (join base s) t).
  { intros s t Hs Ht Hc Heq. apply join_inj in Heq as [_ ->]; try assumption; [congruence|].
    apply is_name_spec in Hs as [? ?]. apply norm_dir_join; assumption. }
  unfold tree_dirs, output_dirs in Hin. cbn [app] in Hin.
  rewrite !elem_of_cons, elem_of_nil in Hin.
  destruct Hin as [Heq|[Heq|[Heq|[Heq|[Heq|[Heq|[]]]]]]];
    first [eapply H1 in Heq | eapply H2 in Heq]; try reflexivity; contradiction.
Qed.

Lemma filter_bool_ext {A} (f g : A -> bool) (l : list A) :
  (forall a, a ∈ l -> f a = g a) ->
  filter (fun a => f a = true) l = filter (fun a => g a = true) l.
Proof.
  induction l as [|a l IH]; intros Hfg; [reflexivity|].
  rewrite !filter_cons.
  rewrite (Hfg a) by apply list_elem_of_here.
  rewrite IH by (intros b Hb; apply Hfg, list_elem_of_further, Hb).
  destruct (g a); destruct (decide _); try congruence; destruct (decide _); congruence.
Qed.

Lemma is_some_node_iff (n n' : option node) :
  (is_Some n -> is_Some n') -> (n = None -> n' = None) ->
  is_some_node n' = is_some_node n.
Proof.
  destruct n as [x|]; destruct n' as [x'|]; cbn; intros H1 H2; try reflexivity.
  - destruct H1 as [? [=]]. eauto.
  - specialize (H2 eq_refl). discriminate.
Qed.



(** ** What a run can change *)

Lemma writes_under_refl (dirs : list string) (m : gmap string node) :
  writes_under dirs m m.
Proof. intros p. left. reflexivity. Qed.

Lemma writes_under_trans (dirs : list string) (m1 m2 m3 : gmap string node) :
  writes_under dirs m1 m2 -> writes_under dirs m2 m3 -> writes_under dirs m1 m3.
Proof.
  intros H12 H23 p. destruct (H23 p) as [->|(Hd & Hf & Hp)]; [apply H12|].
  right. split; [|auto].
  destruct (H12 p) as [<-|(Hd1 & _)]; assumption.
Qed.

Lemma writes_under_mono (dirs dirs' : list string) (m m' : gmap string node) :
  (forall d, d ∈ dirs -> d ∈ dirs') -> writes_under dirs m m' -> writes_under dirs' m m'.
Proof.
  intros Hsub H p. destruct (H p) as [?|(Hd & Hf & d & b & Hin & Hp)]; [auto|].
  right. eauto 8.
Qed.

Lemma copy2_writes_under {G} (src d b : string) (w w' : world G) (r : result string) :
  b = basename src ->
  copy2 src (join d b) w = (r, w') -> writes_under [d] (fs w) (fs w').
Proof.
  intros ->. unfold copy2.
  set (dst := if is_dir (fs w !! join d (basename src))
              then join (join d (basename src)) (basename src)
              else join d (basename src)).
  assert (Hins : forall c, is_dir (fs w !! dst) = false ->
            writes_under [d] (fs w) (<[dst := File c]> (fs w))).
  { intros c Hd p. destruct (decide (dst = p)) as [<-|Hne].
    - right. rewrite lookup_insert_eq. split; [exact Hd|]. split; [reflexivity|].
      exists d, (basename src). split; [apply list_elem_of_here|].
      unfold dst. destruct (is_dir _); auto.
    - left. apply lookup_insert_ne. exact Hne. }
  destruct (fs w !! src) as [[|c]|]; [| |intros [= _ <-]; apply writes_under_refl].
  - case_bool_decide; intros [= _ <-]; apply writes_under_refl.
  - case_bool_decide; [intros [= _ <-]; apply writes_under_refl|].
    destruct (fs w !! dst) as [[|c']|] eqn:Hd.
    + intros [= _ <-]. apply writes_under_refl.
    + intros [= _ <-]. cbn [fs]. apply Hins. reflexivity.
    + destruct (fs w !! dirname dst) as [[|c']|]; intros [= _ <-];
        try apply writes_under_refl.
      cbn [fs]. apply Hins. reflexivity.
Qed.

Lemma copy_data_writes_under {G} (pairs : list (string * string))
    (img_out_dir label_out_dir set_name : string) (w w' : world G) (r : result unit) :
  copy_data pairs img_out_dir label_out_dir set_name w = (r, w') ->
  writes_under [img_out_dir; label_out_dir] (fs w) (fs w').
Proof.
  revert w. induction pairs as [|[img lbl] pairs IH]; intros w.
  - cbn. intros [= _ <-]. apply writes_under_refl.
  - cbn [copy_data]. unfold mbind, prog_bind.
    destruct (copy2 img (join img_out_dir (basename img)) w) as [[d1|e1] w1] eqn:H1;
      apply (copy2_writes_under img img_out_dir _ w w1 _ eq_refl) in H1;
      apply (writes_under_mono _ [img_out_dir; label_out_dir]) in H1;
      try (intros d Hd; apply list_elem_of_singleton in Hd as ->; apply list_elem_of_here).
    + destruct (copy2 lbl (join label_out_dir (basename lbl)) w1) as [[d2|e2] w2] eqn:H2;
        apply (copy2_writes_under lbl label_out_dir _ w1 w2 _ eq_refl) in H2;
        apply (writes_under_mono _ [img_out_dir; label_out_dir]) in H2;
        try (intros d Hd; apply list_elem_of_singleton in Hd as ->;
             apply list_elem_of_further, list_elem_of_here).
      * unfold print. intros Hrest. apply IH in Hrest. cbn [fs] in Hrest.
        eauto using writes_under_trans.
      * intros [= _ <-]. eauto using writes_under_trans.
    + intros [= _ <-]. exact H1.
Qed.

